(** * Inventory policy engine (EOQ, (Q, r) policy, saw-tooth simulator)

    Shallow embedding of the numeric core of [20250815_ProblemaEstoque.py]:
    the helper functions of lines 125-224, the single-SKU calculator of
    lines 360-383 and the multi-SKU evaluator of lines 1030-1143.

    Numbers.  A Python/NumPy float is read as one of: not-a-number, plus or
    minus infinity, or a real number.  Arithmetic on real numbers is exact:
    rounding, overflow and the sign of zero are outside this model.  The one
    place where binary64 rounding changes the answer at ordinary magnitudes
    (the lot-multiple ceiling) is examined separately on hardware floats in
    [Module Binary64]. *)

From Stdlib Require Import Reals Lra Lia ZArith List Bool String Permutation Sorted.
From Stdlib Require Import FunctionalExtensionality.
From Stdlib Require PrimFloat FloatOps SpecFloat Uint63.
Import ListNotations.

Local Open Scope R_scope.

(* ------------------------------------------------------------------ *)
(** ** Floats as extended reals *)

Inductive num : Type :=
| NaN
| PInf
| NInf
| Fin (x : R).

Declare Scope num_scope.
Delimit Scope num_scope with num.
Bind Scope num_scope with num.

Definition Rltb (x y : R) : bool := if Rlt_dec x y then true else false.
Definition Rleb (x y : R) : bool := if Rle_dec x y then true else false.
Definition Reqb (x y : R) : bool := if Req_dec_T x y then true else false.

Module N.

(** IEEE comparisons: every comparison with NaN is false. *)
Definition ltb (a b : num) : bool :=
  match a, b with
  | NaN, _ | _, NaN => false
  | NInf, NInf => false
  | NInf, _ => true
  | _, NInf => false
  | PInf, _ => false
  | Fin _, PInf => true
  | Fin x, Fin y => Rltb x y
  end.

Definition leb (a b : num) : bool :=
  match a, b with
  | NaN, _ | _, NaN => false
  | NInf, _ => true
  | _, NInf => false
  | _, PInf => true
  | PInf, Fin _ => false
  | Fin x, Fin y => Rleb x y
  end.

Definition gtb (a b : num) : bool := ltb b a.
Definition geb (a b : num) : bool := leb b a.

Definition opp (a : num) : num :=
  match a with
  | NaN => NaN
  | PInf => NInf
  | NInf => PInf
  | Fin x => Fin (- x)
  end.

Definition add (a b : num) : num :=
  match a, b with
  | NaN, _ | _, NaN => NaN
  | PInf, NInf | NInf, PInf => NaN
  | PInf, _ | _, PInf => PInf
  | NInf, _ | _, NInf => NInf
  | Fin x, Fin y => Fin (x + y)
  end.

Definition sub (a b : num) : num := add a (opp b).

(** The infinity with the sign of [x], NaN when [x] is zero. *)
Definition inf_signed (x : R) : num :=
  if Rltb 0 x then PInf else if Rltb x 0 then NInf else NaN.

Definition mul (a b : num) : num :=
  match a, b with
  | NaN, _ | _, NaN => NaN
  | PInf, PInf | NInf, NInf => PInf
  | PInf, NInf | NInf, PInf => NInf
  | PInf, Fin y => inf_signed y
  | NInf, Fin y => inf_signed (- y)
  | Fin x, PInf => inf_signed x
  | Fin x, NInf => inf_signed (- x)
  | Fin x, Fin y => Fin (x * y)
  end.

(** IEEE quotient.  A zero divisor is read as +0. *)
Definition div (a b : num) : num :=
  match a, b with
  | NaN, _ | _, NaN => NaN
  | (PInf | NInf), (PInf | NInf) => NaN
  | PInf, Fin y => if Rltb y 0 then NInf else PInf
  | NInf, Fin y => if Rltb y 0 then PInf else NInf
  | Fin _, (PInf | NInf) => Fin 0
  | Fin x, Fin y => if Reqb y 0 then inf_signed x else Fin (x / y)
  end.

(** [np.isnan], [np.isfinite]. *)
Definition isnan (a : num) : bool :=
  match a with NaN => true | _ => false end.

Definition isfinite (a : num) : bool :=
  match a with Fin _ => true | _ => false end.

(** [np.sqrt]: NaN on negative arguments (a warning, not an exception). *)
Definition np_sqrt (a : num) : num :=
  match a with
  | NaN | NInf => NaN
  | PInf => PInf
  | Fin x => if Rltb x 0 then NaN else Fin (sqrt x)
  end.

(** Least integer not below [x]. *)
Definition Rceil (x : R) : R := IZR (- Int_part (- x)).

(** [np.ceil]. *)
Definition np_ceil (a : num) : num :=
  match a with
  | Fin x => Fin (Rceil x)
  | _ => a
  end.

(** The builtin [max(a, b)] of two arguments: the first one is kept unless
    the second compares greater, so [max(0.0, nan)] is [0.0]. *)
Definition pymax (a b : num) : num := if gtb b a then b else a.

(** Truth value of a float used as a condition: false for zero only. *)
Definition truthy (a : num) : bool :=
  match a with
  | Fin x => negb (Reqb x 0)
  | _ => true
  end.

End N.

Notation "a + b" := (N.add a b) : num_scope.
Notation "a - b" := (N.sub a b) : num_scope.
Notation "a * b" := (N.mul a b) : num_scope.
Notation "a <? b" := (N.ltb a b) (at level 70) : num_scope.
Notation "a <=? b" := (N.leb a b) (at level 70) : num_scope.
Notation "a >? b" := (N.gtb a b) (at level 70) : num_scope.
Notation "a >=? b" := (N.geb a b) (at level 70) : num_scope.

(* ------------------------------------------------------------------ *)
(** ** Exceptions

    The arithmetic of the engine could raise [ZeroDivisionError], from the
    true division of Python floats (NumPy scalars return an infinity
    instead; modelling every division as the raising one is the stricter
    reading), [TypeError], from rounding a value that is [None], and
    [IndexError], from taking a row that is not there. *)

Inductive pyerror : Type := ZeroDivisionError | TypeError | IndexError.

Inductive exc (A : Type) : Type :=
| Val (a : A)
| Raise (e : pyerror).
Arguments Val {A} a.
Arguments Raise {A} e.

Definition bind {A B : Type} (m : exc A) (k : A -> exc B) : exc B :=
  match m with
  | Val a => k a
  | Raise e => Raise e
  end.

Notation "x <- m ;; k" := (bind m (fun x => k))
  (at level 61, m at next level, right associativity).

Definition truediv (a b : num) : exc num :=
  match b with
  | Fin y => if Reqb y 0 then Raise ZeroDivisionError else Val (N.div a b)
  | _ => Val (N.div a b)
  end.

(* ------------------------------------------------------------------ *)
(** ** Helper functions of the single-SKU calculator (lines 125-165) *)

Module Calc.

Local Open Scope num_scope.

(** [eoq], lines 125-129. *)
Definition eoq (D_per K h_per : num) : exc num :=
  if (D_per <=? Fin 0) || (K <? Fin 0) || (h_per <=? Fin 0) then Val NaN
  else
    x <- truediv (Fin 2 * K * D_per) h_per ;;
    Val (N.np_sqrt x).

(** [custos_periodicos], lines 131-140.  [Q] may be [None]. *)
Definition custos_periodicos (Q : option num) (D_per K h_per SS : num)
  : exc (num * num * num) :=
  match Q with
  | None => Val (NaN, NaN, NaN)
  | Some q =>
    if (q <=? Fin 0) || (D_per <=? Fin 0) || (h_per <? Fin 0) || (K <? Fin 0)
    then Val (NaN, NaN, NaN)
    else
      c_ped <- truediv (K * D_per) q ;;
      half <- truediv q (Fin 2) ;;
      let c_pos := h_per * (half + N.pymax (Fin 0) SS) in
      Val (c_ped, c_pos, c_ped + c_pos)
  end.

(** [ajusta_por_moq_multiplo], lines 157-165.  [q] may be [None], which is
    handed back as it came. *)
Definition ajusta_por_moq_multiplo (q : option num) (moq mult : num)
  : exc (option num) :=
  match q with
  | None => Val None
  | Some qv =>
    if N.isnan qv then Val (Some qv)
    else
      let q_adj := qv in
      let q_adj :=
        if N.truthy moq && (moq >? Fin 0) && (q_adj <? moq) then moq else q_adj in
      if N.truthy mult && (mult >? Fin 0) then
        quo <- truediv q_adj mult ;;
        Val (Some (mult * N.np_ceil quo))
      else Val (Some q_adj)
  end.

End Calc.

(* ------------------------------------------------------------------ *)
(** ** Single-SKU calculator, lines 142-155 and 360-383 *)

Module Calculadora.

Import Calc.
Local Open Scope num_scope.

(** [lead_time_stats_from_base], lines 142-155: returns
    [(mu_L, sigma_L, d_dia, sigma_d_dia)]. *)
Definition lead_time_stats_from_base (D_base sigma_base L_dias : num) (base : string)
  : exc (num * num * num * num) :=
  dd <- (if String.eqb base "semanal"
         then d <- truediv D_base (Fin 7) ;;
              s <- truediv sigma_base (N.np_sqrt (Fin 7)) ;; Val (d, s)
         else d <- truediv D_base (Fin 30) ;;
              s <- truediv sigma_base (N.np_sqrt (Fin 30)) ;; Val (d, s)) ;;
  let '(d_dia, sigma_d_dia) := dd in
  let mu_L := d_dia * L_dias in
  let sigma_L := sigma_d_dia * N.np_sqrt (N.pymax L_dias (Fin 1)) in
  Val (mu_L, sigma_L, d_dia, sigma_d_dia).

(** Baseline reorder point and safety stock, lines 367-372: returns
    [(SS_base, r_base)]. *)
Definition baseline_ss_r (r_base_input mu_L_opt SS_base_default : num) : num * num :=
  if N.truthy r_base_input && (r_base_input >? Fin 0)
  then (N.pymax (Fin 0) (r_base_input - mu_L_opt), r_base_input)
  else (SS_base_default, mu_L_opt + SS_base_default).

(** Savings, lines 381-383: returns
    [(economia_per, economia_ano, economia_pct)]. *)
Definition economia (ctot_base ctot_opt periods_per_year : num)
  : exc (num * num * num) :=
  let economia_per :=
    if N.isfinite ctot_base && N.isfinite ctot_opt
    then ctot_base - ctot_opt else NaN in
  let economia_ano :=
    if N.isfinite economia_per then economia_per * periods_per_year else NaN in
  economia_pct <-
    (if N.isfinite ctot_base && (ctot_base >? Fin 0)
     then x <- truediv economia_per ctot_base ;; Val (x * Fin 100)
     else Val NaN) ;;
  Val (economia_per, economia_ano, economia_pct).

(** What the calculator derives for one SKU. *)
Record politica : Type := {
  r_opt : num; SS_opt : num; r_base : num; SS_base : num;
  Q_opt : option num;
  ctot_opt : num; ctot_base : num;
  economia_per : num; economia_ano : num; economia_pct : num
}.

Section Calculadora.

(** [scipy.stats.norm.ppf], the standard normal quantile function. *)
Variable norm_ppf : num -> num.

(** Line 239. *)
Definition periods_per_year (base_key : string) : num :=
  if String.eqb base_key "mensal" then Fin 12 else Fin 52.

(** Lines 295 and 360-383. *)
Definition calculadora (base_key : string)
    (D_base sigma_base L_dias v i_anual K moq mult SL_opt SL_base
     Q_base r_base_input : num) : exc politica :=
  let periods_per_year := periods_per_year base_key in
  h_per <- truediv (i_anual * v) periods_per_year ;;
  st <- lead_time_stats_from_base D_base sigma_base L_dias base_key ;;
  let '(mu_L_opt, sigma_L_opt, d_dia, sigma_d_dia) := st in
  p_opt <- truediv SL_opt (Fin 100) ;;
  let z_opt := norm_ppf p_opt in
  let SS_opt := z_opt * sigma_L_opt in
  let r_opt := mu_L_opt + SS_opt in
  p_base <- truediv SL_base (Fin 100) ;;
  let z_base := norm_ppf p_base in
  let SS_base_default := z_base * sigma_L_opt in
  let '(SS_base, r_base) := baseline_ss_r r_base_input mu_L_opt SS_base_default in
  Q_opt_raw <- eoq D_base K h_per ;;
  Q_opt <- ajusta_por_moq_multiplo (Some Q_opt_raw) moq mult ;;
  co <- custos_periodicos Q_opt D_base K h_per SS_opt ;;
  cb <- custos_periodicos (Some Q_base) D_base K h_per SS_base ;;
  let '(cped_opt, cpos_opt, ctot_opt) := co in
  let '(cped_base, cpos_base, ctot_base) := cb in
  e <- economia ctot_base ctot_opt periods_per_year ;;
  let '(economia_per, economia_ano, economia_pct) := e in
  Val {| r_opt := r_opt; SS_opt := SS_opt; r_base := r_base; SS_base := SS_base;
         Q_opt := Q_opt; ctot_opt := ctot_opt; ctot_base := ctot_base;
         economia_per := economia_per; economia_ano := economia_ano;
         economia_pct := economia_pct |}.

End Calculadora.

End Calculadora.

(* ------------------------------------------------------------------ *)
(** ** Multi-SKU evaluator, lines 1030-1133 *)

Module MultiSKU.

Local Open Scope num_scope.

(** [eoq], lines 1030-1032: as [Calc.eoq], with a guard for a missing
    demand. *)
Definition eoq (D_per : option num) (K h_per : num) : exc num :=
  match D_per with
  | None => Val NaN
  | Some d =>
    if (d <=? Fin 0) || (K <? Fin 0) || (h_per <=? Fin 0) then Val NaN
    else
      x <- truediv (Fin 2 * K * d) h_per ;;
      Val (N.np_sqrt x)
  end.

(** [custos_periodicos], lines 1034-1038. *)
Definition custos_periodicos (Q : option num) (D_per K h_per SS : num)
  : exc (num * num * num) :=
  match Q with
  | None => Val (NaN, NaN, NaN)
  | Some q =>
    if (q <=? Fin 0) || (D_per <=? Fin 0) || (h_per <? Fin 0) || (K <? Fin 0)
    then Val (NaN, NaN, NaN)
    else
      c_ped <- truediv (K * D_per) q ;;
      half <- truediv q (Fin 2) ;;
      let c_pos := h_per * (half + N.pymax (Fin 0) SS) in
      Val (c_ped, c_pos, c_ped + c_pos)
  end.

(** [lead_time_stats_from_base], lines 1040-1047. *)
Definition lead_time_stats_from_base (D_base sigma_base L_dias : num) (base : string)
  : exc (num * num * num * num) :=
  dd <- (if String.eqb base "semanal"
         then d <- truediv D_base (Fin 7) ;;
              s <- truediv sigma_base (N.np_sqrt (Fin 7)) ;; Val (d, s)
         else d <- truediv D_base (Fin 30) ;;
              s <- truediv sigma_base (N.np_sqrt (Fin 30)) ;; Val (d, s)) ;;
  let '(d_dia, sigma_d_dia) := dd in
  let mu_L := d_dia * L_dias in
  let sigma_L := sigma_d_dia * N.np_sqrt (N.pymax L_dias (Fin 1)) in
  Val (mu_L, sigma_L, d_dia, sigma_d_dia).

(** [ajusta_por_moq_multiplo], lines 1049-1054; [float(.)] of a float is
    the float. *)
Definition ajusta_por_moq_multiplo (q : option num) (moq mult : num)
  : exc (option num) :=
  match q with
  | None => Val None
  | Some qv =>
    if N.isnan qv then Val (Some qv)
    else
      let q_adj := qv in
      let q_adj :=
        if N.truthy moq && (moq >? Fin 0) && (q_adj <? moq) then moq else q_adj in
      if N.truthy mult && (mult >? Fin 0) then
        quo <- truediv q_adj mult ;;
        Val (Some (mult * N.np_ceil quo))
      else Val (Some q_adj)
  end.

(** [np.clip(x, lo, hi)]. *)
Definition np_clip (x lo hi : num) : num :=
  if N.isnan x then NaN
  else if x <? lo then lo else if x >? hi then hi else x.

(** Nearest integer, halves to the even one ([np.rint]). *)
Definition Rrint (x : R) : R :=
  let f := Int_part x in
  let frac := (x - IZR f)%R in
  if Rltb frac (1 / 2) then IZR f
  else if Rltb (1 / 2) frac then IZR (f + 1)
  else if Z.even f then IZR f else IZR (f + 1).

(** [np.round(x, 2)]. *)
Definition np_round2 (a : num) : num :=
  match a with
  | Fin x => Fin (Rrint (x * 100) / 100)
  | _ => a
  end.

(** One row of the table [df], lines 1059-1073. *)
Record linha : Type := {
  SKU : string;
  D_per : num; sigma_per : num; v : num; i_anual : num; K : num;
  L_dias : num; MOQ : num; Multiplo : num; SL : num;
  Q_base : num; r_base : num
}.

(** The baseline rule of the select box, lines 969-977. *)
Inductive heuristica : Type :=
| Q0_demanda
| Q0_2x_demanda
| Q0_otimo_ajustado.

(** One entry of [results], lines 1112-1133 (the input columns echoed in
    the dictionary are kept in [origem]). *)
Record resultado : Type := {
  origem : linha;
  Q_otimo : num; r_otimo : num; SS_otimo : num;
  Q0_baseline : num; r0_baseline : num;
  custo_otimo : num; custo_baseline : num;
  economia_periodo : num; economia_anual : num; economia_pct : num
}.

(** A value that must be a float where [None] would make NumPy raise. *)
Definition float_of (q : option num) : exc num :=
  match q with
  | Some x => Val x
  | None => Raise TypeError
  end.

(** Baseline reorder point and safety stock, lines 1100-1103: returns
    [(r_base, SS_base)]. *)
Definition baseline_r_ss (rb_in mu_L z sigma_L : num) : num * num :=
  if negb (N.isnan rb_in) && (rb_in >? Fin 0)
  then (rb_in, N.pymax (Fin 0) (rb_in - mu_L))
  else (mu_L + z * sigma_L, z * sigma_L).

(** Savings, lines 1108-1110. *)
Definition economia (ctot_base ctot_opt periods_per_year : num)
  : exc (num * num * num) :=
  let economia_per :=
    if N.isfinite ctot_base && N.isfinite ctot_opt
    then ctot_base - ctot_opt else NaN in
  let economia_ano :=
    if N.isfinite economia_per then economia_per * periods_per_year else NaN in
  economia_pct <-
    (if N.isfinite ctot_base && (ctot_base >? Fin 0)
     then x <- truediv economia_per ctot_base ;; Val (x * Fin 100)
     else Val NaN) ;;
  Val (economia_per, economia_ano, economia_pct).

Section Avaliador.

(** [scipy.stats.norm.ppf]. *)
Variable norm_ppf : num -> num.

(** Engine-wide options read from the side bar, lines 958-977. *)
Variable base_key_multi : string.
Variable aplicar_restricoes : bool.
Variable heuristica_baseline : heuristica.

Definition periods_per_year_multi : num :=
  if String.eqb base_key_multi "mensal" then Fin 12 else Fin 52.

(** Body of the loop over the rows, lines 1077-1133. *)
Definition avalia_linha (r : linha) : exc resultado :=
  let D_per := D_per r in let sigma_per := sigma_per r in
  let v := v r in let i_anual := i_anual r in let K := K r in
  let L := L_dias r in let SL := SL r in
  let moq := MOQ r in let mult := Multiplo r in
  let Qb_in := Q_base r in let rb_in := r_base r in
  h_per <- truediv (i_anual * v) periods_per_year_multi ;;
  st <- lead_time_stats_from_base D_per sigma_per L base_key_multi ;;
  let '(mu_L, sigma_L, d_dia, sigma_d_dia) := st in
  p <- truediv SL (Fin 100) ;;
  let z := norm_ppf (np_clip p (Fin (1 / 100)) (Fin (999 / 1000))) in
  let SS_opt := z * sigma_L in
  let r_opt := mu_L + SS_opt in
  Q_opt_raw <- eoq (Some D_per) K h_per ;;
  Q_opt <- ajusta_por_moq_multiplo (Some Q_opt_raw)
             (if aplicar_restricoes then moq else Fin 0)
             (if aplicar_restricoes then mult else Fin 0) ;;
  Q_base <-
    (if negb (N.isnan Qb_in) && (Qb_in >? Fin 0) then Val (Some Qb_in)
     else match heuristica_baseline with
          | Q0_demanda => Val (Some D_per)
          | Q0_2x_demanda => Val (Some (Fin 2 * D_per))
          | Q0_otimo_ajustado =>
            ajusta_por_moq_multiplo (Some Q_opt_raw)
              (if aplicar_restricoes then moq else Fin 0)
              (if aplicar_restricoes then mult else Fin 0)
          end) ;;
  Q_base <-
    (if aplicar_restricoes then ajusta_por_moq_multiplo Q_base moq mult
     else Val Q_base) ;;
  let '(r_base, SS_base) := baseline_r_ss rb_in mu_L z sigma_L in
  co <- custos_periodicos Q_opt D_per K h_per SS_opt ;;
  cb <- custos_periodicos Q_base D_per K h_per SS_base ;;
  let '(cped_opt, cpos_opt, ctot_opt) := co in
  let '(cped_base, cpos_base, ctot_base) := cb in
  e <- economia ctot_base ctot_opt periods_per_year_multi ;;
  let '(economia_per, economia_ano, economia_pct) := e in
  Q_opt_f <- float_of Q_opt ;;
  Q_base_f <- float_of Q_base ;;
  Val {| origem := r;
         Q_otimo := np_round2 Q_opt_f;
         r_otimo := np_round2 r_opt;
         SS_otimo := np_round2 SS_opt;
         Q0_baseline := np_round2 Q_base_f;
         r0_baseline := np_round2 r_base;
         custo_otimo := np_round2 ctot_opt;
         custo_baseline := np_round2 ctot_base;
         economia_periodo := np_round2 economia_per;
         economia_anual := np_round2 economia_ano;
         economia_pct := np_round2 economia_pct |}.

(** The loop of lines 1075-1133: one entry per row, in row order; an
    exception in a row would abort the whole loop. *)
Fixpoint avalia_tabela (df : list linha) : exc (list resultado) :=
  match df with
  | [] => Val []
  | r :: rest =>
    x <- avalia_linha r ;;
    xs <- avalia_tabela rest ;;
    Val (x :: xs)
  end.

End Avaliador.

End MultiSKU.

(* ------------------------------------------------------------------ *)
(** ** Ranking, lines 1135-1143

    [df_out.sort_values(by=ordenar_por, ascending=False)] is the library
    routine of pandas; the model follows pandas' [nargsort]
    (pandas/core/sorting.py) with its defaults [kind="quicksort"] and
    [na_position="last"]: the NaN keys are set apart, the other keys are
    reversed, handed to NumPy's [argsort], the result is reversed again and
    the positions of the NaN keys are put at the end.  NumPy's [argsort] is
    a parameter: with the default kind it promises a sorting permutation and
    nothing about the order of equal keys. *)

Module Pandas.

Local Open Scope num_scope.

Section Ordenacao.

Variable argsort : list num -> list nat.

Definition nargsort (items : list num) (ascending : bool) : list nat :=
  let idx := seq 0 (List.length items) in
  let mask := fun i => N.isnan (nth i items NaN) in
  let non_nans := filter (fun v => negb (N.isnan v)) items in
  let non_nan_idx := filter (fun i => negb (mask i)) idx in
  let nan_idx := filter mask idx in
  let non_nans := if ascending then non_nans else rev non_nans in
  let non_nan_idx := if ascending then non_nan_idx else rev non_nan_idx in
  let indexer := map (fun j => nth j non_nan_idx 0%nat) (argsort non_nans) in
  let indexer := if ascending then indexer else rev indexer in
  indexer ++ nan_idx.

(** [df.take(indexer)]. *)
Fixpoint take {A : Type} (df : list A) (indexer : list nat) : exc (list A) :=
  match indexer with
  | [] => Val []
  | i :: rest =>
    match nth_error df i with
    | None => Raise IndexError
    | Some row => rows <- take df rest ;; Val (row :: rows)
    end
  end.

Definition sort_values {A : Type} (df : list A) (by_ : A -> num)
    (ascending : bool) : exc (list A) :=
  take df (nargsort (map by_ df) ascending).

End Ordenacao.

End Pandas.

(* ------------------------------------------------------------------ *)
(** ** NumPy's [argsort(kind="quicksort")]

    [sort_values] of line 1143 is called without [kind], so pandas hands
    the keys to [ndarray.argsort(kind="quicksort")].  This is NumPy's
    generic index sort [aquicksort_] of [npysort/quicksort.cpp]: a
    median-of-three quicksort on the array of positions, which finishes
    every stretch of at most 17 positions by insertion and falls back to
    [aheapsort_] once the depth limit is used up.  Positions are [Z], the
    array of positions is a list. *)

Module NumPy.

Local Open Scope Z_scope.

(** [Tag::less] for floating point keys: NaN sorts last. *)
Definition npy_less (a b : num) : bool :=
  N.ltb a b || (N.isnan b && negb (N.isnan a)).

Definition SMALL_QUICKSORT : Z := 16.

(** [npy_get_msb]. *)
Definition npy_get_msb (unum : Z) : Z := Z.log2 unum.

Section Argsort.

(** [less_at i j] is [Tag::less(v[i], v[j])]. *)
Variable less_at : nat -> nat -> bool.

Definition get (a : list nat) (p : Z) : nat := nth (Z.to_nat p) a 0%nat.

Fixpoint upd (a : list nat) (p : nat) (x : nat) : list nat :=
  match a, p with
  | [], _ => []
  | _ :: rest, O => x :: rest
  | y :: rest, S p' => y :: upd rest p' x
  end.

Definition set (a : list nat) (p : Z) (x : nat) : list nat :=
  if p <? 0 then a else upd a (Z.to_nat p) x.

(** [INTP_SWAP] of the positions [p] and [q]. *)
Definition swap (a : list nat) (p q : Z) : list nat :=
  set (set a p (get a q)) q (get a p).

(** [do { ++pi; } while (Tag::less(v[*pi], vp));] *)
Fixpoint sobe (fuel : nat) (a : list nat) (vp : nat) (pi : Z) : Z :=
  match fuel with
  | O => pi + 1
  | S f =>
    let pi := pi + 1 in
    if less_at (get a pi) vp then sobe f a vp pi else pi
  end.

(** [do { --pj; } while (Tag::less(vp, v[*pj]));] *)
Fixpoint desce (fuel : nat) (a : list nat) (vp : nat) (pj : Z) : Z :=
  match fuel with
  | O => pj - 1
  | S f =>
    let pj := pj - 1 in
    if less_at vp (get a pj) then desce f a vp pj else pj
  end.

(** The [for (;;)] of the partition. *)
Fixpoint troca (fuel : nat) (a : list nat) (vp : nat) (pi pj : Z)
  : list nat * Z :=
  match fuel with
  | O => (a, pi)
  | S f =>
    let pi := sobe (List.length a) a vp pi in
    let pj := desce (List.length a) a vp pj in
    if pi >=? pj then (a, pi) else troca f (swap a pi pj) vp pi pj
  end.

(** One partition of [pl..pr]: the array after it and the place [pi] of
    the pivot. *)
Definition particiona (a : list nat) (pl pr : Z) : list nat * Z :=
  let pm := pl + Z.shiftr (pr - pl) 1 in
  let a := if less_at (get a pm) (get a pl) then swap a pm pl else a in
  let a := if less_at (get a pr) (get a pm) then swap a pr pm else a in
  let a := if less_at (get a pm) (get a pl) then swap a pm pl else a in
  let vp := get a pm in
  let pi := pl in
  let pj := pr - 1 in
  let a := swap a pm pj in
  let '(a, pi) := troca (List.length a) a vp pi pj in
  let pk := pr - 1 in
  (swap a pi pk, pi).

(** [while ((pr - pl) > SMALL_QUICKSORT)], with the stack of the stretches
    put aside and of their depths. *)
Fixpoint particoes (fuel : nat) (a : list nat) (pl pr : Z)
    (stack : list (Z * Z * Z)) (cdepth : Z)
  : list nat * Z * Z * list (Z * Z * Z) * Z :=
  match fuel with
  | O => (a, pl, pr, stack, cdepth)
  | S f =>
    if pr - pl >? SMALL_QUICKSORT then
      let '(a, pi) := particiona a pl pr in
      let cdepth := cdepth - 1 in
      if pi - pl <? pr - pi
      then particoes f a pl (pi - 1) ((pi + 1, pr, cdepth) :: stack) cdepth
      else particoes f a (pi + 1) pr ((pl, pi - 1, cdepth) :: stack) cdepth
    else (a, pl, pr, stack, cdepth)
  end.

(** [while (pj > pl && Tag::less(vp, v[*pk])) { *pj-- = *pk--; }] *)
Fixpoint recua (fuel : nat) (a : list nat) (pl : Z) (vi : nat) (pj : Z)
  : list nat * Z :=
  match fuel with
  | O => (a, pj)
  | S f =>
    let pk := pj - 1 in
    if (pj >? pl) && less_at vi (get a pk)
    then recua f (set a pj (get a pk)) pl vi (pj - 1)
    else (a, pj)
  end.

(** The insertion sort of [pl..pr]. *)
Definition insertion (a : list nat) (pl pr : Z) : list nat :=
  fold_left
    (fun a pi =>
       let vi := get a pi in
       let '(a, pj) := recua (List.length a) a pl vi pi in
       set a pj vi)
    (map (fun k => pl + 1 + Z.of_nat k) (seq 0 (Z.to_nat (pr - pl))))
    a.

(** The sift of [aheapsort_]; [a[k]] there is position [base + k - 1]
    here. *)
Fixpoint sift (fuel : nat) (a : list nat) (base : Z) (tmp : nat) (i j n : Z)
  : list nat :=
  match fuel with
  | O => set a (base + i - 1) tmp
  | S f =>
    if j <=? n then
      let j :=
        if (j <? n)
           && less_at (get a (base + j - 1)) (get a (base + (j + 1) - 1))
        then j + 1 else j in
      if less_at tmp (get a (base + j - 1))
      then sift f (set a (base + i - 1) (get a (base + j - 1))) base tmp
             j (j + j) n
      else set a (base + i - 1) tmp
    else set a (base + i - 1) tmp
  end.

(** [aheapsort_(vv, pl, n)]. *)
Definition aheapsort (a : list nat) (base n : Z) : list nat :=
  let a :=
    fold_left
      (fun a l => sift (List.length a) a base (get a (base + l - 1)) l
                    (Z.shiftl l 1) n)
      (map (fun k => Z.shiftr n 1 - Z.of_nat k)
         (seq 0 (Z.to_nat (Z.shiftr n 1))))
      a in
  fold_left
    (fun a n =>
       let tmp := get a (base + n - 1) in
       let a := set a (base + n - 1) (get a (base + 1 - 1)) in
       let n := n - 1 in
       sift (List.length a) a base tmp 1 2 n)
    (map (fun k => n - Z.of_nat k) (seq 0 (Z.to_nat (n - 1))))
    a.

(** The [while (1)] of [aquicksort_]. *)
Fixpoint laco (fuel : nat) (a : list nat) (pl pr : Z)
    (stack : list (Z * Z * Z)) (cdepth : Z) : list nat :=
  match fuel with
  | O => a
  | S f =>
    let '(a, stack) :=
      if cdepth <? 0 then (aheapsort a pl (pr - pl + 1), stack)
      else
        let '(a, pl, pr, stack, _) :=
          particoes (List.length a) a pl pr stack cdepth in
        (insertion a pl pr, stack) in
    match stack with
    | [] => a
    | (pl, pr, cdepth) :: stack => laco f a pl pr stack cdepth
    end
  end.

(** [aquicksort_(vv, tosort, num)] on [tosort = 0, 1, ..., num - 1]. *)
Definition aquicksort (num : nat) : list nat :=
  let tosort := seq 0 num in
  laco (S num) tosort 0 (Z.of_nat num - 1) []
    (npy_get_msb (Z.of_nat num) * 2).

End Argsort.

(** [v.argsort(kind="quicksort")] for a one-dimensional array of floats. *)
Definition argsort (v : list num) : list nat :=
  aquicksort
    (fun i j =>
       match nth_error v i, nth_error v j with
       | Some a, Some b => npy_less a b
       | _, _ => false
       end)
    (List.length v).

End NumPy.

Module Ranking.

Import MultiSKU.

(** The options of the select box of lines 1138-1142. *)
Inductive campo : Type :=
| Economia_periodo
| Economia_anual
| Economia_pct.

Definition valor (c : campo) (x : resultado) : num :=
  match c with
  | Economia_periodo => economia_periodo x
  | Economia_anual => economia_anual x
  | Economia_pct => economia_pct x
  end.

Section Ranking.

Variable argsort : list num -> list nat.
Variable norm_ppf : num -> num.
Variable base_key_multi : string.
Variable aplicar_restricoes : bool.
Variable heuristica_baseline : heuristica.

(** Line 1143; [reset_index(drop=True)] renumbers the rows and leaves
    their order. *)
Definition df_rank_de (ordenar_por : campo) (df_out : list resultado)
  : exc (list resultado) :=
  Pandas.sort_values argsort df_out (valor ordenar_por) false.

(** Lines 1075-1143: from the table of SKUs to the ranking. *)
Definition df_rank (ordenar_por : campo) (df : list linha) : exc (list resultado) :=
  df_out <- avalia_tabela norm_ppf base_key_multi aplicar_restricoes
              heuristica_baseline df ;;
  df_rank_de ordenar_por df_out.

End Ranking.

End Ranking.

(* ------------------------------------------------------------------ *)
(** ** Saw-tooth simulator, lines 167-224

    The simulator is only called with finite numbers (line 605 replaces a
    non-finite [Q_opt] by the baseline lot; demand, reorder point and lead
    time come from bounded inputs), so its quantities are real numbers here.
    Days and the lead time are Python integers. *)

Module Simulador.

Local Open Scope Z_scope.

(** [range(a, b)]. *)
Definition py_range (a b : Z) : list Z :=
  map (fun i => a + Z.of_nat i) (seq 0 (Z.to_nat (b - a))).

(** [sum(l)] of floats. *)
Definition py_sum (l : list R) : R := fold_left Rplus l 0%R.

(** [max(0.0, z)] on reals. *)
Definition pymax0 (z : R) : R := if Rltb 0 z then z else 0%R.

(** The local variables of the function. *)
Record estado (rng : Type) : Type := {
  on_hand : R;
  pending : list (Z * R);
  x : list Z;
  y_onhand : list R;
  y_pos : list R;
  order_times : list Z;
  arrival_times : list Z;
  stockout_days : Z;
  gen : rng
}.
Arguments on_hand {rng} _.
Arguments pending {rng} _.
Arguments x {rng} _.
Arguments y_onhand {rng} _.
Arguments y_pos {rng} _.
Arguments order_times {rng} _.
Arguments arrival_times {rng} _.
Arguments stockout_days {rng} _.
Arguments gen {rng} _.

(** The returned tuple
    [(x, y_onhand, y_pos, order_times, arrival_times, stockout_days)]. *)
Definition saida : Type :=
  (list Z * list R * list R * list Z * list Z * Z)%type.

Definition retorno {rng : Type} (s : estado rng) : saida :=
  (x s, y_onhand s, y_pos s, order_times s, arrival_times s, stockout_days s).

Section Passos.

Context {rng : Type}.

Variables (Q r d_dia : R) (L : Z) (sigma_d_dia : R) (clamp_zero : bool).

(** Lines 181-193. *)
Definition inicio (start_mode : string) (g : rng) : estado rng :=
  let '(on_hand0, pending0) :=
    if String.eqb start_mode "steady" then (r, [(L, Q)]) else (Q, []) in
  {| on_hand := on_hand0; pending := pending0;
     x := [0]; y_onhand := [on_hand0]; y_pos := [on_hand0];
     order_times := []; arrival_times := []; stockout_days := 0;
     gen := g |}.

(** Step 1 of day [t], lines 197-202: shipments due today. *)
Definition chegadas (t : Z) (s : estado rng) : estado rng :=
  match pending s with
  | [] => s
  | _ :: _ =>
    let arrived := map snd (filter (fun p => fst p =? t) (pending s)) in
    match arrived with
    | [] => s
    | _ :: _ =>
      {| on_hand := on_hand s + py_sum arrived;
         pending := filter (fun p => negb (fst p =? t)) (pending s);
         x := x s; y_onhand := y_onhand s; y_pos := y_pos s;
         order_times := order_times s;
         arrival_times := arrival_times s ++ [t];
         stockout_days := stockout_days s;
         gen := gen s |}
    end
  end.

(** Steps 2-4 of day [t], lines 206-222, once the demand of the day and
    the generator left by its draw are known. *)
Definition consumo_e_pedido (t : Z) (demand : R) (g' : rng) (s : estado rng)
  : estado rng :=
  let on_hand1 := (on_hand s - demand)%R in
  let '(on_hand2, stockout2) :=
    if clamp_zero && Rltb on_hand1 0
    then (0%R, stockout_days s + 1) else (on_hand1, stockout_days s) in
  let on_order :=
    match pending s with
    | [] => 0%R
    | _ :: _ => py_sum (map snd (pending s))
    end in
  let position := (on_hand2 + on_order)%R in
  let '(pending2, order_times2) :=
    if Rleb position r
    then (pending s ++ [(t + L, Q)], order_times s ++ [t])
    else (pending s, order_times s) in
  {| on_hand := on_hand2; pending := pending2;
     x := x s ++ [t];
     y_onhand := y_onhand s ++ [on_hand2];
     y_pos := y_pos s ++ [position];
     order_times := order_times2;
     arrival_times := arrival_times s;
     stockout_days := stockout2;
     gen := g' |}.

Section Funcional.

(** [rng.normal(loc, scale)]: the drawn value and the advanced generator. *)
Variable rng_normal : rng -> R -> R -> R * rng.

(** Line 205: the demand of the day. *)
Definition demanda (g : rng) : R * rng :=
  if Rleb sigma_d_dia 0 then (d_dia, g)
  else let '(z, g') := rng_normal g d_dia sigma_d_dia in (pymax0 z, g').

(** One iteration of the loop, lines 196-222. *)
Definition dia (t : Z) (s : estado rng) : estado rng :=
  let s1 := chegadas t s in
  let '(demand, g') := demanda (gen s1) in
  consumo_e_pedido t demand g' s1.

Definition laco (days : list Z) (s : estado rng) : estado rng :=
  fold_left (fun s t => dia t s) days s.

(** The states in which each day of [days] starts, paired with the day. *)
Fixpoint historico (days : list Z) (s : estado rng) : list (Z * estado rng) :=
  match days with
  | [] => []
  | t :: rest => (t, s) :: historico rest (dia t s)
  end.

End Funcional.

End Passos.

Section Simulador.

Context {rng : Type}.

(** [np.random.default_rng(seed)] and [rng.normal]. *)
Variable default_rng : Z -> rng.
Variable rng_normal : rng -> R -> R -> R * rng.

Definition estado_final (Q r d_dia : R) (L : Z) (sigma_d_dia : R) (T seed : Z)
    (clamp_zero : bool) (start_mode : string) : estado rng :=
  laco Q r d_dia L sigma_d_dia clamp_zero rng_normal
       (py_range 1 (T + 1)) (inicio Q r L start_mode (default_rng seed)).

(** [sim_serrilhado_com_leadtime], lines 167-224. *)
Definition sim_serrilhado_com_leadtime (Q r d_dia : R) (L : Z) (sigma_d_dia : R)
    (T seed : Z) (clamp_zero : bool) (start_mode : string) : saida :=
  retorno (estado_final Q r d_dia L sigma_d_dia T seed clamp_zero start_mode).

End Simulador.

(** The same procedure as a relation between the call and what it may
    return, with the generator described by relations: [semeia seed g] when
    [default_rng(seed)] may be the generator [g], and
    [sorteia g loc scale z g'] when a draw from [g] may give [z] and leave
    the generator [g']. *)
Section Relacional.

Context {rng : Type}.

Variable semeia : Z -> rng -> Prop.
Variable sorteia : rng -> R -> R -> R -> rng -> Prop.

Variables (Q r d_dia : R) (L : Z) (sigma_d_dia : R) (clamp_zero : bool).

(** Line 205. *)
Inductive demanda_rel (g : rng) : R -> rng -> Prop :=
| demanda_fixa :
    Rleb sigma_d_dia 0 = true -> demanda_rel g d_dia g
| demanda_sorteada (z : R) (g' : rng) :
    Rleb sigma_d_dia 0 = false -> sorteia g d_dia sigma_d_dia z g' ->
    demanda_rel g (pymax0 z) g'.

(** Lines 196-222. *)
Inductive dia_rel (t : Z) (s : estado rng) : estado rng -> Prop :=
| dia_rel_intro (demand : R) (g' : rng) :
    demanda_rel (gen (chegadas t s)) demand g' ->
    dia_rel t s (consumo_e_pedido Q r L clamp_zero t demand g' (chegadas t s)).

(** Line 195. *)
Inductive laco_rel : list Z -> estado rng -> estado rng -> Prop :=
| laco_rel_nil (s : estado rng) : laco_rel [] s s
| laco_rel_cons (t : Z) (days : list Z) (s s1 s2 : estado rng) :
    dia_rel t s s1 -> laco_rel days s1 s2 -> laco_rel (t :: days) s s2.

(** Lines 167-224. *)
Inductive sim_rel (T seed : Z) (start_mode : string) : saida -> Prop :=
| sim_rel_intro (g : rng) (s : estado rng) :
    semeia seed g ->
    laco_rel (py_range 1 (T + 1)) (inicio Q r L start_mode g) s ->
    sim_rel T seed start_mode (retorno s).

End Relacional.

End Simulador.

(* ------------------------------------------------------------------ *)
(** * Properties *)

(** ** Deciding comparisons of reals *)

Lemma Rltb_true (x y : R) : (x < y)%R -> Rltb x y = true.
Proof. intros H; unfold Rltb; destruct (Rlt_dec x y); [reflexivity | contradiction]. Qed.

Lemma Rltb_false (x y : R) : (y <= x)%R -> Rltb x y = false.
Proof. intros H; unfold Rltb; destruct (Rlt_dec x y); [lra | reflexivity]. Qed.

Lemma Rleb_true (x y : R) : (x <= y)%R -> Rleb x y = true.
Proof. intros H; unfold Rleb; destruct (Rle_dec x y); [reflexivity | contradiction]. Qed.

Lemma Rleb_false (x y : R) : (y < x)%R -> Rleb x y = false.
Proof. intros H; unfold Rleb; destruct (Rle_dec x y); [lra | reflexivity]. Qed.

Lemma Reqb_true (x y : R) : x = y -> Reqb x y = true.
Proof. intros H; unfold Reqb; destruct (Req_dec_T x y); [reflexivity | contradiction]. Qed.

Lemma Reqb_false (x y : R) : x <> y -> Reqb x y = false.
Proof. intros H; unfold Reqb; destruct (Req_dec_T x y); [contradiction | reflexivity]. Qed.

Lemma Rltb_false_inv (x y : R) : Rltb x y = false -> (y <= x)%R.
Proof. unfold Rltb; destruct (Rlt_dec x y); [discriminate | lra]. Qed.

Lemma Rleb_false_inv (x y : R) : Rleb x y = false -> (y < x)%R.
Proof. unfold Rleb; destruct (Rle_dec x y); [discriminate | lra]. Qed.

Lemma Rltb_spec (x y : R) : Rltb x y = true <-> (x < y)%R.
Proof. unfold Rltb; destruct (Rlt_dec x y); split; intros; try easy. Qed.

Lemma Rleb_spec (x y : R) : Rleb x y = true <-> (x <= y)%R.
Proof. unfold Rleb; destruct (Rle_dec x y); split; intros; try easy. Qed.

(** Settles every comparison of reals in the goal that [lra] can decide. *)
Ltac rdec :=
  repeat match goal with
  | |- context [Rltb ?a ?b] =>
    first [rewrite (Rltb_true a b) by lra | rewrite (Rltb_false a b) by lra]
  | |- context [Rleb ?a ?b] =>
    first [rewrite (Rleb_true a b) by lra | rewrite (Rleb_false a b) by lra]
  | |- context [Reqb ?a ?b] =>
    first [rewrite (Reqb_true a b) by lra | rewrite (Reqb_false a b) by lra]
  end.

(** Splits on every comparison of reals in the goal. *)
Ltac rcases :=
  unfold Rltb, Rleb, Reqb in *;
  repeat match goal with
  | |- context [Rlt_dec ?a ?b] => destruct (Rlt_dec a b)
  | |- context [Rle_dec ?a ?b] => destruct (Rle_dec a b)
  | |- context [Req_dec_T ?a ?b] => destruct (Req_dec_T a b)
  | H : context [Rlt_dec ?a ?b] |- _ => destruct (Rlt_dec a b)
  | H : context [Rle_dec ?a ?b] |- _ => destruct (Rle_dec a b)
  | H : context [Req_dec_T ?a ?b] |- _ => destruct (Req_dec_T a b)
  end.

(** Case analysis on every comparison met while evaluating float
    arithmetic. *)
Ltac ncases :=
  repeat (progress (simpl in *; unfold N.inf_signed, N.gtb, N.geb in *; rcases)).

(** ** The cost model *)

Module CalcProps.

Import Calc.
Local Open Scope num_scope.

(** Total cost per period of a lot [Q] without safety stock, read off the
    third component of [custos_periodicos]. *)
Definition custo_total (Q D_per K h_per : num) : num :=
  match custos_periodicos (Some Q) D_per K h_per (Fin 0) with
  | Val (_, _, c_tot) => c_tot
  | Raise _ => NaN
  end.

(** [q] minimises the cost per period over the positive lots. *)
Definition minimiza_custo (D K h : R) (q : num) : Prop :=
  exists qr c : R,
    q = Fin qr /\ (0 < qr)%R /\
    custo_total (Fin qr) (Fin D) (Fin K) (Fin h) = Fin c /\
    forall Q cQ : R, (0 < Q)%R ->
      custo_total (Fin Q) (Fin D) (Fin K) (Fin h) = Fin cQ -> (c <= cQ)%R.

Lemma custo_total_fin (Q D K h : R) :
  (0 < Q)%R -> (0 < D)%R -> (0 <= K)%R -> (0 <= h)%R ->
  custo_total (Fin Q) (Fin D) (Fin K) (Fin h)
  = Fin (K * D / Q + h * (Q / 2 + 0)).
Proof.
  intros HQ HD HK Hh.
  unfold custo_total, custos_periodicos, truediv, N.pymax; simpl.
  rdec; simpl. rdec. reflexivity.
Qed.

Lemma eoq_fin (D K h : R) :
  (0 < D)%R -> (0 <= K)%R -> (0 < h)%R ->
  eoq (Fin D) (Fin K) (Fin h) = Val (Fin (sqrt (2 * K * D / h))).
Proof.
  intros HD HK Hh.
  unfold eoq, truediv; simpl. rdec; simpl. rdec; simpl.
  assert (0 <= 2 * K * D / h)%R.
  { apply Rmult_le_pos; [nra | left; apply Rinv_0_lt_compat; lra]. }
  rdec. reflexivity.
Qed.

(** The arithmetic-geometric mean inequality behind the EOQ formula. *)
Lemma eoq_am_gm (D K h Q : R) :
  (0 < D)%R -> (0 < K)%R -> (0 < h)%R -> (0 < Q)%R ->
  (K * D / sqrt (2 * K * D / h) + h * (sqrt (2 * K * D / h) / 2 + 0)
   <= K * D / Q + h * (Q / 2 + 0))%R.
Proof.
  intros HD HK Hh HQ.
  set (a := (2 * K * D / h)%R).
  assert (Ha : (0 < a)%R).
  { unfold a. apply Rmult_lt_0_compat; [nra | apply Rinv_0_lt_compat; lra]. }
  set (q := sqrt a).
  assert (Hq : (0 < q)%R) by (apply sqrt_lt_R0; exact Ha).
  assert (Hqq : (q * q = a)%R) by (apply sqrt_sqrt; lra).
  assert (HKD : (K * D = h * a / 2)%R) by (unfold a; field; lra).
  rewrite HKD.
  replace (h * a / 2 / q)%R with (h * q / 2)%R by (rewrite <- Hqq; field; lra).
  replace (h * a / 2 / Q)%R with (h / 2 * (a / Q))%R by (field; lra).
  assert (Hkey : (2 * q <= a / Q + Q)%R).
  { apply Rmult_le_reg_r with Q; [lra |].
    replace ((a / Q + Q) * Q)%R with (a + Q * Q)%R by (field; lra).
    pose proof (Rle_0_sqr (q - Q)) as Hsq. unfold Rsqr in Hsq.
    clearbody q a. nra. }
  clearbody q a. set (b := (a / Q)%R) in *. clearbody b. nra.
Qed.

(** C1 (as amended).  [eoq] never raises: it returns
    [sqrt(2*K*D/h)] when [D > 0], [K >= 0] and [h > 0], and NaN in every
    other case; for real [D > 0], [h > 0] and a strictly positive order
    cost [K > 0] the returned lot is positive and minimises the cost per
    period [K*D/Q + h*Q/2] over the lots [Q > 0]. *)
Theorem eoq_spec :
  (forall D K h : num,
      (D >? Fin 0) && (K >=? Fin 0) && (h >? Fin 0) = true ->
      eoq D K h = Val (N.np_sqrt (N.div (Fin 2 * K * D) h)))
  /\ (forall D K h : num,
      (D >? Fin 0) && (K >=? Fin 0) && (h >? Fin 0) = false ->
      eoq D K h = Val NaN)
  /\ (forall D K h : R, (0 < D)%R -> (0 < K)%R -> (0 < h)%R ->
      eoq (Fin D) (Fin K) (Fin h) = Val (Fin (sqrt (2 * K * D / h)))
      /\ minimiza_custo D K h (Fin (sqrt (2 * K * D / h)))).
Proof.
  split; [| split].
  - intros D K h H.
    apply andb_true_iff in H as [H Hh]. apply andb_true_iff in H as [HD HK].
    unfold eoq, truediv.
    destruct D as [| | |d], K as [| | |k], h as [| | |hh];
      simpl in *; try discriminate;
      ncases; try discriminate; try reflexivity; try lra.
  - intros D K h H.
    unfold eoq, truediv.
    destruct D as [| | |d], K as [| | |k], h as [| | |hh];
      simpl in *; try discriminate; try reflexivity;
      ncases; try discriminate; try reflexivity; try lra.
  - intros D K h HD HK Hh. split; [apply eoq_fin; lra |].
    assert (Hq : (0 < sqrt (2 * K * D / h))%R).
    { apply sqrt_lt_R0. apply Rmult_lt_0_compat; [nra | apply Rinv_0_lt_compat; lra]. }
    exists (sqrt (2 * K * D / h)), (K * D / sqrt (2 * K * D / h)
             + h * (sqrt (2 * K * D / h) / 2 + 0))%R.
    split; [reflexivity | split; [exact Hq | split]].
    + apply custo_total_fin; lra.
    + intros Q cQ HQ HcQ.
      rewrite custo_total_fin in HcQ by lra. injection HcQ as <-.
      apply eoq_am_gm; assumption.
Qed.

(** With a zero order cost the preconditions of C1 hold, the returned lot
    is zero, and zero is not a lot over which the cost is defined. *)
Lemma eoq_K_zero_counterexample :
  (Fin 1 >? Fin 0) && (Fin 0 >=? Fin 0) && (Fin 1 >? Fin 0) = true
  /\ eoq (Fin 1) (Fin 0) (Fin 1) = Val (Fin 0)
  /\ custo_total (Fin 0) (Fin 1) (Fin 0) (Fin 1) = NaN
  /\ ~ (exists q, eoq (Fin 1) (Fin 0) (Fin 1) = Val q /\ minimiza_custo 1 0 1 q).
Proof.
  assert (E : eoq (Fin 1) (Fin 0) (Fin 1) = Val (Fin 0)).
  { rewrite eoq_fin by lra. do 2 f_equal.
    replace (2 * 0 * 1 / 1)%R with 0%R by field. apply sqrt_0. }
  split; [| split; [exact E | split]].
  - simpl. unfold N.gtb, N.geb; simpl. rdec. reflexivity.
  - unfold custo_total, custos_periodicos; simpl. rdec. reflexivity.
  - intros (q & Hq & qr & c & Hfin & Hpos & _).
    rewrite E in Hq. injection Hq as <-. injection Hfin as Hfin. lra.
Qed.

End CalcProps.

(** ** Periodic costs *)

Module CustosProps.

Import Calc.
Local Open Scope num_scope.

(** The guard of line 136 on a lot that is not [None]. *)
Definition guarda (Q D_per K h_per : num) : bool :=
  (Q <=? Fin 0) || (D_per <=? Fin 0) || (h_per <? Fin 0) || (K <? Fin 0).

(** C2 (as amended).  [custos_periodicos] never raises and its third
    component is always the sum of the first two.  It returns
    [(K*D/Q, h*(Q/2 + max(0,SS)), sum)] when [Q > 0], [D > 0], [h >= 0] and
    [K >= 0]; it returns three NaN when [Q] is [None] or [Q <= 0] or
    [D <= 0] or [h < 0] or [K < 0]; and when [Q], [D], [K] and [h] are real
    numbers it returns three NaN in those cases only. *)
Theorem custos_periodicos_spec :
  (forall Q D K h SS,
      exists c_ped c_pos,
        custos_periodicos Q D K h SS = Val (c_ped, c_pos, c_ped + c_pos))
  /\ (forall Q D K h SS,
      (Q >? Fin 0) && (D >? Fin 0) && (h >=? Fin 0) && (K >=? Fin 0) = true ->
      custos_periodicos (Some Q) D K h SS
      = Val (N.div (K * D) Q,
             h * (N.div Q (Fin 2) + N.pymax (Fin 0) SS),
             N.div (K * D) Q + h * (N.div Q (Fin 2) + N.pymax (Fin 0) SS)))
  /\ (forall D K h SS, custos_periodicos None D K h SS = Val (NaN, NaN, NaN))
  /\ (forall Q D K h SS, guarda Q D K h = true ->
      custos_periodicos (Some Q) D K h SS = Val (NaN, NaN, NaN))
  /\ (forall (Q D K h : R) SS,
      custos_periodicos (Some (Fin Q)) (Fin D) (Fin K) (Fin h) SS
        = Val (NaN, NaN, NaN) ->
      guarda (Fin Q) (Fin D) (Fin K) (Fin h) = true).
Proof.
  split; [| split; [| split; [| split]]].
  - intros [Q|] D K h SS; unfold custos_periodicos; [| exists NaN, NaN; reflexivity].
    destruct ((Q <=? Fin 0) || (D <=? Fin 0) || (h <? Fin 0) || (K <? Fin 0)) eqn:G;
      [exists NaN, NaN; reflexivity |].
    apply orb_false_iff in G as [G _]. apply orb_false_iff in G as [G _].
    apply orb_false_iff in G as [G _].
    unfold truediv. rewrite (Reqb_false 2 0) by lra.
    destruct Q as [| | |q]; simpl; try (eexists; eexists; reflexivity).
    simpl in G. rcases; try discriminate; try lra.
    simpl. eexists; eexists; reflexivity.
  - intros Q D K h SS H.
    apply andb_true_iff in H as [H HK]. apply andb_true_iff in H as [H Hh].
    apply andb_true_iff in H as [HQ HD].
    unfold custos_periodicos, truediv.
    rewrite (Reqb_false 2 0) by lra.
    destruct Q as [| | |q], D as [| | |d], K as [| | |k], h as [| | |hh];
      simpl in *; try discriminate;
      ncases; try discriminate; try reflexivity; try lra.
  - reflexivity.
  - intros Q D K h SS G. unfold custos_periodicos. unfold guarda in G.
    rewrite G. reflexivity.
  - intros Q D K h SS H. unfold guarda.
    unfold custos_periodicos in H.
    destruct ((Fin Q <=? Fin 0) || (Fin D <=? Fin 0) || (Fin h <? Fin 0)
              || (Fin K <? Fin 0)) eqn:G; [reflexivity |].
    exfalso. unfold truediv in H.
    simpl in G. apply orb_false_iff in G as [G _]. apply orb_false_iff in G as [G _].
    apply orb_false_iff in G as [G _].
    assert (Q <> 0%R) by (intros ->; rewrite Rleb_true in G by lra; discriminate).
    rewrite (Reqb_false Q 0) in H by assumption.
    simpl in H. rewrite (Reqb_false Q 0) in H by assumption.
    rewrite (Reqb_false 2 0) in H by lra. simpl in H.
    discriminate.
Qed.

(** Blank cost cells: order cost and holding cost are NaN, the lot and the
    demand are positive numbers.  None of the guard conditions holds, yet
    three NaN come back. *)
Lemma custos_nan_counterexample :
  guarda (Fin 1) (Fin 1) NaN NaN = false
  /\ custos_periodicos (Some (Fin 1)) (Fin 1) NaN NaN (Fin 0) = Val (NaN, NaN, NaN).
Proof.
  split.
  - unfold guarda; simpl. rdec. reflexivity.
  - unfold custos_periodicos, truediv; simpl. rdec. reflexivity.
Qed.

End CustosProps.

(** ** Minimum order and lot multiple *)

Module AjustaProps.

Import Calc.
Local Open Scope num_scope.

Lemma Int_part_IZR (n : Z) : Int_part (IZR n) = n.
Proof. symmetry. apply Int_part_spec. lra. Qed.

Lemma Rceil_IZR (n : Z) : N.Rceil (IZR n) = IZR n.
Proof.
  unfold N.Rceil. rewrite <- opp_IZR, Int_part_IZR. f_equal. lia.
Qed.

Lemma Rceil_ge (x : R) : (x <= N.Rceil x)%R.
Proof.
  unfold N.Rceil. rewrite opp_IZR.
  destruct (base_Int_part (- x)) as [H _]. lra.
Qed.

Lemma Rceil_lt (x : R) : (N.Rceil x < x + 1)%R.
Proof.
  unfold N.Rceil. rewrite opp_IZR.
  destruct (base_Int_part (- x)) as [_ H]. lra.
Qed.

(** The adjustment on real numbers: what lines 160-165 compute when
    nothing is NaN. *)
Definition ajusta_real (q moq mult : R) : R :=
  let q_adj := if Rltb 0 moq && Rltb q moq then moq else q in
  if Rltb 0 mult then (mult * N.Rceil (q_adj / mult))%R else q_adj.

Lemma ajusta_fin (q moq mult : R) :
  ajusta_por_moq_multiplo (Some (Fin q)) (Fin moq) (Fin mult)
  = Val (Some (Fin (ajusta_real q moq mult))).
Proof.
  unfold ajusta_por_moq_multiplo, ajusta_real, truediv, N.gtb; simpl.
  ncases; try reflexivity; try lra.
Qed.

Lemma ajusta_real_ge_moq (q moq mult : R) :
  (0 <= mult)%R -> (0 < moq)%R -> (moq <= ajusta_real q moq mult)%R.
Proof.
  intros Hmult Hmoq. unfold ajusta_real.
  rewrite (Rltb_true 0 moq) by lra. simpl.
  assert (Hq : (moq <= (if Rltb q moq then moq else q))%R).
  { destruct (Rltb q moq) eqn:E; [lra |].
    unfold Rltb in E. destruct (Rlt_dec q moq); [discriminate | lra]. }
  set (q_adj := if Rltb q moq then moq else q) in *. clearbody q_adj.
  destruct (Rltb 0 mult) eqn:E; [| exact Hq].
  apply Rltb_spec in E.
  pose proof (Rceil_ge (q_adj / mult)) as Hc.
  apply Rle_trans with q_adj; [exact Hq |].
  replace q_adj with (mult * (q_adj / mult))%R at 1 by (field; lra).
  apply Rmult_le_compat_l; lra.
Qed.

Lemma ajusta_real_multiple (q moq mult : R) :
  (0 < mult)%R -> exists n : Z, ajusta_real q moq mult = (mult * IZR n)%R.
Proof.
  intros Hmult. unfold ajusta_real. rewrite (Rltb_true 0 mult) by lra.
  unfold N.Rceil. eexists. reflexivity.
Qed.

Lemma ajusta_real_idem (q moq mult : R) :
  (0 <= moq)%R -> (0 <= mult)%R ->
  ajusta_real (ajusta_real q moq mult) moq mult = ajusta_real q moq mult.
Proof.
  intros Hmoq Hmult.
  set (q1 := ajusta_real q moq mult).
  assert (Hstay : (if Rltb 0 moq && Rltb q1 moq then moq else q1) = q1).
  { destruct (Rltb 0 moq) eqn:E; [| reflexivity]. apply Rltb_spec in E.
    pose proof (ajusta_real_ge_moq q moq mult Hmult E) as Hge. fold q1 in Hge.
    rewrite (Rltb_false q1 moq) by lra. reflexivity. }
  unfold ajusta_real at 1. rewrite Hstay.
  destruct (Rltb 0 mult) eqn:E; [| reflexivity]. apply Rltb_spec in E.
  destruct (ajusta_real_multiple q moq mult E) as [n Hn]. fold q1 in Hn.
  rewrite Hn. replace (mult * IZR n / mult)%R with (IZR n) by (field; lra).
  rewrite Rceil_IZR. reflexivity.
Qed.

(** C3 (as amended).  In exact arithmetic, for every real [q] and every
    [moq >= 0] and [mult >= 0]: the adjustment returns a number, applying
    it to its own result changes nothing, the result is at least [moq]
    when [moq > 0] and is an integer multiple of [mult] when [mult > 0]. *)
Theorem ajusta_por_moq_multiplo_idempotent (q moq mult : R) :
  (0 <= moq)%R -> (0 <= mult)%R ->
  exists q1 : R,
    ajusta_por_moq_multiplo (Some (Fin q)) (Fin moq) (Fin mult) = Val (Some (Fin q1))
    /\ ajusta_por_moq_multiplo (Some (Fin q1)) (Fin moq) (Fin mult)
       = Val (Some (Fin q1))
    /\ ((0 < moq)%R -> (moq <= q1)%R)
    /\ ((0 < mult)%R -> exists n : Z, q1 = (mult * IZR n)%R).
Proof.
  intros Hmoq Hmult. exists (ajusta_real q moq mult).
  split; [apply ajusta_fin |]. split; [| split].
  - rewrite ajusta_fin, ajusta_real_idem by assumption. reflexivity.
  - intros H. apply ajusta_real_ge_moq; assumption.
  - intros H. apply ajusta_real_multiple; assumption.
Qed.

Lemma ajusta_por_moq_multiplo_idempotent_witness :
  exists q1 : R,
    ajusta_por_moq_multiplo (Some (Fin 9116)) (Fin 1000) (Fin 250) = Val (Some (Fin q1))
    /\ ajusta_por_moq_multiplo (Some (Fin q1)) (Fin 1000) (Fin 250)
       = Val (Some (Fin q1))
    /\ ((0 < 1000)%R -> (1000 <= q1)%R)
    /\ ((0 < 250)%R -> exists n : Z, q1 = (250 * IZR n)%R).
Proof.
  apply (ajusta_por_moq_multiplo_idempotent 9116 1000 250); lra.
Defined.

(** The copy of lines 1049-1054 is the same function. *)
Lemma ajusta_multi_sku_eq :
  MultiSKU.ajusta_por_moq_multiplo = Calc.ajusta_por_moq_multiplo.
Proof. reflexivity. Qed.

End AjustaProps.

(** ** Baseline safety stock *)

Module BaselineProps.

Local Open Scope num_scope.




End BaselineProps.

(** ** Savings *)

Module EconomiaProps.

Import Calc Calculadora.
Local Open Scope num_scope.

Lemma add_fin_inv (a b : num) (c : R) :
  a + b = Fin c -> exists x y : R, a = Fin x /\ b = Fin y /\ c = (x + y)%R.
Proof.
  destruct a as [| | |x], b as [| | |y]; simpl; try discriminate.
  intros [= <-]. exists x, y. auto.
Qed.

Lemma mul_fin_inv (a b : num) (c : R) :
  a * b = Fin c -> exists x y : R, a = Fin x /\ b = Fin y /\ c = (x * y)%R.
Proof.
  destruct a as [| | |x], b as [| | |y]; simpl; try discriminate;
    unfold N.inf_signed; rcases; try discriminate.
  intros [= <-]. exists x, y. auto.
Qed.

Lemma pymax0_cases (a : num) :
  N.pymax (Fin 0) a = PInf
  \/ exists m : R, N.pymax (Fin 0) a = Fin m /\ (0 <= m)%R.
Proof.
  unfold N.pymax, N.gtb. destruct a as [| | |y]; simpl.
  - right. exists 0%R. split; [reflexivity | lra].
  - left. reflexivity.
  - right. exists 0%R. split; [reflexivity | lra].
  - right. destruct (Rltb 0 y) eqn:E.
    + apply Rltb_spec in E. exists y. split; [reflexivity | lra].
    + exists 0%R. split; [reflexivity | lra].
Qed.

(** A finite total cost only comes out of a positive real lot, a positive
    real demand and real costs that are not negative. *)
Lemma custos_finite_inv (Q : option num) (D K h SS a b : num) (c : R) :
  custos_periodicos Q D K h SS = Val (a, b, Fin c) ->
  exists q d k hh m : R,
    Q = Some (Fin q) /\ D = Fin d /\ K = Fin k /\ h = Fin hh
    /\ (0 < q)%R /\ (0 < d)%R /\ (0 <= k)%R /\ (0 <= hh)%R /\ (0 <= m)%R
    /\ c = (k * d / q + hh * (q / 2 + m))%R.
Proof.
  unfold custos_periodicos. destruct Q as [Q|]; [| discriminate].
  destruct ((Q <=? Fin 0) || (D <=? Fin 0) || (h <? Fin 0) || (K <? Fin 0)) eqn:G;
    [discriminate |].
  apply orb_false_iff in G as [G GK]. apply orb_false_iff in G as [G Gh].
  apply orb_false_iff in G as [GQ GD].
  unfold truediv. rewrite (Reqb_false 2 0) by lra.
  destruct Q as [| | |q].
  - simpl. intros [= Ha Hb Hc]. subst a b.
    apply add_fin_inv in Hc as (x & y & Hx & _).
    destruct (K * D); simpl in Hx; discriminate.
  - simpl. rewrite (Rltb_false 2 0) by lra. intros [= Ha Hb Hc]. subst a b.
    apply add_fin_inv in Hc as (x & y & _ & Hy & _).
    apply mul_fin_inv in Hy as (x1 & y1 & _ & Hy1 & _).
    destruct (N.pymax (Fin 0) SS); simpl in Hy1; discriminate.
  - simpl in GQ. discriminate.
  - simpl in GQ. unfold Rleb in GQ. destruct (Rle_dec q 0); [discriminate |].
    rewrite (Reqb_false q 0) by lra. simpl.
    rewrite (Reqb_false 2 0) by lra.
    intros [= Ha Hb Hc]. subst a b.
    apply add_fin_inv in Hc as (x & y & Hx & Hy & ->).
    apply mul_fin_inv in Hy as (hh & y1 & -> & Hy1 & ->).
    destruct (pymax0_cases SS) as [E | (m & E & Hm)]; rewrite E in Hy1;
      simpl in Hy1; [discriminate |]. injection Hy1 as <-.
    destruct (K * D) as [| | |kd] eqn:EKD; simpl in Hx; try discriminate.
    + destruct (Rltb q 0); discriminate.
    + destruct (Rltb q 0); discriminate.
    + rewrite (Reqb_false q 0) in Hx by lra. injection Hx as <-.
      apply mul_fin_inv in EKD as (k & d & -> & -> & ->).
      simpl in GD, GK, Gh.
      unfold Rleb in GD; destruct (Rle_dec d 0); [discriminate |].
      unfold Rltb in GK, Gh.
      destruct (Rlt_dec k 0); [discriminate |].
      destruct (Rlt_dec hh 0); [discriminate |].
      exists q, d, k, hh, m. repeat split; try reflexivity; lra.
Qed.

Lemma eoq_returns (D K h : num) : exists e, eoq D K h = Val e.
Proof.
  unfold eoq.
  destruct ((D <=? Fin 0) || (K <? Fin 0) || (h <=? Fin 0)) eqn:G;
    [eexists; reflexivity |].
  apply orb_false_iff in G as [_ G]. unfold truediv.
  destruct h as [| | |hh]; simpl; try (eexists; reflexivity).
  simpl in G. unfold Rleb in G. destruct (Rle_dec hh 0); [discriminate |].
  rewrite (Reqb_false hh 0) by lra. simpl. eexists; reflexivity.
Qed.

Lemma eoq_zero_holding (D K : num) (hh : R) :
  (hh <= 0)%R -> eoq D K (Fin hh) = Val NaN.
Proof.
  intros H. unfold eoq. simpl. rewrite (Rleb_true hh 0) by lra.
  rewrite !orb_true_r. reflexivity.
Qed.

Lemma ajusta_returns (q moq mult : num) :
  exists q1, ajusta_por_moq_multiplo (Some q) moq mult = Val (Some q1)
             /\ (q = NaN -> q1 = NaN).
Proof.
  unfold ajusta_por_moq_multiplo.
  destruct (N.isnan q) eqn:Hn; [exists q; auto |].
  assert (q <> NaN) by (intros ->; discriminate).
  destruct (N.truthy mult && (mult >? Fin 0)) eqn:Hm;
    [| eexists; split; [reflexivity | intros; contradiction]].
  apply andb_true_iff in Hm as [Ht _]. unfold truediv.
  destruct mult as [| | |m]; simpl;
    try (eexists; split; [reflexivity | intros; contradiction]).
  simpl in Ht. destruct (Reqb m 0); [discriminate |]. simpl.
  eexists; split; [reflexivity | intros; contradiction].
Qed.

Lemma custos_returns (Q : option num) (D K h SS : num) :
  exists a b c, custos_periodicos Q D K h SS = Val (a, b, c).
Proof.
  unfold custos_periodicos. destruct Q as [Q|]; [| do 3 eexists; reflexivity].
  destruct ((Q <=? Fin 0) || (D <=? Fin 0) || (h <? Fin 0) || (K <? Fin 0)) eqn:G;
    [do 3 eexists; reflexivity |].
  apply orb_false_iff in G as [G _]. apply orb_false_iff in G as [G _].
  apply orb_false_iff in G as [G _].
  unfold truediv. rewrite (Reqb_false 2 0) by lra.
  destruct Q as [| | |q]; simpl; try (do 3 eexists; reflexivity).
  simpl in G. unfold Rleb in G. destruct (Rle_dec q 0); [discriminate |].
  rewrite (Reqb_false q 0) by lra. simpl. do 3 eexists; reflexivity.
Qed.

(** The three clauses on the savings of a pair of total costs. *)
Definition comparavel (ctot_base ctot_opt : num) : bool :=
  N.isfinite ctot_base && N.isfinite ctot_opt && (ctot_base >? Fin 0).

Lemma economia_returns (ctot_base ctot_opt ppy : num) :
  exists per ano pct,
    economia ctot_base ctot_opt ppy = Val (per, ano, pct)
    /\ per = (if N.isfinite ctot_base && N.isfinite ctot_opt
              then ctot_base - ctot_opt else NaN)
    /\ (pct = NaN <-> comparavel ctot_base ctot_opt = false)
    /\ (comparavel ctot_base ctot_opt = true ->
        pct = N.div per ctot_base * Fin 100).
Proof.
  unfold economia, comparavel, truediv, N.gtb.
  destruct ctot_base as [| | |b], ctot_opt as [| | |o]; simpl;
    try (do 3 eexists; repeat split; intros; try reflexivity; congruence);
    (destruct (Rltb 0 b) eqn:E; simpl;
     [apply Rltb_spec in E; rewrite ?(Reqb_false b 0) by lra; simpl;
      rewrite ?(Reqb_false b 0) by lra |];
     do 3 eexists; repeat split; intros; try reflexivity; try congruence).
  simpl. rewrite (Reqb_false b 0) by lra. reflexivity.
Qed.

Lemma truediv_fin (a : num) (y : R) :
  y <> 0%R -> truediv a (Fin y) = Val (N.div a (Fin y)).
Proof. intros H. unfold truediv. rewrite Reqb_false by assumption. reflexivity. Qed.

Lemma lead_time_stats_returns (D_base sigma_base L_dias : num) (base : string) :
  exists mu_L sigma_L d_dia sigma_d_dia,
    lead_time_stats_from_base D_base sigma_base L_dias base
    = Val (mu_L, sigma_L, d_dia, sigma_d_dia).
Proof.
  unfold lead_time_stats_from_base.
  assert (H7 : N.np_sqrt (Fin 7) = Fin (sqrt 7)) by (simpl; rdec; reflexivity).
  assert (H30 : N.np_sqrt (Fin 30) = Fin (sqrt 30)) by (simpl; rdec; reflexivity).
  assert (S7 : sqrt 7 <> 0%R) by (pose proof (sqrt_lt_R0 7); lra).
  assert (S30 : sqrt 30 <> 0%R) by (pose proof (sqrt_lt_R0 30); lra).
  destruct (String.eqb base "semanal").
  - do 4 eexists. rewrite truediv_fin by lra. cbn [bind].
    rewrite H7. rewrite truediv_fin by assumption. cbn [bind]. reflexivity.
  - do 4 eexists. rewrite truediv_fin by lra. cbn [bind].
    rewrite H30. rewrite truediv_fin by assumption. cbn [bind]. reflexivity.
Qed.

(** In the calculator the optimal lot is derived from the same holding
    cost as the baseline cost: when both total costs are finite, the
    holding cost is strictly positive and so is the baseline total. *)
Lemma baseline_cost_positive (D K h moq mult SSo SSb e : num)
    (Qo Qb : option num) (a1 b1 a2 b2 : num) (co cb : R) :
  eoq D K h = Val e ->
  ajusta_por_moq_multiplo (Some e) moq mult = Val Qo ->
  custos_periodicos Qo D K h SSo = Val (a1, b1, Fin co) ->
  custos_periodicos Qb D K h SSb = Val (a2, b2, Fin cb) ->
  (0 < cb)%R.
Proof.
  intros He HQo Hco Hcb.
  apply custos_finite_inv in Hco
    as (q & d & k & hh & m & -> & -> & -> & -> & Hq & Hd & Hk & Hhh & Hm & _).
  apply custos_finite_inv in Hcb
    as (qb & d' & k' & hh' & mb & _ & [= <-] & [= <-] & [= <-]
        & Hqb & _ & _ & _ & Hmb & ->).
  assert (Hpos : (0 < hh)%R).
  { destruct (Rle_lt_dec hh 0) as [Hle|]; [| assumption]. exfalso.
    rewrite eoq_zero_holding in He by assumption. injection He as <-.
    destruct (ajusta_returns NaN moq mult) as (q1 & E & Hnan).
    rewrite E in HQo. injection HQo as HQo. rewrite Hnan in HQo by reflexivity.
    discriminate. }
  assert (0 <= k * d / qb)%R.
  { apply Rmult_le_pos; [nra | left; apply Rinv_0_lt_compat; lra]. }
  assert (0 < hh * (qb / 2 + mb))%R by (apply Rmult_lt_0_compat; lra).
  lra.
Qed.

(** C8 (as amended).  The calculator never raises, and for the total costs
    it computes: the savings per period are NaN whenever either total is
    not finite or the baseline total is not positive; the savings
    percentage is NaN exactly when either total is not finite or the
    baseline total is not strictly positive; otherwise the savings are
    [ctot_base - ctot_opt] and the percentage is
    [savings / ctot_base * 100]. *)
Theorem economia_nan_propagation (norm_ppf : num -> num) (base_key : string)
    (D_base sigma_base L_dias v i_anual K moq mult SL_opt SL_base
     Q_base r_base_input : num) :
  exists p : politica,
    calculadora norm_ppf base_key D_base sigma_base L_dias v i_anual K moq mult
                SL_opt SL_base Q_base r_base_input = Val p
    /\ (comparavel (ctot_base p) (ctot_opt p) = false -> economia_per p = NaN)
    /\ (economia_pct p = NaN <-> comparavel (ctot_base p) (ctot_opt p) = false)
    /\ (comparavel (ctot_base p) (ctot_opt p) = true ->
        economia_per p = ctot_base p - ctot_opt p
        /\ economia_pct p = N.div (economia_per p) (ctot_base p) * Fin 100).
Proof.
  unfold calculadora.
  assert (Hppy : exists y : R, periods_per_year base_key = Fin y /\ y <> 0%R).
  { unfold periods_per_year. destruct (String.eqb base_key "mensal");
      eexists; (split; [reflexivity | lra]). }
  destruct Hppy as (y & -> & Hy). rewrite truediv_fin by assumption.
  cbn [bind]. set (h_per := N.div (i_anual * v) (Fin y)).
  destruct (lead_time_stats_returns D_base sigma_base L_dias base_key)
    as (mu_L & sigma_L & d_dia & sigma_d_dia & ->).
  cbn [bind]. rewrite !truediv_fin by lra. cbn [bind].
  destruct (baseline_ss_r r_base_input mu_L
              (norm_ppf (N.div SL_base (Fin 100)) * sigma_L)) as [SSb rb].
  destruct (eoq_returns D_base K h_per) as (e & He). rewrite He. cbn [bind].
  destruct (ajusta_returns e moq mult) as (q1 & Hq1 & _).
  rewrite Hq1. cbn [bind].
  set (SSo := norm_ppf (N.div SL_opt (Fin 100)) * sigma_L).
  destruct (custos_returns (Some q1) D_base K h_per SSo) as (a1 & b1 & co & Hco).
  destruct (custos_returns (Some Q_base) D_base K h_per SSb) as (a2 & b2 & cb & Hcb).
  rewrite Hco, Hcb. cbn [bind].
  destruct (economia_returns cb co (Fin y)) as (per & ano & pct & -> & Hper & Hpct & Hfin).
  simpl. eexists. split; [reflexivity |]. simpl.
  split; [| split; [exact Hpct |]].
  - unfold comparavel. intros Hc. rewrite Hper.
    destruct cb as [| | |cbr], co as [| | |cor]; try reflexivity.
    exfalso.
    pose proof (baseline_cost_positive _ _ _ _ _ _ _ _ _ _ _ _ _ _ _ _
                  He Hq1 Hco Hcb) as Hpos.
    unfold N.gtb in Hc; simpl in Hc. rewrite Rltb_true in Hc by assumption.
    discriminate.
  - intros Hc. split; [| apply Hfin; exact Hc].
    rewrite Hper. unfold comparavel in Hc.
    apply andb_true_iff in Hc as [Hc _]. rewrite Hc. reflexivity.
Qed.

(** A stand-in for the normal quantile at 95 %. *)
Definition z_95 (p : num) : num := Fin (1645 / 1000).

(** A zero carrying rate: the baseline total is finite and strictly
    positive, the optimal total is NaN, and the savings percentage is NaN
    all the same. *)
Lemma economia_pct_counterexample :
  exists p : politica,
    calculadora z_95 "mensal" (Fin 1500) (Fin 300) (Fin 10) (Fin 1) (Fin 0)
                (Fin 80) (Fin 0) (Fin 0) (Fin 95) (Fin 95) (Fin 1800) (Fin 600)
      = Val p
    /\ N.isfinite (ctot_base p) = true
    /\ (ctot_base p >? Fin 0) = true
    /\ economia_pct p = NaN
    /\ comparavel (ctot_base p) (ctot_opt p) = false.
Proof.
  assert (H30 : N.np_sqrt (Fin 30) = Fin (sqrt 30)) by (simpl; rdec; reflexivity).
  assert (S30 : sqrt 30 <> 0%R) by (pose proof (sqrt_lt_R0 30); lra).
  unfold calculadora, periods_per_year, lead_time_stats_from_base, z_95.
  simpl String.eqb. cbv iota.
  rewrite H30. rewrite !truediv_fin by (assumption || lra). cbn [bind].
  unfold baseline_ss_r, eoq, ajusta_por_moq_multiplo, custos_periodicos,
    economia, truediv, comparavel, N.pymax, N.gtb.
  repeat (progress (simpl; rewrite ?(Reqb_false (sqrt 30) 0) by assumption; rdec)).
  eexists. split; [reflexivity |]. simpl. rdec. auto.
Qed.

End EconomiaProps.

(** ** The simulator *)

Module SimuladorProps.

Import Simulador.
Local Open Scope Z_scope.

Section Laco.

Context {rng : Type}.
Variables (Q r d_dia : R) (L : Z) (sigma_d_dia : R) (clamp_zero : bool).
Variable rng_normal : rng -> R -> R -> R * rng.

Local Abbreviation dia := (dia Q r d_dia L sigma_d_dia clamp_zero rng_normal).
Local Abbreviation laco := (laco Q r d_dia L sigma_d_dia clamp_zero rng_normal).
Local Abbreviation historico := (historico Q r d_dia L sigma_d_dia clamp_zero rng_normal).
Local Abbreviation demanda := (demanda d_dia sigma_d_dia rng_normal).
Local Abbreviation consumo_e_pedido := (consumo_e_pedido Q r L clamp_zero).

(** The demand of day [t] exceeds what is on hand once the shipments of
    the day are in. *)
Definition falta (p : Z * estado rng) : bool :=
  let s1 := chegadas (fst p) (snd p) in
  Rltb (on_hand s1) (fst (demanda (gen s1))).

Lemma py_range_nil (a b : Z) : b <= a -> py_range a b = [].
Proof.
  intros H. unfold py_range. replace (Z.to_nat (b - a)) with 0%nat by lia.
  reflexivity.
Qed.

Lemma py_range_snoc (a b : Z) :
  a <= b -> py_range a (b + 1) = py_range a b ++ [b].
Proof.
  intros H. unfold py_range.
  replace (Z.to_nat (b + 1 - a)) with (S (Z.to_nat (b - a))) by lia.
  rewrite seq_S, map_app. simpl. do 3 f_equal. lia.
Qed.

Lemma laco_cons (t : Z) (days : list Z) (s : estado rng) :
  laco (t :: days) s = laco days (dia t s).
Proof. reflexivity. Qed.

Lemma laco_app (l1 l2 : list Z) (s : estado rng) :
  laco (l1 ++ l2) s = laco l2 (laco l1 s).
Proof. unfold Simulador.laco. apply fold_left_app. Qed.

(** Induction over the days [1..T] of a run. *)
Lemma laco_range_ind (P : Z -> estado rng -> Prop) (s0 : estado rng) :
  P 0 s0 ->
  (forall t s, 0 <= t -> P t s -> P (t + 1) (dia (t + 1) s)) ->
  forall T, 0 <= T -> P T (laco (py_range 1 (T + 1)) s0).
Proof.
  intros H0 Hstep T HT.
  rewrite <- (Z2Nat.id T) by assumption.
  induction (Z.to_nat T) as [|n IH].
  - simpl. exact H0.
  - rewrite Nat2Z.inj_succ. unfold Z.succ.
    rewrite py_range_snoc by lia. rewrite laco_app. simpl.
    apply Hstep; [lia | exact IH].
Qed.

Lemma chegadas_stockout (t : Z) (s : estado rng) :
  stockout_days (chegadas t s) = stockout_days s.
Proof.
  unfold chegadas. destruct (pending s); [reflexivity |].
  destruct (map snd _); reflexivity.
Qed.

Lemma chegadas_y_onhand (t : Z) (s : estado rng) :
  y_onhand (chegadas t s) = y_onhand s.
Proof.
  unfold chegadas. destruct (pending s); [reflexivity |].
  destruct (map snd _); reflexivity.
Qed.

Lemma chegadas_x (t : Z) (s : estado rng) : x (chegadas t s) = x s.
Proof.
  unfold chegadas. destruct (pending s); [reflexivity |].
  destruct (map snd _); reflexivity.
Qed.

Lemma chegadas_order_times (t : Z) (s : estado rng) :
  order_times (chegadas t s) = order_times s.
Proof.
  unfold chegadas. destruct (pending s); [reflexivity |].
  destruct (map snd _); reflexivity.
Qed.

(** The fields of the state after one day. *)
Lemma dia_on_hand (t : Z) (s : estado rng) :
  on_hand (dia t s)
  = let s1 := chegadas t s in
    let v := (on_hand s1 - fst (demanda (gen s1)))%R in
    if clamp_zero && Rltb v 0 then 0%R else v.
Proof.
  unfold Simulador.dia, Simulador.consumo_e_pedido.
  destruct (demanda (gen (chegadas t s))) as [dem g']. simpl.
  destruct (clamp_zero && Rltb _ 0); simpl;
    destruct (Rleb _ r); reflexivity.
Qed.

Lemma dia_y_onhand (t : Z) (s : estado rng) :
  y_onhand (dia t s) = y_onhand s ++ [on_hand (dia t s)].
Proof.
  unfold Simulador.dia, Simulador.consumo_e_pedido.
  destruct (demanda (gen (chegadas t s))) as [dem g']. simpl.
  rewrite chegadas_y_onhand.
  destruct (clamp_zero && Rltb _ 0); simpl;
    destruct (Rleb _ r); reflexivity.
Qed.

Lemma dia_x (t : Z) (s : estado rng) : x (dia t s) = x s ++ [t].
Proof.
  unfold Simulador.dia, Simulador.consumo_e_pedido.
  destruct (demanda (gen (chegadas t s))) as [dem g']. simpl.
  rewrite chegadas_x.
  destruct (clamp_zero && Rltb _ 0); simpl;
    destruct (Rleb _ r); reflexivity.
Qed.

Lemma dia_stockout (t : Z) (s : estado rng) :
  stockout_days (dia t s)
  = if clamp_zero && falta (t, s) then stockout_days s + 1 else stockout_days s.
Proof.
  unfold falta, Simulador.dia, Simulador.consumo_e_pedido. cbn [fst snd].
  destruct (demanda (gen (chegadas t s))) as [dem g']. simpl.
  rewrite chegadas_stockout.
  assert (E : Rltb (on_hand (chegadas t s) - dem) 0
              = Rltb (on_hand (chegadas t s)) dem).
  { unfold Rltb.
    destruct (Rlt_dec (on_hand (chegadas t s) - dem) 0),
             (Rlt_dec (on_hand (chegadas t s)) dem); try reflexivity; lra. }
  rewrite E.
  destruct (clamp_zero && Rltb _ dem); simpl;
    destruct (Rleb _ r); reflexivity.
Qed.

Lemma laco_x (days : list Z) (s : estado rng) : x (laco days s) = x s ++ days.
Proof.
  revert s. induction days as [|t days IH]; intros s.
  - symmetry. apply app_nil_r.
  - rewrite laco_cons, IH, dia_x, <- app_assoc. reflexivity.
Qed.

Lemma laco_y_onhand_length (days : list Z) (s : estado rng) :
  List.length (y_onhand s) = List.length (x s) ->
  List.length (y_onhand (laco days s)) = List.length (x (laco days s)).
Proof.
  revert s. induction days as [|t days IH]; intros s H; [exact H |].
  rewrite laco_cons. apply IH.
  rewrite dia_y_onhand, dia_x, !length_app, H. reflexivity.
Qed.

Lemma laco_stockout (days : list Z) (s : estado rng) :
  stockout_days (laco days s)
  = stockout_days s
    + Z.of_nat (List.length
                  (filter (fun p => clamp_zero && falta p) (historico days s))).
Proof.
  revert s. induction days as [|t days IH]; intros s; [simpl; lia |].
  rewrite laco_cons, IH, dia_stockout. cbn [Simulador.historico filter].
  destruct (clamp_zero && falta (t, s)); simpl List.length; lia.
Qed.

Lemma laco_y_onhand_nonneg (days : list Z) (s : estado rng) :
  clamp_zero = true ->
  Forall (fun v => (0 <= v)%R) (y_onhand s) ->
  Forall (fun v => (0 <= v)%R) (y_onhand (laco days s)).
Proof.
  intros Hc. revert s. induction days as [|t days IH]; intros s H;
    [exact H |].
  rewrite laco_cons. apply IH. rewrite dia_y_onhand. apply Forall_app. split; [exact H |].
  constructor; [| constructor]. rewrite dia_on_hand, Hc. simpl.
  unfold Rltb. destruct (Rlt_dec _ 0); lra.
Qed.

Lemma py_range_max (T : Z) : py_range 1 (T + 1) = py_range 1 (Z.max 0 T + 1).
Proof. unfold py_range. f_equal. f_equal. lia. Qed.

Lemma chegadas_none (t : Z) (s : estado rng) :
  Forall (fun p => fst p <> t) (pending s) -> chegadas t s = s.
Proof.
  intros H. unfold chegadas. destruct (pending s) as [|p l] eqn:E; [reflexivity |].
  assert (F : filter (fun p => fst p =? t) (p :: l) = []).
  { clear E. induction H as [|q l' Hq _ IH]; [reflexivity |].
    simpl. destruct (fst q =? t) eqn:Eq; [apply Z.eqb_eq in Eq; contradiction |].
    exact IH. }
  rewrite F. reflexivity.
Qed.

Lemma demanda_nonneg (g : rng) :
  (0 <= d_dia)%R -> (0 <= fst (demanda g))%R.
Proof.
  intros Hd. unfold Simulador.demanda. destruct (Rleb sigma_d_dia 0); [exact Hd |].
  destruct (rng_normal g d_dia sigma_d_dia) as [z g']. simpl.
  unfold pymax0, Rltb. destruct (Rlt_dec 0 z); lra.
Qed.

Lemma dia_orders_pending (t : Z) (s : estado rng) :
  (pending (dia t s) = pending (chegadas t s)
   /\ order_times (dia t s) = order_times s)
  \/ (pending (dia t s) = pending (chegadas t s) ++ [(t + L, Q)]
      /\ order_times (dia t s) = order_times s ++ [t]).
Proof.
  unfold Simulador.dia, Simulador.consumo_e_pedido.
  destruct (demanda (gen (chegadas t s))) as [dem g']. simpl.
  rewrite chegadas_order_times.
  destruct (clamp_zero && Rltb _ 0); simpl;
    destruct (Rleb _ r); simpl; auto.
Qed.

Lemma dia_arrival_times (t : Z) (s : estado rng) :
  arrival_times (dia t s) = arrival_times (chegadas t s).
Proof.
  unfold Simulador.dia, Simulador.consumo_e_pedido.
  destruct (demanda (gen (chegadas t s))) as [dem g']. simpl.
  destruct (clamp_zero && Rltb _ 0); simpl;
    destruct (Rleb _ r); reflexivity.
Qed.

Lemma Sorted_snoc {A : Type} (R : A -> A -> Prop) (l : list A) (a b : A) :
  Sorted R (l ++ [a]) -> R a b -> Sorted R ((l ++ [a]) ++ [b]).
Proof.
  intros H Hab. induction l as [|c l IH]; simpl in *.
  - repeat constructor. exact Hab.
  - inversion H as [|? ? Hs Hh]; subst. constructor; [apply IH; exact Hs |].
    destruct l; simpl in *; inversion Hh; subst; constructor; assumption.
Qed.

(** *** Shipments issued and shipments received *)

Lemma filter_empty_above (b : Z) (l : list Z) (f : Z -> bool) :
  Forall (fun e => b < e) l -> (forall e, b < e -> f e = false) ->
  filter f l = [].
Proof.
  intros H Hf. induction H as [|e l He _ IH]; [reflexivity |].
  simpl. rewrite (Hf e He). exact IH.
Qed.

Lemma existsb_false_above (b : Z) (l : list Z) (f : Z -> bool) :
  Forall (fun e => b < e) l -> (forall e, b < e -> f e = false) ->
  existsb f l = false.
Proof.
  intros H Hf. induction H as [|e l He _ IH]; [reflexivity |].
  simpl. rewrite (Hf e He). exact IH.
Qed.

Lemma filter_le_succ (ag : list Z) (t : Z) :
  StronglySorted Z.lt ag ->
  filter (fun d => d <=? t + 1) ag
  = filter (fun d => d <=? t) ag
    ++ (if existsb (fun d => d =? t + 1) ag then [t + 1] else []).
Proof.
  induction 1 as [|d l Hs IH Hd]; [reflexivity |].
  simpl. destruct (Z_lt_le_dec t d) as [Hlt | Hle].
  - rewrite (proj2 (Z.leb_gt d t)) by lia.
    assert (Hl : Forall (fun e => t + 1 < e) l).
    { eapply Forall_impl; [| exact Hd]. simpl. lia. }
    rewrite (filter_empty_above (t + 1) l (fun e => e <=? t)) by
      (try exact Hl; intros; apply Z.leb_gt; lia).
    rewrite (filter_empty_above (t + 1) l (fun e => e <=? t + 1)) by
      (try exact Hl; intros; apply Z.leb_gt; lia).
    rewrite (existsb_false_above (t + 1) l (fun e => e =? t + 1)) by
      (try exact Hl; intros; apply Z.eqb_neq; lia).
    destruct (Z.eq_dec d (t + 1)) as [-> | Hne].
    + rewrite Z.leb_refl, Z.eqb_refl. reflexivity.
    + rewrite (proj2 (Z.leb_gt d (t + 1))) by lia.
      rewrite (proj2 (Z.eqb_neq d (t + 1))) by lia. reflexivity.
  - rewrite (proj2 (Z.leb_le d t)) by lia.
    rewrite (proj2 (Z.leb_le d (t + 1))) by lia.
    rewrite (proj2 (Z.eqb_neq d (t + 1))) by lia.
    simpl. rewrite IH. reflexivity.
Qed.

Lemma filter_gt_succ (ag : list Z) (t : Z) :
  filter (fun d => negb (d =? t + 1)) (filter (fun d => t <? d) ag)
  = filter (fun d => t + 1 <? d) ag.
Proof.
  induction ag as [|d l IH]; [reflexivity |]. simpl.
  destruct (Z_lt_le_dec t d) as [Hlt | Hle].
  - rewrite (proj2 (Z.ltb_lt t d)) by lia. simpl.
    destruct (Z.eq_dec d (t + 1)) as [-> | Hne].
    + rewrite Z.eqb_refl, Z.ltb_irrefl. simpl. exact IH.
    + rewrite (proj2 (Z.eqb_neq d (t + 1))) by lia.
      rewrite (proj2 (Z.ltb_lt (t + 1) d)) by lia. simpl. rewrite IH. reflexivity.
  - rewrite (proj2 (Z.ltb_ge t d)) by lia.
    rewrite (proj2 (Z.ltb_ge (t + 1) d)) by lia. exact IH.
Qed.

Lemma existsb_filter_gt (ag : list Z) (t : Z) :
  existsb (fun d => d =? t + 1) (filter (fun d => t <? d) ag)
  = existsb (fun d => d =? t + 1) ag.
Proof.
  induction ag as [|d l IH]; [reflexivity |]. simpl.
  destruct (Z_lt_le_dec t d) as [Hlt | Hle].
  - rewrite (proj2 (Z.ltb_lt t d)) by lia. simpl. rewrite IH. reflexivity.
  - rewrite (proj2 (Z.ltb_ge t d)) by lia.
    rewrite (proj2 (Z.eqb_neq d (t + 1))) by lia. simpl. exact IH.
Qed.

Lemma map_fst_filter (f : Z -> bool) (l : list (Z * R)) :
  map fst (filter (fun p => f (fst p)) l) = filter f (map fst l).
Proof.
  induction l as [|p l IH]; [reflexivity |]. simpl.
  destruct (f (fst p)); simpl; rewrite IH; reflexivity.
Qed.

Lemma existsb_map_fst (f : Z -> bool) (l : list (Z * R)) :
  existsb (fun p => f (fst p)) l = existsb f (map fst l).
Proof.
  induction l as [|p l IH]; [reflexivity |]. simpl. rewrite IH. reflexivity.
Qed.

Lemma filter_none (f : Z * R -> bool) (l : list (Z * R)) :
  map snd (filter f l) = [] ->
  filter (fun p => negb (f p)) l = l /\ existsb f l = false.
Proof.
  induction l as [|p l IH]; [auto |]. simpl.
  destruct (f p); simpl; [discriminate |].
  intros H. destruct (IH H) as [E1 E2]. rewrite E1, E2. auto.
Qed.

Lemma filter_some (f : Z * R -> bool) (l : list (Z * R)) (a : R) (m : list R) :
  map snd (filter f l) = a :: m -> existsb f l = true.
Proof.
  induction l as [|p l IH]; [discriminate |]. simpl.
  destruct (f p); simpl; [reflexivity | exact IH].
Qed.

(** What step 1 does to the pending shipments and to the arrival days. *)
Lemma chegadas_spec (t : Z) (s : estado rng) :
  pending (chegadas t s) = filter (fun p => negb (fst p =? t)) (pending s)
  /\ arrival_times (chegadas t s)
     = arrival_times s
       ++ (if existsb (fun p => fst p =? t) (pending s) then [t] else []).
Proof.
  unfold chegadas. destruct (pending s) as [|p l] eqn:E.
  - simpl. rewrite E, app_nil_r. auto.
  - destruct (map snd (filter (fun p0 => fst p0 =? t) (p :: l))) as [|a m] eqn:F.
    + destruct (filter_none _ _ F) as [E1 E2]. rewrite E, E1, E2, app_nil_r. auto.
    + rewrite (filter_some _ _ _ _ F). simpl. auto.
Qed.

(** The arrival days of all shipments issued so far: those pending at the
    start and one per order placed. *)
Definition agenda (s0 s : estado rng) : list Z :=
  map fst (pending s0) ++ map (fun o => o + L) (order_times s).

Definition agenda_ok (s0 : estado rng) (t : Z) (s : estado rng) : Prop :=
  map fst (pending s) = filter (fun d => t <? d) (agenda s0 s)
  /\ arrival_times s = filter (fun d => d <=? t) (agenda s0 s)
  /\ StronglySorted Z.lt (agenda s0 s)
  /\ Forall (fun d => 1 <= d <= t + L) (agenda s0 s).

Lemma StronglySorted_snoc (l : list Z) (b : Z) :
  StronglySorted Z.lt l -> Forall (fun d => d < b) l ->
  StronglySorted Z.lt (l ++ [b]).
Proof.
  induction 1 as [|d l Hs IH Hd]; intros Hb; simpl.
  - repeat constructor.
  - inversion Hb; subst. constructor; [apply IH; assumption |].
    apply Forall_app. split; [assumption | repeat constructor; assumption].
Qed.

Lemma agenda_step (s0 : estado rng) (t : Z) (s : estado rng) :
  1 <= L -> 0 <= t -> agenda_ok s0 t s -> agenda_ok s0 (t + 1) (dia (t + 1) s).
Proof.
  intros HL Ht (Hp & Ha & Hs & Hb).
  destruct (chegadas_spec (t + 1) s) as [Cp Ca].
  assert (Hp1 : map fst (pending (chegadas (t + 1) s))
                = filter (fun d => t + 1 <? d) (agenda s0 s)).
  { rewrite Cp, (map_fst_filter (fun d => negb (d =? t + 1))), Hp.
    apply filter_gt_succ. }
  assert (Ha1 : arrival_times (chegadas (t + 1) s)
                = filter (fun d => d <=? t + 1) (agenda s0 s)).
  { rewrite Ca, (existsb_map_fst (fun d => d =? t + 1)), Hp, existsb_filter_gt.
    rewrite Ha. symmetry. apply filter_le_succ. exact Hs. }
  unfold agenda_ok. rewrite dia_arrival_times.
  destruct (dia_orders_pending (t + 1) s) as [[E1 E2] | [E1 E2]];
    unfold agenda; rewrite E1, E2; fold (agenda s0 s).
  - repeat split; try assumption.
    eapply Forall_impl; [| exact Hb]. simpl. lia.
  - assert (Eag : map fst (pending s0)
                   ++ map (fun o => o + L) (order_times s ++ [t + 1])
                   = agenda s0 s ++ [t + 1 + L]).
    { unfold agenda. rewrite map_app, app_assoc. reflexivity. }
    rewrite Eag, map_app, Hp1, Ha1, !filter_app. simpl.
    rewrite (proj2 (Z.ltb_lt (t + 1) (t + 1 + L))) by lia.
    rewrite (proj2 (Z.leb_gt (t + 1 + L) (t + 1))) by lia.
    rewrite app_nil_r.
    repeat split; try reflexivity.
    + apply StronglySorted_snoc; [exact Hs |].
      eapply Forall_impl; [| exact Hb]. simpl. lia.
    + apply Forall_app. split.
      * eapply Forall_impl; [| exact Hb]. simpl. lia.
      * repeat constructor; lia.
Qed.

Lemma laco_y_onhand_sem_falta (days : list Z) (s : estado rng) :
  Forall (fun v => (0 <= v)%R) (y_onhand s) ->
  Forall (fun p => falta p = false) (historico days s) ->
  Forall (fun v => (0 <= v)%R) (y_onhand (laco days s)).
Proof.
  revert s. induction days as [|t days IH]; intros s Hy Hf; [exact Hy |].
  rewrite laco_cons. cbn [Simulador.historico] in Hf.
  inversion Hf as [|? ? Hft Hrest]; subst.
  apply IH; [| exact Hrest].
  rewrite dia_y_onhand. apply Forall_app. split; [exact Hy |].
  constructor; [| constructor]. rewrite dia_on_hand. cbv zeta.
  unfold falta in Hft. cbn [fst snd] in Hft. unfold Rltb in *.
  destruct (Rlt_dec (on_hand (chegadas t s))
              (fst (demanda (gen (chegadas t s))))); [discriminate |].
  destruct (Rlt_dec _ 0); [lra |]. rewrite andb_false_r. lra.
Qed.

Lemma filter_sem_falta (days : list Z) (s : estado rng) :
  Forall (fun p => falta p = false) (historico days s) ->
  filter (fun p => clamp_zero && falta p) (historico days s) = [].
Proof.
  induction 1 as [|p l Hp _ IH]; [reflexivity |].
  simpl. rewrite Hp, andb_false_r. exact IH.
Qed.

End Laco.

Section Trajetoria.

Context {rng : Type}.
Variable default_rng : Z -> rng.
Variable rng_normal : rng -> R -> R -> R * rng.

(** C5.  With clamping on and a stock that starts nonnegative ([r] in
    steady mode, [Q] in lot mode), the trace has one on-hand value per day
    [0..T], each of them nonnegative, and the stockout counter is the
    number of days [1..T] on which the demand of the day exceeds the
    on-hand level left by the arrivals of that day. *)
Theorem on_hand_nonneg_and_stockouts (Q r d_dia : R) (L : Z) (sigma_d_dia : R)
    (T seed : Z) (start_mode : string) :
  (0 <= (if String.eqb start_mode "steady" then r else Q))%R ->
  let s := estado_final default_rng rng_normal Q r d_dia L sigma_d_dia T seed
             true start_mode in
  let s0 := inicio Q r L start_mode (default_rng seed) in
  x s = 0 :: py_range 1 (T + 1)
  /\ List.length (y_onhand s) = List.length (x s)
  /\ Forall (fun v => (0 <= v)%R) (y_onhand s)
  /\ stockout_days s
     = Z.of_nat
         (List.length
            (filter (falta d_dia sigma_d_dia rng_normal)
               (historico Q r d_dia L sigma_d_dia true rng_normal
                  (py_range 1 (T + 1)) s0))).
Proof.
  intros H0 s s0. unfold s, estado_final. fold s0.
  assert (Hx0 : x s0 = [0]).
  { unfold s0, inicio. destruct (String.eqb start_mode "steady"); reflexivity. }
  assert (Hy0 : y_onhand s0 = [if String.eqb start_mode "steady" then r else Q]).
  { unfold s0, inicio. destruct (String.eqb start_mode "steady"); reflexivity. }
  assert (Hs0 : stockout_days s0 = 0).
  { unfold s0, inicio. destruct (String.eqb start_mode "steady"); reflexivity. }
  split; [| split; [| split]].
  - rewrite laco_x, Hx0. reflexivity.
  - apply laco_y_onhand_length. rewrite Hx0, Hy0. reflexivity.
  - apply laco_y_onhand_nonneg; [reflexivity |]. rewrite Hy0.
    constructor; [exact H0 | constructor].
  - rewrite laco_stockout, Hs0. simpl. reflexivity.
Qed.

Lemma inicio_zero_lead (Q r : R) (start_mode : string) (g : rng) :
  let s0 := inicio Q r 0 start_mode g in
  Forall (fun p => fst p <= 0) (pending s0)
  /\ arrival_times s0 = []
  /\ y_onhand s0 = [] ++ [on_hand s0]
  /\ on_hand s0 = (if String.eqb start_mode "steady" then r else Q).
Proof.
  unfold inicio. destruct (String.eqb start_mode "steady"); simpl;
    repeat split; repeat constructor; simpl; lia.
Qed.

(** C10.  With a lead time of zero no shipment is ever delivered, whatever
    the horizon, the seed and the start mode: the list of arrival days is
    empty; and with a demand rate and a starting stock that are not
    negative, the recorded on-hand level never increases. *)
Theorem zero_lead_time_never_delivers (Q r d_dia sigma_d_dia : R) (T seed : Z)
    (clamp_zero : bool) (start_mode : string) :
  let s := estado_final default_rng rng_normal Q r d_dia 0 sigma_d_dia T seed
             clamp_zero start_mode in
  arrival_times s = []
  /\ ((0 <= d_dia)%R -> (0 <= r)%R -> (0 <= Q)%R ->
      Sorted (fun a b => (b <= a)%R) (y_onhand s)).
Proof.
  intros s. subst s. unfold estado_final. rewrite py_range_max.
  set (s0 := inicio Q r 0 start_mode (default_rng seed)).
  destruct (inicio_zero_lead Q r start_mode (default_rng seed))
    as (Hp0 & Ha0 & Hy0 & Ho0). fold s0 in Hp0, Ha0, Hy0, Ho0.
  split.
  - enough (H : Forall (fun p => fst p <= Z.max 0 T)
                  (pending (laco Q r d_dia 0 sigma_d_dia clamp_zero rng_normal
                              (py_range 1 (Z.max 0 T + 1)) s0))
                /\ arrival_times (laco Q r d_dia 0 sigma_d_dia clamp_zero rng_normal
                                    (py_range 1 (Z.max 0 T + 1)) s0) = [])
      by apply H.
    apply (laco_range_ind Q r d_dia 0 sigma_d_dia clamp_zero rng_normal
             (fun t st => Forall (fun p => fst p <= t) (pending st)
                          /\ arrival_times st = [])); [auto | | lia].
    intros t st Ht [Hp Ha].
    assert (Hc : chegadas (t + 1) st = st).
    { apply chegadas_none. eapply Forall_impl; [| exact Hp]. simpl. lia. }
    rewrite dia_arrival_times, Hc. split; [| exact Ha].
    destruct (dia_orders_pending Q r d_dia 0 sigma_d_dia clamp_zero rng_normal
                (t + 1) st) as [[E _] | [E _]]; rewrite E, Hc.
    + eapply Forall_impl; [| exact Hp]. simpl. lia.
    + apply Forall_app. split.
      * eapply Forall_impl; [| exact Hp]. simpl. lia.
      * repeat constructor. simpl. lia.
  - intros Hd Hr HQ.
    enough (H : Forall (fun p => fst p <= Z.max 0 T)
                  (pending (laco Q r d_dia 0 sigma_d_dia clamp_zero rng_normal
                              (py_range 1 (Z.max 0 T + 1)) s0))
                /\ (exists pre,
                      y_onhand (laco Q r d_dia 0 sigma_d_dia clamp_zero rng_normal
                                  (py_range 1 (Z.max 0 T + 1)) s0)
                      = pre ++ [on_hand (laco Q r d_dia 0 sigma_d_dia clamp_zero
                                           rng_normal
                                           (py_range 1 (Z.max 0 T + 1)) s0)])
                /\ Sorted (fun a b => (b <= a)%R)
                     (y_onhand (laco Q r d_dia 0 sigma_d_dia clamp_zero rng_normal
                                  (py_range 1 (Z.max 0 T + 1)) s0))
                /\ (clamp_zero = true ->
                    (0 <= on_hand (laco Q r d_dia 0 sigma_d_dia clamp_zero
                                     rng_normal
                                     (py_range 1 (Z.max 0 T + 1)) s0))%R))
      by apply H.
    apply (laco_range_ind Q r d_dia 0 sigma_d_dia clamp_zero rng_normal
             (fun t st => Forall (fun p => fst p <= t) (pending st)
                          /\ (exists pre, y_onhand st = pre ++ [on_hand st])
                          /\ Sorted (fun a b => (b <= a)%R) (y_onhand st)
                          /\ (clamp_zero = true -> (0 <= on_hand st)%R)));
      [| | lia].
    + split; [exact Hp0 |]. split; [exists []; exact Hy0 |].
      split; [rewrite Hy0; repeat constructor |].
      intros _. rewrite Ho0.
      destruct (String.eqb start_mode "steady"); assumption.
    + intros t st Ht (Hp & [pre Hy] & Hs & Hpos).
      assert (Hc : chegadas (t + 1) st = st).
      { apply chegadas_none. eapply Forall_impl; [| exact Hp]. simpl. lia. }
      pose proof (demanda_nonneg d_dia sigma_d_dia rng_normal (gen st) Hd) as Hdem.
      assert (Hoh : (on_hand (dia Q r d_dia 0 sigma_d_dia clamp_zero rng_normal
                                (t + 1) st) <= on_hand st)%R
                    /\ (clamp_zero = true ->
                        (0 <= on_hand (dia Q r d_dia 0 sigma_d_dia clamp_zero
                                         rng_normal (t + 1) st))%R)).
      { rewrite dia_on_hand, Hc. cbv zeta.
        destruct clamp_zero; simpl; unfold Rltb;
          try match goal with
              | |- context [Rlt_dec ?u ?w] => destruct (Rlt_dec u w)
              end;
          (split; [| intros Hcl; try discriminate]);
          try specialize (Hpos eq_refl); lra. }
      split; [| split; [| split]].
      * destruct (dia_orders_pending Q r d_dia 0 sigma_d_dia clamp_zero rng_normal
                    (t + 1) st) as [[E _] | [E _]]; rewrite E, Hc.
        -- eapply Forall_impl; [| exact Hp]. simpl. lia.
        -- apply Forall_app. split.
           ++ eapply Forall_impl; [| exact Hp]. simpl. lia.
           ++ repeat constructor. simpl. lia.
      * rewrite dia_y_onhand. eexists. reflexivity.
      * rewrite dia_y_onhand. rewrite Hy in *. apply Sorted_snoc; [exact Hs |].
        apply Hoh.
      * apply Hoh.
Qed.

Lemma length_filter_map (f : Z -> bool) (g : Z -> Z) (l : list Z) :
  List.length (filter f (map g l)) = List.length (filter (fun o => f (g o)) l).
Proof.
  induction l as [|o l IH]; [reflexivity |]. simpl.
  destruct (f (g o)); simpl; rewrite IH; reflexivity.
Qed.

(** In steady mode with a lead time of at least one day, the arrival days
    recorded up to the horizon are the arrival days, within the horizon, of
    the shipment pending at the start and of the orders placed. *)
Lemma steady_arrival_times (Q r d_dia : R) (L : Z) (sigma_d_dia : R)
    (T seed : Z) (clamp_zero : bool) :
  1 <= L ->
  let s := estado_final default_rng rng_normal Q r d_dia L sigma_d_dia T seed
             clamp_zero "steady" in
  arrival_times s
  = filter (fun d => d <=? T) (L :: map (fun o => o + L) (order_times s)).
Proof.
  intros HL s. subst s. unfold estado_final. rewrite py_range_max.
  set (s0 := inicio Q r L "steady" (default_rng seed)).
  assert (H0 : agenda_ok L s0 0 s0).
  { unfold agenda_ok, agenda, s0, inicio. simpl.
    rewrite (proj2 (Z.ltb_lt 0 L)) by lia.
    rewrite (proj2 (Z.leb_gt L 0)) by lia.
    repeat split; repeat constructor; lia. }
  pose proof (laco_range_ind Q r d_dia L sigma_d_dia clamp_zero rng_normal
                (agenda_ok L s0) s0 H0
                (fun t st Ht => agenda_step Q r d_dia L sigma_d_dia clamp_zero
                                  rng_normal s0 t st HL Ht)
                (Z.max 0 T) ltac:(lia)) as (_ & Ha & _ & Hb).
  rewrite Ha. unfold agenda in *.
  assert (E0 : map fst (pending s0) = [L]) by reflexivity.
  rewrite E0 in *. cbn [app] in *.
  apply filter_ext_in. intros d Hd.
  rewrite Forall_forall in Hb. specialize (Hb d Hd).
  destruct (Z.leb_spec d (Z.max 0 T)), (Z.leb_spec d T); try reflexivity; lia.
Qed.

(** C7 (as amended).  In steady mode, without demand variability, with a
    lead time of at least one day and a reorder point that is not negative,
    if on no day the demand exceeds the on-hand level left by the arrivals
    (so that nothing is clamped): the on-hand level is never negative, no
    stockout is counted, and the number of arrival days equals the number
    of order days [t] with [t + L <= T] plus one when [L <= T], for the
    shipment pending at the start, which is not in the list of orders. *)
Theorem steady_conservation (Q r d_dia : R) (L T seed : Z) (clamp_zero : bool) :
  1 <= L -> (0 <= r)%R ->
  let s0 := inicio Q r L "steady" (default_rng seed) in
  let s := estado_final default_rng rng_normal Q r d_dia L 0 T seed
             clamp_zero "steady" in
  Forall (fun p => falta d_dia 0 rng_normal p = false)
    (historico Q r d_dia L 0 clamp_zero rng_normal (py_range 1 (T + 1)) s0) ->
  Forall (fun v => (0 <= v)%R) (y_onhand s)
  /\ stockout_days s = 0
  /\ Z.of_nat (List.length (arrival_times s))
     = Z.of_nat (List.length (filter (fun t => t + L <=? T) (order_times s)))
       + (if L <=? T then 1 else 0).
Proof.
  intros HL Hr s0 s Hf.
  split; [| split].
  - subst s. unfold estado_final. fold s0.
    apply laco_y_onhand_sem_falta; [| exact Hf].
    unfold s0, inicio. simpl. constructor; [exact Hr | constructor].
  - subst s. unfold estado_final. fold s0.
    rewrite laco_stockout, filter_sem_falta by exact Hf.
    unfold s0, inicio. reflexivity.
  - subst s. rewrite steady_arrival_times by exact HL.
    cbn [filter]. destruct (L <=? T); cbn [List.length];
      rewrite (length_filter_map (fun d => d <=? T) (fun o => o + L)); lia.
Qed.

End Trajetoria.

(** *** Determinism *)

Section Determinismo.

Context {rng : Type}.
Variable semeia : Z -> rng -> Prop.
Variable sorteia : rng -> R -> R -> R -> rng -> Prop.

(** The generator is deterministic: a seed fixes the generator, and a
    generator fixes its next draw and its next state. *)
Hypothesis semeia_det :
  forall seed g1 g2, semeia seed g1 -> semeia seed g2 -> g1 = g2.
Hypothesis sorteia_det :
  forall g loc scale z1 g1 z2 g2,
    sorteia g loc scale z1 g1 -> sorteia g loc scale z2 g2 -> z1 = z2 /\ g1 = g2.

Variables (Q r d_dia : R) (L : Z) (sigma_d_dia : R) (clamp_zero : bool).

Lemma demanda_rel_det (g : rng) (d1 d2 : R) (g1 g2 : rng) :
  demanda_rel sorteia d_dia sigma_d_dia g d1 g1 ->
  demanda_rel sorteia d_dia sigma_d_dia g d2 g2 ->
  d1 = d2 /\ g1 = g2.
Proof.
  intros H1 H2. inversion H1; subst; inversion H2; subst; auto; try congruence.
  match goal with
  | Ha : sorteia _ _ _ ?z1 _, Hb : sorteia _ _ _ ?z2 _ |- _ =>
    destruct (sorteia_det _ _ _ _ _ _ _ Ha Hb) as [-> ->]
  end. auto.
Qed.

Lemma dia_rel_det (t : Z) (s s1 s2 : estado rng) :
  dia_rel sorteia Q r d_dia L sigma_d_dia clamp_zero t s s1 ->
  dia_rel sorteia Q r d_dia L sigma_d_dia clamp_zero t s s2 ->
  s1 = s2.
Proof.
  intros H1 H2. inversion H1 as [dem1 g1 D1]; inversion H2 as [dem2 g2 D2]; subst.
  destruct (demanda_rel_det _ _ _ _ _ D1 D2) as [-> ->]. reflexivity.
Qed.

Lemma laco_rel_det (days : list Z) (s s1 s2 : estado rng) :
  laco_rel sorteia Q r d_dia L sigma_d_dia clamp_zero days s s1 ->
  laco_rel sorteia Q r d_dia L sigma_d_dia clamp_zero days s s2 ->
  s1 = s2.
Proof.
  intros H1. revert s2. induction H1 as [s | t days s sa sb Hd Hl IH]; intros s2 H2.
  - inversion H2; subst. reflexivity.
  - inversion H2 as [| ? ? ? sa' ? Hd' Hl']; subst.
    rewrite (dia_rel_det _ _ _ _ Hd Hd') in *. apply IH. exact Hl'.
Qed.

(** C6.  With a deterministic generator, two runs of the simulator on the
    same parameters and the same seed return the same tuple: the same
    days, on-hand values, positions, order days, arrival days and stockout
    count. *)
Theorem sim_deterministic (T seed : Z) (start_mode : string) (out1 out2 : saida) :
  sim_rel semeia sorteia Q r d_dia L sigma_d_dia clamp_zero T seed start_mode out1 ->
  sim_rel semeia sorteia Q r d_dia L sigma_d_dia clamp_zero T seed start_mode out2 ->
  out1 = out2.
Proof.
  intros H1 H2.
  inversion H1 as [g1 s1 G1 L1]; inversion H2 as [g2 s2 G2 L2]; subst.
  rewrite (semeia_det _ _ _ G1 G2) in *.
  rewrite (laco_rel_det _ _ _ _ L1 L2). reflexivity.
Qed.

End Determinismo.

Section Grafico.

Context {rng : Type}.
Variable default_rng : Z -> rng.
Variable rng_normal : rng -> R -> R -> R * rng.

(** The relations of a generator given by functions. *)
Definition semeia_de (seed : Z) (g : rng) : Prop := g = default_rng seed.
Definition sorteia_de (g : rng) (loc scale z : R) (g' : rng) : Prop :=
  rng_normal g loc scale = (z, g').

Lemma laco_rel_funcional (Q r d_dia : R) (L : Z) (sigma_d_dia : R)
    (clamp_zero : bool) (days : list Z) (s : estado rng) :
  laco_rel sorteia_de Q r d_dia L sigma_d_dia clamp_zero days s
    (laco Q r d_dia L sigma_d_dia clamp_zero rng_normal days s).
Proof.
  revert s. induction days as [|t days IH]; intros s; [constructor |].
  rewrite laco_cons. econstructor; [| apply IH].
  unfold dia, demanda.
  destruct (Rleb sigma_d_dia 0) eqn:E.
  - constructor. constructor. exact E.
  - destruct (rng_normal (gen (chegadas t s)) d_dia sigma_d_dia) as [z g'] eqn:D.
    constructor. constructor; [exact E | exact D].
Qed.

(** The function computes a run of the relation: a result always exists. *)
Lemma sim_rel_funcional (Q r d_dia : R) (L : Z) (sigma_d_dia : R)
    (T seed : Z) (clamp_zero : bool) (start_mode : string) :
  sim_rel semeia_de sorteia_de Q r d_dia L sigma_d_dia clamp_zero T seed start_mode
    (sim_serrilhado_com_leadtime default_rng rng_normal Q r d_dia L sigma_d_dia
       T seed clamp_zero start_mode).
Proof.
  unfold sim_serrilhado_com_leadtime, estado_final.
  econstructor; [reflexivity | apply laco_rel_funcional].
Qed.

End Grafico.

End SimuladorProps.

(** ** Concrete runs *)

Module Exemplos.

Import Simulador SimuladorProps.
Local Open Scope Z_scope.

(** A toy generator: the state counts the draws, and the draws cycle
    through [loc - scale], [loc], [loc + scale]. *)
Definition toy_default_rng (seed : Z) : nat := Z.to_nat seed.

Definition toy_normal (g : nat) (loc scale : R) : R * nat :=
  ((loc + scale * (INR (g mod 3) - 1))%R, S g).

(** Evaluates one day of a run on an explicit state. *)
Ltac dia_eval :=
  match goal with
  | |- context [Simulador.dia ?Q ?r ?d ?L ?sg ?c ?n ?t
                  (Build_estado ?G ?a1 ?a2 ?a3 ?a4 ?a5 ?a6 ?a7 ?a8 ?a9)] =>
    let H := fresh "H" in
    eassert (H : Simulador.dia Q r d L sg c n t
                   (Build_estado G a1 a2 a3 a4 a5 a6 a7 a8 a9) = _);
    [ unfold Simulador.dia, chegadas, demanda, consumo_e_pedido, py_sum,
             pymax0;
      repeat (progress (simpl; rdec));
      reflexivity
    | rewrite H; clear H ]
  end.

(** Evaluates a run day by day. *)
Ltac sim_eval :=
  unfold estado_final, sim_serrilhado_com_leadtime, retorno, inicio, py_range;
  simpl String.eqb; cbv iota; simpl seq; simpl map;
  repeat rewrite laco_cons;
  repeat dia_eval;
  unfold Simulador.laco; simpl.

(** Steady mode, no variability, lead time of one day, horizon of two
    days: nothing is clamped, no order is placed, and the shipment pending
    at the start arrives on day 1. *)
Lemma steady_arrivals_counterexample :
  let s := estado_final toy_default_rng toy_normal 10 5 1 1 0 2 42 true "steady" in
  stockout_days s = 0
  /\ Forall (fun v => (0 <= v)%R) (y_onhand s)
  /\ order_times s = []
  /\ arrival_times s = [1]
  /\ Z.of_nat (List.length (arrival_times s))
     <> Z.of_nat (List.length (filter (fun t => t + 1 <=? 2) (order_times s))).
Proof.
  sim_eval.
  repeat split; try lia.
  repeat constructor; lra.
Qed.

Lemma on_hand_nonneg_and_stockouts_witness :
  Forall (fun v => (0 <= v)%R)
    (y_onhand (estado_final toy_default_rng toy_normal 10 5 1 2 0 5 42 true
                 "steady")).
Proof.
  apply (on_hand_nonneg_and_stockouts toy_default_rng toy_normal
           10 5 1 2 0 5 42 "steady").
  simpl. lra.
Defined.

Lemma zero_lead_time_never_delivers_witness :
  Sorted (fun a b => (b <= a)%R)
    (y_onhand (estado_final toy_default_rng toy_normal 10 5 1 0 2 30 42 true
                 "steady")).
Proof.
  apply (zero_lead_time_never_delivers toy_default_rng toy_normal
           10 5 1 2 30 42 true "steady"); lra.
Defined.

Lemma steady_conservation_witness :
  let s := estado_final toy_default_rng toy_normal 10 5 1 1 0 2 42 true "steady" in
  Forall (fun v => (0 <= v)%R) (y_onhand s)
  /\ stockout_days s = 0
  /\ Z.of_nat (List.length (arrival_times s))
     = Z.of_nat (List.length (filter (fun t => t + 1 <=? 2) (order_times s)))
       + (if 1 <=? 2 then 1 else 0).
Proof.
  apply (steady_conservation toy_default_rng toy_normal 10 5 1 1 2 42 true).
  - lia.
  - lra.
  - unfold inicio, py_range. simpl String.eqb. cbv iota. simpl seq. simpl map.
    cbn [historico]. repeat dia_eval. cbn [historico].
    apply Forall_cons; [| apply Forall_cons; [| apply Forall_nil]];
      unfold falta, chegadas, demanda, py_sum; simpl; rdec; simpl; rdec;
      reflexivity.
Defined.

Lemma sim_deterministic_witness :
  sim_serrilhado_com_leadtime toy_default_rng toy_normal 10 5 1 2 (1 / 2) 5 42
    true "steady"
  = sim_serrilhado_com_leadtime toy_default_rng toy_normal 10 5 1 2 (1 / 2) 5 42
      true "steady".
Proof.
  apply (sim_deterministic (semeia_de toy_default_rng) (sorteia_de toy_normal))
    with (Q := 10%R) (r := 5%R) (d_dia := 1%R) (L := 2) (sigma_d_dia := (1 / 2)%R)
         (clamp_zero := true) (T := 5) (seed := 42) (start_mode := "steady"%string).
  - unfold semeia_de. intros seed g1 g2 H1 H2. rewrite H1, H2. reflexivity.
  - unfold sorteia_de. intros g loc scale z1 g1 z2 g2 H1 H2.
    rewrite H1 in H2. injection H2 as -> ->. split; reflexivity.
  - apply sim_rel_funcional.
  - apply sim_rel_funcional.
Defined.

End Exemplos.

(* ------------------------------------------------------------------ *)
(** ** The lot adjustment on hardware floats

    [ajusta_por_moq_multiplo] once more, on IEEE 754 binary64 numbers with
    round-to-nearest, as CPython and NumPy compute it. *)

Module Binary64.

Import PrimFloat.
Local Open Scope float_scope.
#[local] Set Warnings "-inexact-float".

(** A nonnegative integer below 2^53 as a float (exact). *)
Definition of_Z (n : Z) : float :=
  if (n <? 0)%Z then - of_uint63 (Uint63.of_Z (- n))
  else of_uint63 (Uint63.of_Z n).

(** [np.ceil]: a finite float is [(-1)^s * m * 2^e]; with [e >= 0] it is an
    integer already. *)
Definition ceil (x : float) : float :=
  match FloatOps.Prim2SF x with
  | SpecFloat.S754_finite s m e =>
    if (0 <=? e)%Z then x
    else
      let d := (2 ^ (- e))%Z in
      let q := (Z.pos m / d)%Z in
      let rem := (Z.pos m mod d)%Z in
      if s then of_Z (- q)
      else of_Z (if (0 <? rem)%Z then q + 1 else q)
  | _ => x
  end.

(** Lines 157-165 on floats ([q] is not [None]). *)
Definition ajusta_por_moq_multiplo (q moq mult : float) : float :=
  if is_nan q then q
  else
    let q_adj := q in
    let q_adj :=
      if negb (moq =? 0) && (0 <? moq) && (q_adj <? moq) then moq else q_adj in
    if negb (mult =? 0) && (0 <? mult) then mult * ceil (q_adj / mult)
    else q_adj.

Example ceil_examples :
  ceil 2.5 = 3 /\ ceil (-2.5) = -2 /\ ceil 3 = 3 /\ ceil 0.25 = 1
  /\ ceil 2.9999999999999996 = 3 /\ ceil 3.0000000000000004 = 4.
Proof. vm_compute. repeat split; reflexivity. Qed.

(** A lot multiple of 0.1 and a raw quantity of 0.3: the quotient
    [0.3 / 0.1] rounds to just under 3, the adjusted lot [0.1 * 3] rounds
    to just over 0.3, and a second application moves it to 0.4. *)
Lemma ajusta_not_idempotent_binary64 :
  (0.3 / 0.1 = 2.9999999999999996)
  /\ ajusta_por_moq_multiplo 0.3 0 0.1 = 0.30000000000000004
  /\ ajusta_por_moq_multiplo (ajusta_por_moq_multiplo 0.3 0 0.1) 0 0.1 = 0.4
  /\ (ajusta_por_moq_multiplo (ajusta_por_moq_multiplo 0.3 0 0.1) 0 0.1
       =? ajusta_por_moq_multiplo 0.3 0 0.1) = false.
Proof. vm_compute. repeat split; reflexivity. Qed.

End Binary64.

(* ------------------------------------------------------------------ *)
(** ** The ranking *)

Module RankingProps.

Import Pandas Ranking MultiSKU.
Local Open Scope num_scope.

(** What NumPy promises of [argsort] on keys without NaN, whatever the
    kind: the positions of the keys, each once, in an order in which the
    keys do not decrease. *)
Definition ordena (argsort : list num -> list nat) : Prop :=
  forall l : list num,
    Forall (fun v => N.isnan v = false) l ->
    Permutation (argsort l) (seq 0 (List.length l))
    /\ StronglySorted (fun i j => (nth i l NaN <=? nth j l NaN) = true)
         (argsort l).

Section Listas.

Context {A : Type}.

Lemma take_app (df : list A) (a b : list nat) :
  take df (a ++ b)
  = (ra <- take df a ;; rb <- take df b ;; Val (ra ++ rb)).
Proof.
  induction a as [|i a IH]; simpl.
  - destruct (take df b); reflexivity.
  - destruct (nth_error df i); [| reflexivity].
    rewrite IH. destruct (take df a); simpl; [| reflexivity].
    destruct (take df b); reflexivity.
Qed.

Lemma take_spec (df : list A) (idx : list nat) :
  Forall (fun i => (i < List.length df)%nat) idx ->
  exists rows, take df idx = Val rows
               /\ Forall2 (fun i row => nth_error df i = Some row) idx rows.
Proof.
  induction 1 as [|i idx Hi _ IH]; simpl.
  - exists []. split; [reflexivity | constructor].
  - destruct (nth_error df i) as [row|] eqn:E.
    + destruct IH as (rows & -> & F). exists (row :: rows). simpl.
      split; [reflexivity | constructor; assumption].
    + apply nth_error_Some in Hi. contradiction.
Qed.

Lemma nth_error_seq_all (df : list A) :
  map (nth_error df) (seq 0 (List.length df)) = map Some df.
Proof.
  induction df as [|x df IH] using rev_ind; [reflexivity |].
  rewrite length_app. simpl List.length.
  rewrite Nat.add_1_r, seq_S, !map_app. simpl.
  rewrite nth_error_app2, Nat.sub_diag by lia. simpl.
  rewrite <- IH. f_equal. apply map_ext_in.
  intros i Hi. apply in_seq in Hi. apply nth_error_app1. lia.
Qed.

Lemma Forall2_rows (df : list A) (idx : list nat) (rows : list A) :
  Forall2 (fun i row => nth_error df i = Some row) idx rows ->
  map (nth_error df) idx = map Some rows.
Proof. induction 1; simpl; congruence. Qed.

Lemma map_Some_inj (l1 l2 : list A) : map Some l1 = map Some l2 -> l1 = l2.
Proof.
  revert l2. induction l1 as [|x l1 IH]; intros [|y l2] H; simpl in H;
    try discriminate; [reflexivity |].
  injection H as -> H. f_equal. apply IH. exact H.
Qed.

Lemma rows_permutation (df : list A) (idx : list nat) (rows : list A) :
  Permutation idx (seq 0 (List.length df)) ->
  Forall2 (fun i row => nth_error df i = Some row) idx rows ->
  Permutation rows df.
Proof.
  intros P F. apply Forall2_rows in F.
  apply (Permutation_map (nth_error df)) in P.
  rewrite F, nth_error_seq_all in P.
  apply Permutation_sym, Permutation_map_inv in P as (l3 & E & P).
  apply map_Some_inj in E. subst l3. exact P.
Qed.

(** The rows at the positions that satisfy a test on the row, in
    increasing order of position, are the rows that satisfy it. *)
Lemma rows_filter (df : list A) (q : nat -> bool) (p : A -> bool) :
  (forall i row, nth_error df i = Some row -> q i = p row) ->
  map (nth_error df) (filter q (seq 0 (List.length df))) = map Some (filter p df).
Proof.
  induction df as [|x df IH] using rev_ind; intros H; [reflexivity |].
  rewrite length_app. simpl List.length.
  rewrite Nat.add_1_r, seq_S, !filter_app, !map_app. simpl.
  assert (Hx : q (List.length df) = p x).
  { apply H. rewrite nth_error_app2, Nat.sub_diag by lia. reflexivity. }
  rewrite Hx. f_equal.
  - rewrite <- IH.
    + apply map_ext_in. intros i Hi. apply filter_In in Hi as [Hi _].
      apply in_seq in Hi. apply nth_error_app1. lia.
    + intros i row E. apply H. rewrite nth_error_app1; [exact E |].
      apply nth_error_Some. congruence.
  - destruct (p x); simpl; [| reflexivity].
    rewrite nth_error_app2, Nat.sub_diag by lia. reflexivity.
Qed.

Lemma StronglySorted_snoc_gen (R : A -> A -> Prop) (l : list A) (b : A) :
  StronglySorted R l -> Forall (fun y => R y b) l -> StronglySorted R (l ++ [b]).
Proof.
  induction 1 as [|d l Hs IH Hd]; intros Hb; simpl.
  - repeat constructor.
  - inversion Hb; subst. constructor; [apply IH; assumption |].
    apply Forall_app. split; [assumption | repeat constructor; assumption].
Qed.

Lemma StronglySorted_rev (R : A -> A -> Prop) (l : list A) :
  StronglySorted R l -> StronglySorted (fun a b => R b a) (rev l).
Proof.
  induction 1 as [|d l Hs IH Hd]; simpl; [constructor |].
  apply StronglySorted_snoc_gen; [exact IH |].
  apply Forall_rev. exact Hd.
Qed.

Lemma partition_permutation (f : A -> bool) (l : list A) :
  Permutation (filter f l ++ filter (fun a => negb (f a)) l) l.
Proof.
  induction l as [|a l IH]; simpl; [constructor |].
  destruct (f a); simpl.
  - constructor. exact IH.
  - apply Permutation_sym, Permutation_cons_app, Permutation_sym. exact IH.
Qed.

End Listas.

Lemma StronglySorted_Forall2 {A B : Type} (R : A -> A -> Prop)
    (S : B -> B -> Prop) (T : A -> B -> Prop) (la : list A) (lb : list B) :
  (forall a a' b b', T a b -> T a' b' -> R a a' -> S b b') ->
  Forall2 T la lb -> StronglySorted R la -> StronglySorted S lb.
Proof.
  intros H F. induction F as [|a b la lb Hab F IH]; intros Hs; [constructor |].
  inversion Hs as [|? ? Hs' Hf]; subst. constructor; [apply IH; exact Hs' |].
  clear IH Hs Hs'. induction F as [|a' b' la lb Hab' F IH]; [constructor |].
  inversion Hf; subst. constructor; [eapply H; eassumption | apply IH; assumption].
Qed.

Lemma Forall2_Forall {A B : Type} (T : A -> B -> Prop) (P : A -> Prop)
    (Q : B -> Prop) (la : list A) (lb : list B) :
  (forall a b, T a b -> P a -> Q b) ->
  Forall2 T la lb -> Forall P la -> Forall Q lb.
Proof.
  intros H F. induction F; intros Hp; [constructor |].
  inversion Hp; subst. constructor; eauto.
Qed.

(** The keys at the positions that satisfy a test on the key. *)
Lemma keys_filter (items : list num) (p : num -> bool) :
  map (fun i => nth i items NaN)
      (filter (fun i => p (nth i items NaN)) (seq 0 (List.length items)))
  = filter p items.
Proof.
  induction items as [|x items IH] using rev_ind; [reflexivity |].
  rewrite length_app. simpl List.length.
  rewrite Nat.add_1_r, seq_S, !filter_app, !map_app. simpl.
  rewrite app_nth2, Nat.sub_diag by lia. simpl. f_equal.
  - rewrite <- IH.
    rewrite (filter_ext_in (fun i => p (nth i (items ++ [x]) NaN))
               (fun i => p (nth i items NaN))).
    + apply map_ext_in. intros i Hi. apply filter_In in Hi as [Hi _].
      apply in_seq in Hi. apply app_nth1. lia.
    + intros i Hi. apply in_seq in Hi. rewrite app_nth1 by lia. reflexivity.
  - destruct (p x); simpl; [| reflexivity].
    rewrite app_nth2, Nat.sub_diag by lia. reflexivity.
Qed.

Lemma map_nth_seq (l : list nat) :
  map (fun j => nth j l 0%nat) (seq 0 (List.length l)) = l.
Proof.
  induction l as [|x l IH] using rev_ind; [reflexivity |].
  rewrite length_app. simpl List.length.
  rewrite Nat.add_1_r, seq_S, map_app. simpl.
  rewrite app_nth2, Nat.sub_diag by lia. simpl. f_equal.
  rewrite <- IH at 2. apply map_ext_in. intros i Hi. apply in_seq in Hi.
  apply app_nth1. lia.
Qed.

Lemma Forall2_map_in {A B : Type} (g : A -> B) (P : A -> Prop) (l : list A) :
  Forall P l -> Forall2 (fun a b => b = g a /\ P a) l (map g l).
Proof. induction 1; simpl; constructor; auto. Qed.

(** The positions that [nargsort] returns for a descending sort: first the
    positions of the keys that are not NaN, their keys not increasing, then
    the positions of the NaN keys in increasing order. *)
Lemma nargsort_descending (argsort : list num -> list nat) (items : list num) :
  ordena argsort ->
  exists F : list nat,
    nargsort argsort items false
    = F ++ filter (fun i => N.isnan (nth i items NaN)) (seq 0 (List.length items))
    /\ Permutation (nargsort argsort items false) (seq 0 (List.length items))
    /\ Forall (fun i => N.isnan (nth i items NaN) = false) F
    /\ StronglySorted
         (fun i j => (nth j items NaN <=? nth i items NaN) = true) F.
Proof.
  intros Hs. unfold nargsort.
  set (n := List.length items).
  set (key := fun i => nth i items NaN).
  set (nn := filter (fun v => negb (N.isnan v)) items).
  set (nni := filter (fun i => negb (N.isnan (key i))) (seq 0 n)).
  set (Nn := filter (fun i => N.isnan (key i)) (seq 0 n)).
  assert (Hk : map key nni = nn).
  { apply (keys_filter items (fun v => negb (N.isnan v))). }
  assert (Hlen : List.length (rev nni) = List.length (rev nn)).
  { rewrite !length_rev, <- Hk, length_map. reflexivity. }
  assert (Hrev : rev nn = map key (rev nni)).
  { rewrite <- Hk, map_rev. reflexivity. }
  assert (Fnn : Forall (fun v => N.isnan v = false) (rev nn)).
  { apply Forall_rev. apply Forall_forall. intros v Hv.
    apply filter_In in Hv as [_ Hv]. apply negb_true_iff in Hv. exact Hv. }
  destruct (Hs (rev nn) Fnn) as [Pa Sa].
  set (a := argsort (rev nn)) in *.
  set (g := fun j => nth j (rev nni) 0%nat).
  assert (Pg : Permutation (map g a) nni).
  { apply Permutation_trans with (rev nni); [| apply Permutation_sym, Permutation_rev].
    pose proof (Permutation_map g Pa) as Pm.
    rewrite <- Hlen in Pm. unfold g in Pm at 2.
    rewrite map_nth_seq in Pm. exact Pm. }
  assert (PF : Permutation (rev (map g a)) nni).
  { apply Permutation_trans with (map g a);
      [apply Permutation_sym, Permutation_rev | exact Pg]. }
  exists (rev (map g a)). split; [reflexivity |]. split; [| split].
  - apply Permutation_trans with (nni ++ Nn).
    + apply Permutation_app_tail. exact PF.
    + unfold nni, Nn.
      rewrite (filter_ext (fun i => N.isnan (key i))
                 (fun i => negb (negb (N.isnan (key i)))))
        by (intros; rewrite negb_involutive; reflexivity).
      apply (partition_permutation (fun i => negb (N.isnan (key i)))).
  - apply Forall_forall. intros i Hi.
    apply (Permutation_in _ PF) in Hi. apply filter_In in Hi as [_ Hi].
    apply negb_true_iff in Hi. exact Hi.
  - apply (StronglySorted_rev (fun i j => (key i <=? key j) = true)).
    assert (Fa : Forall (fun j => (j < List.length (rev nn))%nat) a).
    { apply Forall_forall. intros j Hj.
      apply (Permutation_in _ Pa) in Hj. apply in_seq in Hj. lia. }
    apply (StronglySorted_Forall2
             (fun i j => (nth i (rev nn) NaN <=? nth j (rev nn) NaN) = true)
             (fun i j => (key i <=? key j) = true)
             (fun j i => i = g j /\ (j < List.length (rev nn))%nat)
             a (map g a)); [| apply Forall2_map_in; exact Fa | exact Sa].
    intros j j' i i' [-> Hj] [-> Hj'] Hle.
    assert (E : forall u, (u < List.length (rev nn))%nat ->
                          key (g u) = nth u (rev nn) NaN).
    { intros u Hu. unfold g. rewrite Hrev.
      rewrite (nth_indep _ NaN (key 0%nat)) by (rewrite length_map, Hlen; exact Hu).
      rewrite map_nth. reflexivity. }
    rewrite !E by assumption. exact Hle.
Qed.

Lemma key_of_row {A : Type} (df : list A) (by_ : A -> num) (i : nat) (row : A) :
  nth_error df i = Some row -> nth i (map by_ df) NaN = by_ row.
Proof.
  intros E. apply nth_error_nth. rewrite nth_error_map, E. reflexivity.
Qed.

(** [sort_values(by, ascending=False)] under any [argsort] that sorts. *)
Lemma sort_values_descending {A : Type} (argsort : list num -> list nat)
    (df : list A) (by_ : A -> num) :
  ordena argsort ->
  exists rank fin : list A,
    sort_values argsort df by_ false = Val rank
    /\ Permutation rank df
    /\ rank = fin ++ filter (fun x => N.isnan (by_ x)) df
    /\ Forall (fun x => N.isnan (by_ x) = false) fin
    /\ StronglySorted (fun a b => (by_ b <=? by_ a) = true) fin.
Proof.
  intros Hs. unfold sort_values.
  destruct (nargsort_descending argsort (map by_ df) Hs) as (F & -> & P & Fn & Ss).
  rewrite length_map in *.
  set (Nn := filter (fun i => N.isnan (nth i (map by_ df) NaN))
               (seq 0 (List.length df))) in *.
  assert (Hv : Forall (fun i => (i < List.length df)%nat) (F ++ Nn)).
  { apply Forall_forall. intros i Hi. apply (Permutation_in _ P) in Hi.
    apply in_seq in Hi. lia. }
  apply Forall_app in Hv as [HvF HvN].
  destruct (take_spec df F HvF) as (rF & EF & F2F).
  destruct (take_spec df Nn HvN) as (rN & EN & F2N).
  rewrite take_app, EF, EN. cbn [bind].
  assert (HN : rN = filter (fun x => N.isnan (by_ x)) df).
  { apply map_Some_inj. rewrite <- (Forall2_rows _ _ _ F2N). unfold Nn.
    apply rows_filter. intros i row E. rewrite (key_of_row df by_ i row E).
    reflexivity. }
  exists (rF ++ rN), rF. split; [reflexivity |]. split; [| split; [| split]].
  - apply (rows_permutation df (F ++ Nn)); [exact P |].
    apply Forall2_app; assumption.
  - rewrite HN. reflexivity.
  - apply (Forall2_Forall (fun i row => nth_error df i = Some row)
             (fun i => N.isnan (nth i (map by_ df) NaN) = false)
             (fun x => N.isnan (by_ x) = false) F rF); [| exact F2F | exact Fn].
    intros i row E H. rewrite (key_of_row df by_ i row E) in H. exact H.
  - apply (StronglySorted_Forall2
             (fun i j => (nth j (map by_ df) NaN <=? nth i (map by_ df) NaN) = true)
             (fun a b => (by_ b <=? by_ a) = true)
             (fun i row => nth_error df i = Some row) F rF);
      [| exact F2F | exact Ss].
    intros i j a b Ea Eb H.
    rewrite (key_of_row df by_ i a Ea), (key_of_row df by_ j b Eb) in H. exact H.
Qed.

(** *** The evaluator never raises *)


Lemma eoq_returns_m (D Kc h : num) : exists e, eoq (Some D) Kc h = Val e.
Proof. exact (EconomiaProps.eoq_returns D Kc h). Qed.

Lemma ajusta_returns_m (q moq mult : num) :
  exists q1, ajusta_por_moq_multiplo (Some q) moq mult = Val (Some q1).
Proof.
  destruct (EconomiaProps.ajusta_returns q moq mult) as (q1 & E & _).
  exists q1. exact E.
Qed.

Lemma custos_returns_m (Q : option num) (D Kc h SS : num) :
  exists a b c, custos_periodicos Q D Kc h SS = Val (a, b, c).
Proof. exact (EconomiaProps.custos_returns Q D Kc h SS). Qed.

Lemma lead_time_stats_returns_m (D_base sigma_base L : num) (base : string) :
  exists mu_L sigma_L d_dia sigma_d_dia,
    lead_time_stats_from_base D_base sigma_base L base
    = Val (mu_L, sigma_L, d_dia, sigma_d_dia).
Proof. exact (EconomiaProps.lead_time_stats_returns D_base sigma_base L base). Qed.



Section Avaliador.

Variable norm_ppf : num -> num.
Variable base_key_multi : string.
Variable aplicar_restricoes : bool.
Variable heuristica_baseline : heuristica.




End Avaliador.

(** *** A sort that keeps the promise *)

(** Insertion sort of the positions, a new position going after the
    positions whose key is equal: what NumPy's quicksort does on a stretch
    of at most 17 keys. *)
Fixpoint insere (l : list num) (i : nat) (sorted : list nat) : list nat :=
  match sorted with
  | [] => [i]
  | j :: rest =>
    if nth i l NaN <? nth j l NaN then i :: j :: rest
    else j :: insere l i rest
  end.

Definition argsort_insercao (l : list num) : list nat :=
  fold_left (fun acc i => insere l i acc) (seq 0 (List.length l)) [].

Lemma leb_trans (a b c : num) :
  (a <=? b) = true -> (b <=? c) = true -> (a <=? c) = true.
Proof.
  destruct a, b, c; simpl; try discriminate; try reflexivity.
  intros H1 H2. apply Rleb_spec in H1. apply Rleb_spec in H2.
  apply Rleb_true. lra.
Qed.

Lemma ltb_leb (a b : num) : (a <? b) = true -> (a <=? b) = true.
Proof.
  destruct a, b; simpl; try discriminate; try reflexivity.
  intros H. apply Rltb_spec in H. apply Rleb_true. lra.
Qed.

Lemma ltb_false_leb (a b : num) :
  N.isnan a = false -> N.isnan b = false ->
  (a <? b) = false -> (b <=? a) = true.
Proof.
  destruct a, b; simpl; try discriminate; try reflexivity.
  intros _ _ H. apply Rltb_false_inv in H. apply Rleb_true. exact H.
Qed.

Lemma insere_permutation (l : list num) (i : nat) (s : list nat) :
  Permutation (insere l i s) (i :: s).
Proof.
  induction s as [|j s IH]; simpl; [reflexivity |].
  destruct (nth i l NaN <? nth j l NaN); [reflexivity |].
  apply Permutation_trans with (j :: i :: s); [constructor; exact IH | constructor].
Qed.

Lemma insere_sorted (l : list num) (i : nat) (s : list nat) :
  Forall (fun v => N.isnan v = false) l ->
  (i < List.length l)%nat -> Forall (fun j => (j < List.length l)%nat) s ->
  StronglySorted (fun i j => (nth i l NaN <=? nth j l NaN) = true) s ->
  StronglySorted (fun i j => (nth i l NaN <=? nth j l NaN) = true) (insere l i s).
Proof.
  intros Hl Hi Hb Hs.
  assert (Hnan : forall j, (j < List.length l)%nat -> N.isnan (nth j l NaN) = false).
  { intros j Hj. rewrite Forall_forall in Hl. apply Hl. apply nth_In. exact Hj. }
  induction Hs as [|j s Hs IH Hf]; simpl; [repeat constructor |].
  inversion Hb as [|? ? Hj Hb']; subst.
  destruct (nth i l NaN <? nth j l NaN) eqn:E.
  - apply ltb_leb in E.
    constructor; [constructor; assumption |].
    constructor; [exact E |].
    eapply Forall_impl; [| exact Hf]. simpl. intros k Hk.
    eapply leb_trans; eassumption.
  - constructor; [apply IH; exact Hb' |].
    apply (Permutation_Forall (Permutation_sym (insere_permutation l i s))).
    constructor; [| exact Hf].
    apply ltb_false_leb; auto.
Qed.

Lemma argsort_insercao_ordena : ordena argsort_insercao.
Proof.
  intros l Hl. unfold argsort_insercao.
  assert (H : forall idxs acc,
             Forall (fun j => (j < List.length l)%nat) idxs ->
             Forall (fun j => (j < List.length l)%nat) acc ->
             StronglySorted (fun i j => (nth i l NaN <=? nth j l NaN) = true) acc ->
             Permutation (fold_left (fun acc i => insere l i acc) idxs acc)
                         (idxs ++ acc)
             /\ StronglySorted (fun i j => (nth i l NaN <=? nth j l NaN) = true)
                  (fold_left (fun acc i => insere l i acc) idxs acc)).
  { induction idxs as [|i idxs IH]; intros acc Hi Ha Hs; simpl; [auto |].
    inversion Hi; subst.
    destruct (IH (insere l i acc)) as [P S]; try assumption.
    - apply (Permutation_Forall (Permutation_sym (insere_permutation l i acc))).
      constructor; assumption.
    - apply insere_sorted; assumption.
    - split; [| exact S].
      apply Permutation_trans with (idxs ++ insere l i acc); [exact P |].
      apply Permutation_trans with (idxs ++ i :: acc).
      + apply Permutation_app_head, insere_permutation.
      + apply Permutation_sym, Permutation_middle. }
  destruct (H (seq 0 (List.length l)) []) as [P S].
  - apply Forall_forall. intros j Hj. apply in_seq in Hj. lia.
  - constructor.
  - constructor.
  - rewrite app_nil_r in P. auto.
Qed.

End RankingProps.

Module RankingExemplos.

Import Pandas Ranking MultiSKU RankingProps.
Local Open Scope num_scope.

(** A row of the table: every SKU built this way has the same figures. *)
Definition linha_exemplo (sku : string) : linha :=
  {| SKU := sku; D_per := Fin 2; sigma_per := Fin 0; v := Fin 12;
     i_anual := Fin 1; K := Fin 1; L_dias := Fin 1; MOQ := Fin 0;
     Multiplo := Fin 0; SL := Fin 95; Q_base := Fin 4; r_base := NaN |}.


(** *** Eighteen rows with the same savings *)







(** Up to seventeen equal keys stay where they are. *)
Example aquicksort_17_iguais :
  NumPy.aquicksort (fun _ _ => false) 17 = seq 0 17.
Proof. vm_compute. reflexivity. Qed.

(** The sort on keys that differ: 25 keys, with repetitions. *)
Example aquicksort_sorts :
  let ks := [5; 3; 9; 1; 7; 3; 8; 2; 6; 4; 0; 11; 15; 13; 12; 14; 10; 19; 17;
             18; 16; 3; 3; 5; 5]%nat in
  map (fun i => nth i ks 0%nat)
    (NumPy.aquicksort (fun i j => Nat.ltb (nth i ks 0%nat) (nth j ks 0%nat)) 25)
  = [0; 1; 2; 3; 3; 3; 3; 4; 5; 5; 5; 6; 7; 8; 9; 10; 11; 12; 13; 14; 15; 16;
     17; 18; 19]%nat.
Proof. vm_compute. reflexivity. Qed.





End RankingExemplos.

(* ------------------------------------------------------------------ *)
(** * Further properties of the engine *)

(** ** Lead-time statistics *)

Module LeadTimeProps.

Import Calculadora.
Local Open Scope num_scope.

(** Days of the base period: 7 for ["semanal"], 30 for anything else. *)
Definition dias_base (base : string) : R :=
  if String.eqb base "semanal" then 7%R else 30%R.

Lemma dias_base_pos (base : string) : (0 < dias_base base)%R.
Proof. unfold dias_base. destruct (String.eqb base "semanal"); lra. Qed.

(** On real inputs the statistics are real numbers, with the lead time
    floored at one day under the square root only. *)
Lemma lead_time_stats_fin (D s L : R) (base : string) :
  lead_time_stats_from_base (Fin D) (Fin s) (Fin L) base
  = Val (Fin (D / dias_base base * L),
         Fin (s / sqrt (dias_base base) * sqrt (if Rltb L 1 then 1 else L)),
         Fin (D / dias_base base),
         Fin (s / sqrt (dias_base base))).
Proof.
  unfold lead_time_stats_from_base, dias_base, truediv, N.pymax, N.gtb.
  assert (S7 : sqrt 7 <> 0%R) by (pose proof (sqrt_lt_R0 7); lra).
  assert (S30 : sqrt 30 <> 0%R) by (pose proof (sqrt_lt_R0 30); lra).
  destruct (String.eqb base "semanal"); simpl; rdec; simpl;
    rewrite ?(Reqb_false (sqrt 7) 0), ?(Reqb_false (sqrt 30) 0) by assumption;
    simpl;
    rewrite ?(Reqb_false (sqrt 7) 0), ?(Reqb_false (sqrt 30) 0) by assumption;
    destruct (Rltb L 1) eqn:E; simpl;
    [ rdec | apply Rltb_false_inv in E; rewrite (Rltb_false L 0) by lra
    | rdec | apply Rltb_false_inv in E; rewrite (Rltb_false L 0) by lra ];
    reflexivity.
Qed.

(** X1.  Doubling a lead time of at least one day doubles the mean
    lead-time demand and multiplies its standard deviation by [sqrt 2]; the
    daily figures do not change. *)
Theorem lead_time_doubling (D s L : R) (base : string) :
  (1 <= L)%R ->
  exists mu_L sigma_L d_dia sigma_d_dia : R,
    lead_time_stats_from_base (Fin D) (Fin s) (Fin L) base
    = Val (Fin mu_L, Fin sigma_L, Fin d_dia, Fin sigma_d_dia)
    /\ lead_time_stats_from_base (Fin D) (Fin s) (Fin (2 * L)) base
       = Val (Fin (2 * mu_L), Fin (sqrt 2 * sigma_L), Fin d_dia, Fin sigma_d_dia).
Proof.
  intros HL. do 4 eexists. rewrite !lead_time_stats_fin.
  rewrite (Rltb_false L 1), (Rltb_false (2 * L) 1) by lra.
  split; [reflexivity |]. do 3 f_equal. f_equal.
  - f_equal. lra.
  - f_equal. rewrite sqrt_mult by lra. lra.
Qed.

Lemma lead_time_doubling_witness :
  exists mu_L sigma_L d_dia sigma_d_dia : R,
    lead_time_stats_from_base (Fin 600) (Fin 180) (Fin 10) "semanal"
    = Val (Fin mu_L, Fin sigma_L, Fin d_dia, Fin sigma_d_dia)
    /\ lead_time_stats_from_base (Fin 600) (Fin 180) (Fin (2 * 10)) "semanal"
       = Val (Fin (2 * mu_L), Fin (sqrt 2 * sigma_L), Fin d_dia, Fin sigma_d_dia).
Proof. apply (lead_time_doubling 600 180 10 "semanal"). lra. Defined.

(** X2.  A lead time of one day or less (zero and negative ones too) is
    taken as one day under the square root: the standard deviation over the
    lead time is the daily one, while the mean lead-time demand still uses
    the lead time as given. *)
Theorem lead_time_floor (D s L : R) (base : string) :
  (L <= 1)%R ->
  exists d_dia sigma_d_dia : R,
    lead_time_stats_from_base (Fin D) (Fin s) (Fin L) base
    = Val (Fin (d_dia * L), Fin sigma_d_dia, Fin d_dia, Fin sigma_d_dia).
Proof.
  intros HL. do 2 eexists. rewrite lead_time_stats_fin.
  assert (E : sqrt (if Rltb L 1 then 1 else L) = 1%R).
  { destruct (Rltb L 1) eqn:E; [apply sqrt_1 |].
    apply Rltb_false_inv in E. replace L with 1%R by lra. apply sqrt_1. }
  rewrite E, Rmult_1_r. reflexivity.
Qed.

Lemma lead_time_floor_witness :
  exists d_dia sigma_d_dia : R,
    lead_time_stats_from_base (Fin 1500) (Fin 300) (Fin 0) "mensal"
    = Val (Fin (d_dia * 0), Fin sigma_d_dia, Fin d_dia, Fin sigma_d_dia).
Proof. apply (lead_time_floor 1500 300 0 "mensal"). lra. Defined.

End LeadTimeProps.

(** ** The economic order quantity and the cost model *)

Module EoqProps.

Import Calc.
Local Open Scope num_scope.

Lemma custos_fin (Q D K h SS : R) :
  (0 < Q)%R -> (0 < D)%R -> (0 <= K)%R -> (0 <= h)%R ->
  custos_periodicos (Some (Fin Q)) (Fin D) (Fin K) (Fin h) (Fin SS)
  = Val (Fin (K * D / Q),
         Fin (h * (Q / 2 + (if Rltb 0 SS then SS else 0))),
         Fin (K * D / Q + h * (Q / 2 + (if Rltb 0 SS then SS else 0)))).
Proof.
  intros HQ HD HK Hh.
  unfold custos_periodicos, truediv, N.pymax, N.gtb; simpl.
  rdec; simpl. rdec. destruct (Rltb 0 SS); reflexivity.
Qed.

(** X3.  At the economic order quantity, and without safety stock, the
    ordering cost equals the holding cost and the total cost per period is
    [sqrt(2*K*D*h)]. *)
Theorem eoq_balances_costs (D K h : R) :
  (0 < D)%R -> (0 < K)%R -> (0 < h)%R ->
  exists q c_ped c_pos : R,
    eoq (Fin D) (Fin K) (Fin h) = Val (Fin q)
    /\ custos_periodicos (Some (Fin q)) (Fin D) (Fin K) (Fin h) (Fin 0)
       = Val (Fin c_ped, Fin c_pos, Fin (c_ped + c_pos))
    /\ c_ped = c_pos
    /\ (c_ped + c_pos)%R = sqrt (2 * K * D * h).
Proof.
  intros HD HK Hh.
  set (a := (2 * K * D / h)%R).
  assert (Ha : (0 < a)%R).
  { unfold a. apply Rmult_lt_0_compat; [nra | apply Rinv_0_lt_compat; lra]. }
  assert (Hq : (0 < sqrt a)%R) by (apply sqrt_lt_R0; exact Ha).
  assert (Hqq : (sqrt a * sqrt a = a)%R) by (apply sqrt_sqrt; lra).
  assert (Hha : (h * a = 2 * K * D)%R) by (unfold a; field; lra).
  assert (Hbal : (K * D / sqrt a = h * (sqrt a / 2 + 0))%R).
  { apply Rmult_eq_reg_r with (sqrt a); [| lra].
    replace (K * D / sqrt a * sqrt a)%R with (K * D)%R by (field; lra).
    replace (h * (sqrt a / 2 + 0) * sqrt a)%R
      with (h * (sqrt a * sqrt a) / 2)%R by field.
    rewrite Hqq. lra. }
  exists (sqrt a), (K * D / sqrt a)%R, (h * (sqrt a / 2 + 0))%R.
  split; [apply CalcProps.eoq_fin; lra |]. split; [| split; [exact Hbal |]].
  - rewrite custos_fin by lra. rewrite (Rltb_false 0 0) by lra. reflexivity.
  - rewrite Hbal. symmetry.
    replace (2 * K * D * h)%R
      with ((h * (sqrt a / 2 + 0) + h * (sqrt a / 2 + 0))
            * (h * (sqrt a / 2 + 0) + h * (sqrt a / 2 + 0)))%R.
    + apply sqrt_square. nra.
    + replace ((h * (sqrt a / 2 + 0) + h * (sqrt a / 2 + 0))
               * (h * (sqrt a / 2 + 0) + h * (sqrt a / 2 + 0)))%R
        with (h * (h * (sqrt a * sqrt a)))%R by field.
      rewrite Hqq, Hha. ring.
Qed.

Lemma eoq_balances_costs_witness :
  exists q c_ped c_pos : R,
    eoq (Fin 600) (Fin 200) (Fin 1) = Val (Fin q)
    /\ custos_periodicos (Some (Fin q)) (Fin 600) (Fin 200) (Fin 1) (Fin 0)
       = Val (Fin c_ped, Fin c_pos, Fin (c_ped + c_pos))
    /\ c_ped = c_pos
    /\ (c_ped + c_pos)%R = sqrt (2 * 200 * 600 * 1).
Proof. apply (eoq_balances_costs 600 200 1); lra. Defined.

(** X4.  The economic order quantity does not decrease when the demand or
    the order cost go up, and does not increase when the holding cost goes
    up. *)
Theorem eoq_monotone (D1 D2 K1 K2 h1 h2 : R) :
  (0 < D1 <= D2)%R -> (0 <= K1 <= K2)%R -> (0 < h2 <= h1)%R ->
  exists q1 q2 : R,
    eoq (Fin D1) (Fin K1) (Fin h1) = Val (Fin q1)
    /\ eoq (Fin D2) (Fin K2) (Fin h2) = Val (Fin q2)
    /\ (q1 <= q2)%R.
Proof.
  intros HD HK Hh.
  exists (sqrt (2 * K1 * D1 / h1)), (sqrt (2 * K2 * D2 / h2)).
  split; [apply CalcProps.eoq_fin; lra |].
  split; [apply CalcProps.eoq_fin; lra |].
  assert (H1 : (0 < / h1)%R) by (apply Rinv_0_lt_compat; lra).
  assert (H2 : (0 < / h2)%R) by (apply Rinv_0_lt_compat; lra).
  assert (Hinv : (/ h1 <= / h2)%R) by (apply Rinv_le_contravar; lra).
  assert (Hn : (0 <= 2 * K1 * D1 <= 2 * K2 * D2)%R) by nra.
  apply sqrt_le_1.
  - apply Rmult_le_pos; lra.
  - apply Rmult_le_pos; lra.
  - unfold Rdiv. apply Rmult_le_compat; lra.
Qed.

Lemma eoq_monotone_witness :
  exists q1 q2 : R,
    eoq (Fin 600) (Fin 200) (Fin 2) = Val (Fin q1)
    /\ eoq (Fin 900) (Fin 250) (Fin 1) = Val (Fin q2)
    /\ (q1 <= q2)%R.
Proof. apply (eoq_monotone 600 900 200 250 2 1); lra. Defined.

(** X5.  A safety stock adds [h * SS] to the holding cost and to the total
    and leaves the ordering cost alone; a negative safety stock counts as
    none. *)
Theorem custos_safety_stock_shift (Q D K h SS : R) :
  (0 < Q)%R -> (0 < D)%R -> (0 <= K)%R -> (0 <= h)%R ->
  exists c_ped c_pos : R,
    custos_periodicos (Some (Fin Q)) (Fin D) (Fin K) (Fin h) (Fin 0)
    = Val (Fin c_ped, Fin c_pos, Fin (c_ped + c_pos))
    /\ custos_periodicos (Some (Fin Q)) (Fin D) (Fin K) (Fin h) (Fin SS)
       = Val (Fin c_ped, Fin (c_pos + h * Rmax 0 SS),
              Fin (c_ped + (c_pos + h * Rmax 0 SS)))
    /\ ((SS <= 0)%R ->
        custos_periodicos (Some (Fin Q)) (Fin D) (Fin K) (Fin h) (Fin SS)
        = custos_periodicos (Some (Fin Q)) (Fin D) (Fin K) (Fin h) (Fin 0)).
Proof.
  intros HQ HD HK Hh.
  exists (K * D / Q)%R, (h * (Q / 2 + 0))%R.
  rewrite !custos_fin by lra. rewrite (Rltb_false 0 0) by lra.
  split; [reflexivity |]. split.
  - destruct (Rltb 0 SS) eqn:E.
    + apply Rltb_spec in E. rewrite Rmax_right by lra.
      replace (h * (Q / 2 + SS))%R with (h * (Q / 2 + 0) + h * SS)%R by ring.
      reflexivity.
    + apply Rltb_false_inv in E. rewrite Rmax_left by lra.
      replace (h * (Q / 2 + 0) + h * 0)%R with (h * (Q / 2 + 0))%R by ring.
      reflexivity.
  - intros HSS. rewrite (Rltb_false 0 SS) by lra. reflexivity.
Qed.

Lemma custos_safety_stock_shift_witness :
  exists c_ped c_pos : R,
    custos_periodicos (Some (Fin 1800)) (Fin 1500) (Fin 80) (Fin 1) (Fin 0)
    = Val (Fin c_ped, Fin c_pos, Fin (c_ped + c_pos))
    /\ custos_periodicos (Some (Fin 1800)) (Fin 1500) (Fin 80) (Fin 1) (Fin 120)
       = Val (Fin c_ped, Fin (c_pos + 1 * Rmax 0 120),
              Fin (c_ped + (c_pos + 1 * Rmax 0 120)))
    /\ ((120 <= 0)%R ->
        custos_periodicos (Some (Fin 1800)) (Fin 1500) (Fin 80) (Fin 1) (Fin 120)
        = custos_periodicos (Some (Fin 1800)) (Fin 1500) (Fin 80) (Fin 1) (Fin 0)).
Proof. apply (custos_safety_stock_shift 1800 1500 80 1 120); lra. Defined.

(** X6.  The adjustment never rounds down and never overshoots by a whole
    lot: for a raw quantity [q >= 0] the result lies between
    [max(q, moq)] and [max(q, moq) + mult], the upper bound excluded, and
    equals [max(q, moq)] when there is no lot multiple. *)
Theorem ajusta_bounds (q moq mult : R) :
  (0 <= q)%R -> (0 <= moq)%R -> (0 <= mult)%R ->
  exists q1 : R,
    ajusta_por_moq_multiplo (Some (Fin q)) (Fin moq) (Fin mult) = Val (Some (Fin q1))
    /\ (Rmax q moq <= q1)%R
    /\ ((0 < mult)%R -> (q1 < Rmax q moq + mult)%R)
    /\ (mult = 0%R -> q1 = Rmax q moq).
Proof.
  intros Hq Hmoq Hmult. exists (AjustaProps.ajusta_real q moq mult).
  split; [apply AjustaProps.ajusta_fin |].
  unfold AjustaProps.ajusta_real.
  assert (Hm : (if Rltb 0 moq && Rltb q moq then moq else q) = Rmax q moq).
  { destruct (Rltb 0 moq) eqn:E1, (Rltb q moq) eqn:E2; simpl;
      try apply Rltb_spec in E1; try apply Rltb_spec in E2;
      try apply Rltb_false_inv in E1; try apply Rltb_false_inv in E2;
      try (rewrite Rmax_right by lra; reflexivity);
      try (rewrite Rmax_left by lra; reflexivity). }
  rewrite Hm. set (m := Rmax q moq).
  destruct (Rltb 0 mult) eqn:E.
  - apply Rltb_spec in E.
    pose proof (AjustaProps.Rceil_ge (m / mult)) as Hge.
    pose proof (AjustaProps.Rceil_lt (m / mult)) as Hlt.
    assert (Hback : (mult * (m / mult) = m)%R) by (field; lra).
    split; [| split].
    + rewrite <- Hback at 1. apply Rmult_le_compat_l; lra.
    + intros _. replace (m + mult)%R with (mult * (m / mult + 1))%R
        by (rewrite Rmult_plus_distr_l, Hback; ring).
      apply Rmult_lt_compat_l; lra.
    + intros H0. lra.
  - apply Rltb_false_inv in E. split; [lra |]. split; [intros; lra | reflexivity].
Qed.

Lemma ajusta_bounds_witness :
  exists q1 : R,
    ajusta_por_moq_multiplo (Some (Fin 9116)) (Fin 1000) (Fin 250)
    = Val (Some (Fin q1))
    /\ (Rmax 9116 1000 <= q1)%R
    /\ ((0 < 250)%R -> (q1 < Rmax 9116 1000 + 250)%R)
    /\ (250%R = 0%R -> q1 = Rmax 9116 1000).
Proof. apply (ajusta_bounds 9116 1000 250); lra. Defined.

End EoqProps.

(* ------------------------------------------------------------------ *)
(** ** Cost comparison of the calculator, lines 375-398 and 482-485 *)

Module Comparativo.

Import Calc.
Local Open Scope num_scope.

(** Lines 375-376: the economic order quantity under the supplier's
    constraints. *)
Definition Q_otimo (D_base K h_per moq mult : num) : exc (option num) :=
  Q_opt_raw <- eoq D_base K h_per ;;
  ajusta_por_moq_multiplo (Some Q_opt_raw) moq mult.

(** Lines 482-483: [base - opt] when both are finite, NaN otherwise. *)
Definition delta (c_base c_opt : num) : num :=
  if N.isfinite c_base && N.isfinite c_opt then c_base - c_opt else NaN.

Record comparacao : Type := {
  cped_opt : num; cpos_opt : num; ctot_opt : num;
  cped_base : num; cpos_base : num; ctot_base : num;
  economia_per : num; economia_ano : num; economia_pct : num;
  delta_ped : num; delta_pos : num; delta_tot : num; pct : num
}.

(** Lines 379-383 and 482-485. *)
Definition compara (Q_opt : option num)
    (Q_base D_base K h_per SS_opt SS_base periods_per_year : num)
  : exc comparacao :=
  co <- custos_periodicos Q_opt D_base K h_per SS_opt ;;
  cb <- custos_periodicos (Some Q_base) D_base K h_per SS_base ;;
  let '(cped_opt, cpos_opt, ctot_opt) := co in
  let '(cped_base, cpos_base, ctot_base) := cb in
  e <- Calculadora.economia ctot_base ctot_opt periods_per_year ;;
  let '(economia_per, economia_ano, economia_pct) := e in
  Val {| cped_opt := cped_opt; cpos_opt := cpos_opt; ctot_opt := ctot_opt;
         cped_base := cped_base; cpos_base := cpos_base; ctot_base := ctot_base;
         economia_per := economia_per; economia_ano := economia_ano;
         economia_pct := economia_pct;
         delta_ped := delta cped_base cped_opt;
         delta_pos := delta cpos_base cpos_opt;
         delta_tot := economia_per; pct := economia_pct |}.

(** Lines 386-387: orders per period. *)
Definition n_ped (D_base Q : num) : exc num :=
  if N.isfinite Q && (Q >? Fin 0) then truediv D_base Q else Val NaN.

(** Lines 389-390: average stock. *)
Definition estoque_medio (Q SS : num) : exc num :=
  if N.isfinite Q then half <- truediv Q (Fin 2) ;; Val (half + SS)
  else Val NaN.

(** Line 397: days of demand covered by the optimal lot. *)
Definition cobertura_opt (Q d_dia : num) : exc num :=
  if (d_dia >? Fin 0) && N.isfinite Q then truediv Q d_dia else Val NaN.

(** Line 398: the same for the baseline lot, without the finiteness
    test. *)
Definition cobertura_base (Q d_dia : num) : exc num :=
  if d_dia >? Fin 0 then truediv Q d_dia else Val NaN.

End Comparativo.

Module ComparativoProps.

Import Calc Comparativo.
Local Open Scope num_scope.

Lemma custos_sum (Q : option num) (D K h SS : num) :
  exists a b, custos_periodicos Q D K h SS = Val (a, b, a + b).
Proof.
  destruct (EconomiaProps.custos_returns Q D K h SS) as (a & b & c & E).
  exists a, b. rewrite E. f_equal. f_equal.
  unfold custos_periodicos in E. destruct Q as [Q|]; [| injection E as <- <- <-; reflexivity].
  destruct ((Q <=? Fin 0) || (D <=? Fin 0) || (h <? Fin 0) || (K <? Fin 0));
    [injection E as <- <- <-; reflexivity |].
  destruct (truediv (K * D) Q); [| discriminate]. cbn [bind] in E.
  destruct (truediv Q (Fin 2)); [| discriminate]. cbn [bind] in E.
  injection E as <- <- <-. reflexivity.
Qed.

(** X7.  The split of the savings adds up: whenever the savings per period
    are a number, the saving in ordering cost and the saving in holding
    cost are numbers too and their sum is the total saving. *)
Theorem savings_decomposition (Q_opt : option num)
    (Q_base D K h SS_opt SS_base ppy : num) :
  exists c : comparacao,
    compara Q_opt Q_base D K h SS_opt SS_base ppy = Val c
    /\ (N.isfinite (delta_tot c) = true ->
        exists dp dh dt : R,
          delta_ped c = Fin dp /\ delta_pos c = Fin dh /\ delta_tot c = Fin dt
          /\ (dp + dh = dt)%R).
Proof.
  unfold compara.
  destruct (custos_sum Q_opt D K h SS_opt) as (a1 & b1 & ->).
  destruct (custos_sum (Some Q_base) D K h SS_base) as (a2 & b2 & ->).
  cbn [bind].
  destruct (EconomiaProps.economia_returns (a2 + b2) (a1 + b1) ppy)
    as (per & ano & pc & -> & Hper & _ & _).
  cbn [bind]. eexists. split; [reflexivity |].
  cbn [delta_tot delta_ped delta_pos]. rewrite Hper. unfold delta.
  destruct (a2 + b2) as [| | |t2] eqn:E2; try discriminate.
  destruct (a1 + b1) as [| | |t1] eqn:E1; try discriminate.
  intros _.
  apply EconomiaProps.add_fin_inv in E1 as (x1 & y1 & -> & -> & ->).
  apply EconomiaProps.add_fin_inv in E2 as (x2 & y2 & -> & -> & ->).
  simpl. do 3 eexists. repeat split; try reflexivity. ring.
Qed.

Lemma pymax0_fin (SS : num) (m : R) :
  N.pymax (Fin 0) SS = Fin m ->
  (0 <= m)%R.
Proof.
  destruct (EconomiaProps.pymax0_cases SS) as [E | (m' & E & Hm)];
    rewrite E; [discriminate |]. intros [= <-]. exact Hm.
Qed.

(** A finite total cost, with the safety stock term made explicit. *)
Lemma custos_finite_form (Q : option num) (D K h SS a b : num) (c : R) :
  custos_periodicos Q D K h SS = Val (a, b, Fin c) ->
  exists q d k hh m : R,
    Q = Some (Fin q) /\ D = Fin d /\ K = Fin k /\ h = Fin hh
    /\ N.pymax (Fin 0) SS = Fin m
    /\ (0 < q)%R /\ (0 < d)%R /\ (0 <= k)%R /\ (0 <= hh)%R /\ (0 <= m)%R
    /\ c = (k * d / q + hh * (q / 2 + m))%R.
Proof.
  intros H.
  destruct (EconomiaProps.custos_finite_inv _ _ _ _ _ _ _ _ H)
    as (q & d & k & hh & m0 & -> & -> & -> & -> & Hq & Hd & Hk & Hh & _ & _).
  unfold custos_periodicos, truediv in H. simpl in H.
  rewrite (Rleb_false q 0), (Rleb_false d 0), (Rltb_false hh 0),
    (Rltb_false k 0) in H by lra.
  simpl in H. rewrite ?(Reqb_false q 0), ?(Reqb_false 2 0) in H by lra.
  simpl in H. rewrite ?(Reqb_false q 0), ?(Reqb_false 2 0) in H by lra.
  destruct (N.pymax (Fin 0) SS) as [| | |m] eqn:Em.
  - simpl in H. discriminate.
  - simpl in H. unfold N.inf_signed in H.
    destruct (Rltb 0 hh); [discriminate |]. destruct (Rltb hh 0); discriminate.
  - pose proof (EconomiaProps.pymax0_cases SS) as [E | (m' & E & _)];
      rewrite E in Em; discriminate.
  - simpl in H. injection H as _ _ Hc.
    exists q, d, k, hh, m. repeat split; try assumption; try reflexivity.
    + apply (pymax0_fin SS). exact Em.
    + symmetry. exact Hc.
Qed.

(** X8.  Without supplier constraints and at equal safety stock the
    optimal policy never costs more than the baseline: whatever the
    inputs, the savings per period are either NaN or a number that is not
    negative. *)
Theorem optimal_never_worse (Q_base D K h SS ppy : num) :
  exists c : comparacao,
    (Q_opt <- Q_otimo D K h (Fin 0) (Fin 0) ;;
     compara Q_opt Q_base D K h SS SS ppy) = Val c
    /\ (economia_per c = NaN
        \/ exists e : R, economia_per c = Fin e /\ (0 <= e)%R).
Proof.
  unfold Q_otimo.
  destruct (EconomiaProps.eoq_returns D K h) as (e & He). rewrite He. cbn [bind].
  assert (Ha : ajusta_por_moq_multiplo (Some e) (Fin 0) (Fin 0) = Val (Some e)).
  { unfold ajusta_por_moq_multiplo. simpl. rdec. simpl.
    destruct (N.isnan e); reflexivity. }
  rewrite Ha. cbn [bind]. unfold compara.
  destruct (EconomiaProps.custos_returns (Some e) D K h SS) as (a1 & b1 & co & Hco).
  destruct (EconomiaProps.custos_returns (Some Q_base) D K h SS)
    as (a2 & b2 & cb & Hcb).
  rewrite Hco, Hcb. cbn [bind].
  destruct (EconomiaProps.economia_returns cb co ppy)
    as (per & ano & pc & -> & Hper & _ & _).
  cbn [bind]. eexists. split; [reflexivity |]. cbn [economia_per].
  rewrite Hper.
  destruct cb as [| | |cbr]; try (left; reflexivity).
  destruct co as [| | |cor]; try (left; reflexivity).
  right. simpl. eexists. split; [reflexivity |].
  apply custos_finite_form in Hco
    as (q & d & k & hh & m & [= ->] & -> & -> & -> & Em & Hq & Hd & Hk & Hh & Hm & ->).
  apply custos_finite_form in Hcb
    as (qb & d' & k' & hh' & m' & _ & [= <-] & [= <-] & [= <-] & Em'
        & Hqb & _ & _ & _ & _ & ->).
  rewrite Em in Em'. injection Em' as <-.
  assert (Hhh : (0 < hh)%R).
  { destruct (Rle_lt_dec hh 0); [| assumption].
    rewrite EconomiaProps.eoq_zero_holding in He by assumption. discriminate. }
  assert (Hkk : (0 < k)%R).
  { destruct (Rle_lt_dec k 0); [| assumption]. exfalso.
    assert (k = 0%R) by lra. subst k.
    rewrite CalcProps.eoq_fin in He by lra. injection He as He.
    replace (2 * 0 * d / hh)%R with 0%R in He by (field; lra).
    rewrite sqrt_0 in He. lra. }
  rewrite CalcProps.eoq_fin in He by lra. injection He as <-.
  pose proof (CalcProps.eoq_am_gm d k hh qb Hd Hkk Hhh Hqb) as Ham.
  set (qs := sqrt (2 * k * d / hh)) in *.
  set (u := (k * d / qs)%R) in *. set (w := (k * d / qb)%R) in *.
  clearbody u w qs. nra.
Qed.

End ComparativoProps.

(** ** More on the simulator *)

Module SimuladorExtras.

Import Simulador SimuladorProps.
Local Open Scope Z_scope.

Section Dias.

Context {rng : Type}.
Variables (Q r d_dia : R) (L : Z) (sigma_d_dia : R) (clamp_zero : bool).
Variable rng_normal : rng -> R -> R -> R * rng.

Local Abbreviation dia := (dia Q r d_dia L sigma_d_dia clamp_zero rng_normal).
Local Abbreviation laco := (laco Q r d_dia L sigma_d_dia clamp_zero rng_normal).
Local Abbreviation demanda := (demanda d_dia sigma_d_dia rng_normal).

(** The on-hand level and the position that day [t] records. *)
Definition on_hand_do_dia (t : Z) (s : estado rng) : R :=
  let s1 := chegadas t s in
  let v := (on_hand s1 - fst (demanda (gen s1)))%R in
  if clamp_zero && Rltb v 0 then 0%R else v.

Definition posicao_do_dia (t : Z) (s : estado rng) : R :=
  let s1 := chegadas t s in
  (on_hand_do_dia t s
   + match pending s1 with
     | [] => 0
     | _ :: _ => py_sum (map snd (pending s1))
     end)%R.

Lemma dia_campos (t : Z) (s : estado rng) :
  on_hand (dia t s) = on_hand_do_dia t s
  /\ y_onhand (dia t s) = y_onhand s ++ [on_hand_do_dia t s]
  /\ y_pos (dia t s) = y_pos s ++ [posicao_do_dia t s]
  /\ order_times (dia t s)
     = order_times s ++ (if Rleb (posicao_do_dia t s) r then [t] else [])
  /\ pending (dia t s)
     = pending (chegadas t s)
       ++ (if Rleb (posicao_do_dia t s) r then [(t + L, Q)] else []).
Proof.
  unfold posicao_do_dia, on_hand_do_dia, Simulador.dia,
    Simulador.consumo_e_pedido.
  destruct (demanda (gen (chegadas t s))) as [dem g']. cbn [fst].
  rewrite chegadas_y_onhand, chegadas_order_times.
  assert (Ey : y_pos (chegadas t s) = y_pos s).
  { unfold chegadas. destruct (pending s); [reflexivity |].
    destruct (map snd _); reflexivity. }
  rewrite Ey.
  destruct (clamp_zero && Rltb _ 0); cbn [fst snd];
    destruct (Rleb _ r); cbn; rewrite ?app_nil_r; auto.
Qed.

Lemma in_py_range (a b u : Z) : In u (py_range a b) <-> a <= u < b.
Proof.
  unfold py_range. rewrite in_map_iff. split.
  - intros (i & <- & Hi). apply in_seq in Hi. lia.
  - intros H. exists (Z.to_nat (u - a)). split; [lia |]. apply in_seq. lia.
Qed.

(** The order days and the recorded positions, day by day. *)
Lemma pedidos_e_posicoes (s0 : estado rng) (T : Z) :
  0 <= T ->
  List.length (y_pos s0) = 1%nat -> order_times s0 = [] ->
  let s := laco (py_range 1 (T + 1)) s0 in
  List.length (y_pos s) = Z.to_nat (T + 1)
  /\ order_times s
     = filter (fun t => Rleb (nth (Z.to_nat t) (y_pos s) 0%R) r)
         (py_range 1 (T + 1)).
Proof.
  intros HT Hy0 Ho0.
  apply (laco_range_ind Q r d_dia L sigma_d_dia clamp_zero rng_normal
           (fun t s => List.length (y_pos s) = Z.to_nat (t + 1)
                       /\ order_times s
                          = filter (fun u => Rleb (nth (Z.to_nat u) (y_pos s) 0%R) r)
                              (py_range 1 (t + 1)))); [| | exact HT].
  - split; [exact Hy0 | rewrite Ho0; reflexivity].
  - intros t s Ht [Hlen Hord].
    destruct (dia_campos (t + 1) s) as (_ & _ & Ep & Eo & _).
    rewrite Ep, Eo, length_app, Hlen. split; [simpl; lia |].
    rewrite (py_range_snoc 1 (t + 1)) by lia. rewrite filter_app. f_equal.
    + rewrite Hord. apply filter_ext_in. intros u Hu.
      apply in_py_range in Hu. rewrite app_nth1 by lia. reflexivity.
    + cbn [filter]. rewrite app_nth2 by lia.
      replace (Z.to_nat (t + 1) - List.length (y_pos s))%nat with 0%nat by lia.
      reflexivity.
Qed.

Lemma py_sum_nonneg (l : list R) :
  Forall (fun v => (0 <= v)%R) l -> (0 <= py_sum l)%R.
Proof.
  unfold py_sum. assert (H : forall a, (0 <= a)%R ->
                              Forall (fun v => (0 <= v)%R) l ->
                              (0 <= fold_left Rplus l a)%R).
  { induction l as [|v l IH]; intros a Ha Hl; [exact Ha |].
    inversion Hl; subst. simpl. apply IH; [lra | assumption]. }
  apply H. lra.
Qed.

Lemma chegadas_pending_Q (t : Z) (s : estado rng) :
  Forall (fun p => snd p = Q) (pending s) ->
  Forall (fun p => snd p = Q) (pending (chegadas t s)).
Proof.
  intros H. destruct (chegadas_spec t s) as [-> _].
  apply Forall_forall. intros p Hp. apply filter_In in Hp as [Hp _].
  rewrite Forall_forall in H. apply H. exact Hp.
Qed.

Lemma laco_posicao_ge_on_hand (days : list Z) (s : estado rng) :
  (0 <= Q)%R ->
  Forall (fun p => snd p = Q) (pending s) ->
  Forall2 (fun oh pos => (oh <= pos)%R) (y_onhand s) (y_pos s) ->
  Forall2 (fun oh pos => (oh <= pos)%R)
    (y_onhand (laco days s)) (y_pos (laco days s)).
Proof.
  intros HQ. revert s. induction days as [|t days IH]; intros s Hp Hf; [exact Hf |].
  rewrite laco_cons.
  destruct (dia_campos t s) as (_ & Ey & Ep & _ & Epend).
  pose proof (chegadas_pending_Q t s Hp) as Hp1.
  apply IH.
  - rewrite Epend. apply Forall_app. split; [exact Hp1 |].
    destruct (Rleb _ r); repeat constructor.
  - rewrite Ey, Ep. apply Forall2_app; [exact Hf |].
    constructor; [| constructor]. unfold posicao_do_dia.
    destruct (pending (chegadas t s)) as [|p l] eqn:E; [lra |].
    assert (0 <= py_sum (map snd (p :: l)))%R; [| lra].
    apply py_sum_nonneg. apply Forall_map.
    eapply Forall_impl; [| exact Hp1]. simpl. intros q Hq. rewrite Hq. exact HQ.
Qed.

Lemma filter_false {A : Type} (f : A -> bool) (l : list A) :
  filter (fun p => false && f p) l = [].
Proof. induction l; simpl; auto. Qed.

End Dias.

Section Propriedades.

Context {rng : Type}.
Variable default_rng : Z -> rng.
Variable rng_normal : rng -> R -> R -> R * rng.

(** X9.  The order days returned are exactly the days of the horizon
    whose recorded inventory position is at or below the reorder point;
    the position trace has one entry per day [0..T]. *)
Theorem orders_where_position_at_or_below_r (Q r d_dia : R) (L : Z)
    (sigma_d_dia : R) (T seed : Z) (clamp_zero : bool) (start_mode : string) :
  let s := estado_final default_rng rng_normal Q r d_dia L sigma_d_dia T seed
             clamp_zero start_mode in
  List.length (y_pos s) = Z.to_nat (Z.max 0 T + 1)
  /\ order_times s
     = filter (fun t => Rleb (nth (Z.to_nat t) (y_pos s) 0%R) r)
         (py_range 1 (T + 1)).
Proof.
  intros s. subst s. unfold estado_final.
  rewrite (py_range_max T).
  apply (pedidos_e_posicoes Q r d_dia L sigma_d_dia clamp_zero rng_normal);
    try lia;
    unfold inicio; destruct (String.eqb start_mode "steady"); reflexivity.
Qed.

(** X10.  When the lot is not negative, every recorded inventory position
    is at least the on-hand level recorded for the same day. *)
Theorem position_at_least_on_hand (Q r d_dia : R) (L : Z)
    (sigma_d_dia : R) (T seed : Z) (clamp_zero : bool) (start_mode : string) :
  (0 <= Q)%R ->
  let s := estado_final default_rng rng_normal Q r d_dia L sigma_d_dia T seed
             clamp_zero start_mode in
  Forall2 (fun oh pos => (oh <= pos)%R) (y_onhand s) (y_pos s).
Proof.
  intros HQ s. subst s. unfold estado_final.
  apply laco_posicao_ge_on_hand; [exact HQ | |];
    unfold inicio; destruct (String.eqb start_mode "steady"); simpl;
    repeat constructor; lra.
Qed.

(** X11.  With clamping switched off the stockout counter stays at zero,
    whatever happens to the on-hand level. *)
Theorem no_clamp_no_stockout_count (Q r d_dia : R) (L : Z)
    (sigma_d_dia : R) (T seed : Z) (start_mode : string) :
  stockout_days
    (estado_final default_rng rng_normal Q r d_dia L sigma_d_dia T seed
       false start_mode) = 0.
Proof.
  unfold estado_final. rewrite laco_stockout, filter_false.
  unfold inicio. destruct (String.eqb start_mode "steady"); reflexivity.
Qed.

(** X12.  In lot mode (any start mode other than ["steady"]) with a lead
    time of at least one day, the arrival days are the order days shifted
    by the lead time, as far as they fall within the horizon; so the
    number of arrivals is the number of orders placed at least [L] days
    before the horizon ends. *)
Theorem lot_mode_arrivals (Q r d_dia : R) (L : Z) (sigma_d_dia : R)
    (T seed : Z) (clamp_zero : bool) (start_mode : string) :
  1 <= L -> String.eqb start_mode "steady" = false ->
  let s := estado_final default_rng rng_normal Q r d_dia L sigma_d_dia T seed
             clamp_zero start_mode in
  arrival_times s
  = filter (fun d => d <=? T) (map (fun o => o + L) (order_times s))
  /\ List.length (arrival_times s)
     = List.length (filter (fun t => t + L <=? T) (order_times s)).
Proof.
  intros HL Hm s. subst s. unfold estado_final. rewrite py_range_max.
  set (s0 := inicio Q r L start_mode (default_rng seed)).
  assert (E0 : pending s0 = [] /\ order_times s0 = [] /\ arrival_times s0 = []).
  { unfold s0, inicio. rewrite Hm. auto. }
  destruct E0 as (Ep0 & Eo0 & Ea0).
  assert (H0 : agenda_ok L s0 0 s0).
  { unfold agenda_ok, agenda. rewrite Ep0, Eo0, Ea0. simpl.
    repeat split; constructor. }
  pose proof (laco_range_ind Q r d_dia L sigma_d_dia clamp_zero rng_normal
                (agenda_ok L s0) s0 H0
                (fun t st Ht => agenda_step Q r d_dia L sigma_d_dia clamp_zero
                                  rng_normal s0 t st HL Ht)
                (Z.max 0 T) ltac:(lia)) as (_ & Ha & _ & Hb).
  unfold agenda in *. rewrite Ep0 in *. cbn [map app] in *.
  assert (E : arrival_times
                (laco Q r d_dia L sigma_d_dia clamp_zero rng_normal
                   (py_range 1 (Z.max 0 T + 1)) s0)
              = filter (fun d => d <=? T)
                  (map (fun o => o + L)
                     (order_times
                        (laco Q r d_dia L sigma_d_dia clamp_zero rng_normal
                           (py_range 1 (Z.max 0 T + 1)) s0)))).
  { rewrite Ha. apply filter_ext_in. intros d Hd.
    rewrite Forall_forall in Hb. specialize (Hb d Hd).
    destruct (Z.leb_spec d (Z.max 0 T)), (Z.leb_spec d T); try reflexivity; lia. }
  split; [exact E |].
  rewrite E. apply (length_filter_map (fun d => d <=? T) (fun o => o + L)).
Qed.

End Propriedades.

End SimuladorExtras.

(** ** The generator is not consulted without variability *)

Module SemVariabilidade.

Import Simulador SimuladorProps.
Local Open Scope Z_scope.

(** A state with its generator forgotten. *)
Definition apaga {rng : Type} (s : estado rng) : estado unit :=
  {| on_hand := on_hand s; pending := pending s; x := x s;
     y_onhand := y_onhand s; y_pos := y_pos s;
     order_times := order_times s; arrival_times := arrival_times s;
     stockout_days := stockout_days s; gen := tt |}.

(** A generator that is never asked anything. *)
Definition rng_mudo (g : unit) (loc scale : R) : R * unit := (loc, tt).

Section Apaga.

Context {rng : Type}.
Variables (Q r d_dia : R) (L : Z) (sigma_d_dia : R) (clamp_zero : bool).
Variable rng_normal : rng -> R -> R -> R * rng.
Hypothesis sem_variabilidade : (sigma_d_dia <= 0)%R.

Lemma chegadas_apaga (t : Z) (s : estado rng) :
  chegadas t (apaga s) = apaga (chegadas t s).
Proof.
  destruct s as [oh pe xs yo yp ot ats sd g].
  unfold chegadas, apaga. cbn [pending on_hand x y_onhand y_pos order_times
                               arrival_times stockout_days gen].
  destruct pe as [|p l]; [reflexivity |].
  destruct (map snd (filter (fun p0 => fst p0 =? t) (p :: l))); reflexivity.
Qed.

Lemma dia_apaga (t : Z) (s : estado rng) :
  dia Q r d_dia L sigma_d_dia clamp_zero rng_mudo t (apaga s)
  = apaga (dia Q r d_dia L sigma_d_dia clamp_zero rng_normal t s).
Proof.
  unfold dia, demanda. rewrite chegadas_apaga.
  rewrite (Rleb_true sigma_d_dia 0) by exact sem_variabilidade.
  unfold consumo_e_pedido, apaga. cbn [on_hand pending stockout_days].
  destruct (clamp_zero && Rltb _ 0); destruct (Rleb _ r); reflexivity.
Qed.

Lemma laco_apaga (days : list Z) (s : estado rng) :
  laco Q r d_dia L sigma_d_dia clamp_zero rng_mudo days (apaga s)
  = apaga (laco Q r d_dia L sigma_d_dia clamp_zero rng_normal days s).
Proof.
  revert s. induction days as [|t days IH]; intros s; [reflexivity |].
  rewrite !laco_cons, dia_apaga. apply IH.
Qed.

End Apaga.

(** X13.  Without demand variability ([sigma_d_dia <= 0]) the generator is
    never consulted: the returned tuple is the same for every seed and for
    every generator. *)
Theorem seed_irrelevant_without_variability {rng1 rng2 : Type}
    (default_rng1 : Z -> rng1) (rng_normal1 : rng1 -> R -> R -> R * rng1)
    (default_rng2 : Z -> rng2) (rng_normal2 : rng2 -> R -> R -> R * rng2)
    (Q r d_dia : R) (L : Z) (sigma_d_dia : R) (T seed1 seed2 : Z)
    (clamp_zero : bool) (start_mode : string) :
  (sigma_d_dia <= 0)%R ->
  sim_serrilhado_com_leadtime default_rng1 rng_normal1 Q r d_dia L sigma_d_dia
    T seed1 clamp_zero start_mode
  = sim_serrilhado_com_leadtime default_rng2 rng_normal2 Q r d_dia L sigma_d_dia
      T seed2 clamp_zero start_mode.
Proof.
  intros Hs. unfold sim_serrilhado_com_leadtime, estado_final.
  assert (H : forall (rng : Type) (g : rng) (n : rng -> R -> R -> R * rng),
             retorno (laco Q r d_dia L sigma_d_dia clamp_zero n
                        (py_range 1 (T + 1)) (inicio Q r L start_mode g))
             = retorno (laco Q r d_dia L sigma_d_dia clamp_zero rng_mudo
                          (py_range 1 (T + 1)) (inicio Q r L start_mode tt))).
  { intros rng g n.
    replace (inicio Q r L start_mode tt) with (apaga (inicio Q r L start_mode g))
      by (unfold inicio, apaga; destruct (String.eqb start_mode "steady");
          reflexivity).
    rewrite (laco_apaga Q r d_dia L sigma_d_dia clamp_zero n Hs). reflexivity. }
  rewrite (H rng1), (H rng2). reflexivity.
Qed.

End SemVariabilidade.

Module SimuladorExtrasExemplos.

Import Simulador Exemplos.
Local Open Scope Z_scope.

Lemma position_at_least_on_hand_witness :
  let s := estado_final toy_default_rng toy_normal 10 5 1 2 1 5 42 true
             "steady" in
  Forall2 (fun oh pos => (oh <= pos)%R) (y_onhand s) (y_pos s).
Proof.
  apply (SimuladorExtras.position_at_least_on_hand toy_default_rng toy_normal
           10 5 1 2 1 5 42 true "steady").
  lra.
Defined.

Lemma lot_mode_arrivals_witness :
  let s := estado_final toy_default_rng toy_normal 10 5 1 2 1 5 42 true
             "lot" in
  arrival_times s
  = filter (fun d => d <=? 5) (map (fun o => o + 2) (order_times s))
  /\ List.length (arrival_times s)
     = List.length (filter (fun t => t + 2 <=? 5) (order_times s)).
Proof.
  apply (SimuladorExtras.lot_mode_arrivals toy_default_rng toy_normal
           10 5 1 2 1 5 42 true "lot").
  - lia.
  - reflexivity.
Defined.

Lemma seed_irrelevant_without_variability_witness :
  sim_serrilhado_com_leadtime toy_default_rng toy_normal 10 5 1 2 0 5 42 true
    "steady"
  = sim_serrilhado_com_leadtime toy_default_rng toy_normal 10 5 1 2 0 5 7 true
      "steady".
Proof.
  apply (SemVariabilidade.seed_irrelevant_without_variability
           toy_default_rng toy_normal toy_default_rng toy_normal
           10 5 1 2 0 5 42 7 true "steady").
  lra.
Defined.

End SimuladorExtrasExemplos.

(* ------------------------------------------------------------------ *)
(** ** Cycle indicators, lines 654-666 *)

Module Kpis.

Import Simulador.

(** [np.diff]. *)
Fixpoint np_diff (l : list Z) : list Z :=
  match l with
  | a :: (b :: _) as rest => (b - a)%Z :: np_diff rest
  | _ => []
  end.

(** [np.mean] of a float array that is not empty. *)
Definition np_mean (l : list R) : R := (py_sum l / INR (List.length l))%R.

(** [np.mean] of a boolean array that is not empty: the share of [True]. *)
Definition np_mean_bool (l : list bool) : R :=
  (INR (List.length (filter (fun b => b) l)) / INR (List.length l))%R.

(** [np.nanmin] and [np.nanmax] of a float array without NaN, with its
    first element apart. *)
Definition np_min (a : R) (l : list R) : R := fold_left Rmin l a.
Definition np_max (a : R) (l : list R) : R := fold_left Rmax l a.

Record kpis : Type := {
  pedidos_no_horizonte : Z;
  intervalo_medio_entre_chegadas : num;
  estoque_medio : R;
  pct_dias_abaixo_de_SS : R;
  pct_dias_com_ruptura : R;
  min_on_hand : R;
  max_on_hand : R
}.

(** [_kpis(y_on, ords, arrs, SS)].  On an empty [y_on], [np.nanmin] raises
    [ValueError]: that is [None] here. *)
Definition _kpis (y_on : list R) (ords arrs : list Z) (SS : R) : option kpis :=
  match y_on with
  | [] => None
  | y0 :: rest =>
    Some {| pedidos_no_horizonte := Z.of_nat (List.length ords);
            intervalo_medio_entre_chegadas :=
              if (1 <? List.length arrs)%nat
              then Fin (IZR (fold_left Z.add (np_diff arrs) 0%Z)
                        / INR (List.length (np_diff arrs)))
              else NaN;
            estoque_medio := np_mean y_on;
            pct_dias_abaixo_de_SS :=
              (100 * np_mean_bool (map (fun y => Rltb y SS) y_on))%R;
            pct_dias_com_ruptura :=
              (100 * np_mean_bool (map (fun y => Rleb y 0) y_on))%R;
            min_on_hand := np_min y0 rest;
            max_on_hand := np_max y0 rest |}
  end.

End Kpis.

Module KpisProps.

Import Simulador Kpis.
Local Open Scope R_scope.

Lemma fold_Rplus_acc (l : list R) (a : R) :
  fold_left Rplus l a = a + fold_left Rplus l 0.
Proof.
  revert a. induction l as [|v l IH]; intros a; simpl; [lra |].
  rewrite (IH (a + v)), (IH (0 + v)). lra.
Qed.

Lemma py_sum_cons (v : R) (l : list R) : py_sum (v :: l) = v + py_sum l.
Proof. unfold py_sum. simpl. rewrite fold_Rplus_acc. lra. Qed.

Lemma py_sum_bounds (lo hi : R) (l : list R) :
  Forall (fun v => lo <= v <= hi) l ->
  INR (List.length l) * lo <= py_sum l <= INR (List.length l) * hi.
Proof.
  induction 1 as [|v l Hv _ IH].
  - unfold py_sum. simpl. lra.
  - rewrite py_sum_cons. change (List.length (v :: l)) with (S (List.length l)).
    rewrite S_INR. lra.
Qed.

Lemma np_min_le (a : R) (l : list R) :
  np_min a l <= a /\ Forall (fun v => np_min a l <= v) l.
Proof.
  unfold np_min. revert a. induction l as [|v l IH]; intros a; simpl.
  - split; [lra | constructor].
  - destruct (IH (Rmin a v)) as [H1 H2].
    pose proof (Rmin_l a v). pose proof (Rmin_r a v).
    split; [lra |]. constructor; [lra | exact H2].
Qed.

Lemma np_max_ge (a : R) (l : list R) :
  a <= np_max a l /\ Forall (fun v => v <= np_max a l) l.
Proof.
  unfold np_max. revert a. induction l as [|v l IH]; intros a; simpl.
  - split; [lra | constructor].
  - destruct (IH (Rmax a v)) as [H1 H2].
    pose proof (Rmax_l a v). pose proof (Rmax_r a v).
    split; [lra |]. constructor; [lra | exact H2].
Qed.

Lemma np_mean_bool_bounds (l : list bool) :
  l <> [] -> 0 <= np_mean_bool l <= 1.
Proof.
  intros Hl. unfold np_mean_bool.
  assert (Hn : 0 < INR (List.length l)).
  { apply lt_0_INR. destruct l; [contradiction | simpl; lia]. }
  assert (Hc : INR (List.length (filter (fun b => b) l)) <= INR (List.length l)).
  { apply le_INR. apply filter_length_le. }
  pose proof (pos_INR (List.length (filter (fun b => b) l))) as Hp.
  split.
  - apply Rmult_le_pos; [exact Hp | left; apply Rinv_0_lt_compat; exact Hn].
  - apply Rmult_le_reg_r with (INR (List.length l)); [exact Hn |].
    unfold Rdiv. rewrite Rmult_assoc, Rinv_l by lra. lra.
Qed.

Lemma np_mean_bool_mono (f g : R -> bool) (l : list R) :
  l <> [] -> (forall y, f y = true -> g y = true) ->
  np_mean_bool (map f l) <= np_mean_bool (map g l).
Proof.
  intros Hl Hfg. unfold np_mean_bool. rewrite !length_map.
  assert (Hn : 0 < INR (List.length l)).
  { apply lt_0_INR. destruct l; [contradiction | simpl; lia]. }
  apply Rmult_le_compat_r; [left; apply Rinv_0_lt_compat; exact Hn |].
  apply le_INR. clear Hl Hn.
  induction l as [|y l IH]; simpl; [lia |].
  destruct (f y) eqn:E.
  - rewrite (Hfg y E). simpl. lia.
  - destruct (g y); simpl; lia.
Qed.

(** X14.  The indicators of a trace that is not empty are well formed:
    both percentages lie between 0 and 100, the share of stockout days is
    at most the share of days below a positive safety stock, and the mean
    on-hand level lies between the minimum and the maximum.  An empty
    trace makes the function raise. *)
Theorem kpis_well_formed (y0 : R) (rest : list R) (ords arrs : list Z) (SS : R) :
  _kpis [] ords arrs SS = None
  /\ exists k : kpis,
      _kpis (y0 :: rest) ords arrs SS = Some k
      /\ 0 <= pct_dias_com_ruptura k <= 100
      /\ 0 <= pct_dias_abaixo_de_SS k <= 100
      /\ (0 < SS -> pct_dias_com_ruptura k <= pct_dias_abaixo_de_SS k)
      /\ min_on_hand k <= estoque_medio k <= max_on_hand k.
Proof.
  split; [reflexivity |]. eexists. split; [reflexivity |].
  cbn [pct_dias_com_ruptura pct_dias_abaixo_de_SS min_on_hand estoque_medio
       max_on_hand].
  assert (Hne : forall f : R -> bool, map f (y0 :: rest) <> [])
    by (intros f; discriminate).
  pose proof (np_mean_bool_bounds _ (Hne (fun y => Rleb y 0))) as H1.
  pose proof (np_mean_bool_bounds _ (Hne (fun y => Rltb y SS))) as H2.
  set (p1 := np_mean_bool (map (fun y => Rleb y 0) (y0 :: rest))) in *.
  set (p2 := np_mean_bool (map (fun y => Rltb y SS) (y0 :: rest))) in *.
  split; [lra |]. split; [lra |]. split.
  - intros HSS.
    assert (p1 <= p2); [| lra].
    apply np_mean_bool_mono; [discriminate |].
    intros y Hy. apply Rleb_spec in Hy. apply Rltb_true. lra.
  - destruct (np_min_le y0 rest) as [Hm0 Hm].
    destruct (np_max_ge y0 rest) as [HM0 HM].
    assert (Hall : Forall (fun v => np_min y0 rest <= v <= np_max y0 rest)
                     (y0 :: rest)).
    { constructor; [lra |].
      rewrite Forall_forall in *. intros v Hv.
      specialize (Hm v Hv). specialize (HM v Hv). lra. }
    apply py_sum_bounds in Hall. unfold np_mean.
    assert (Hn : 0 < INR (List.length (y0 :: rest))) by (apply lt_0_INR; simpl; lia).
    set (n := INR (List.length (y0 :: rest))) in *.
    split.
    + apply Rmult_le_reg_r with n; [exact Hn |].
      unfold Rdiv. rewrite Rmult_assoc, Rinv_l by lra. lra.
    + apply Rmult_le_reg_r with n; [exact Hn |].
      unfold Rdiv. rewrite Rmult_assoc, Rinv_l by lra. lra.
Qed.

Lemma last_indep (l : list Z) (c d d' : Z) : last (c :: l) d = last (c :: l) d'.
Proof.
  revert c. induction l as [|b l IH]; intros c; [reflexivity |].
  change (last (b :: l) d = last (b :: l) d'). apply IH.
Qed.

Lemma np_diff_sum (a : Z) (l : list Z) :
  fold_left Z.add (np_diff (a :: l)) 0%Z = (last l a - a)%Z
  /\ List.length (np_diff (a :: l)) = List.length l.
Proof.
  assert (H : forall acc, fold_left Z.add (np_diff (a :: l)) acc
                          = (acc + (last l a - a))%Z).
  { revert a. induction l as [|b l IH]; intros a acc; simpl; [lia |].
    change (fold_left Z.add (np_diff (b :: l)) (acc + (b - a))%Z
            = (acc + (last (b :: l) a - a))%Z).
    rewrite IH. destruct l as [|c l]; [simpl; lia |].
    rewrite (last_indep l c b a).
    change (last (b :: c :: l) a) with (last (c :: l) a). lia. }
  split; [rewrite H; lia |]. clear H.
  revert a. induction l as [|b l IH]; intros a; simpl; [reflexivity |].
  f_equal. apply IH.
Qed.

(** X15.  The mean interval between arrivals telescopes: with at least two
    arrival days it is the span from the first to the last arrival divided
    by the number of intervals; with fewer it is NaN. *)
Theorem mean_arrival_interval (y0 : R) (rest : list R) (ords : list Z) (SS : R) :
  (forall arrs, (List.length arrs <= 1)%nat ->
     exists k, _kpis (y0 :: rest) ords arrs SS = Some k
               /\ intervalo_medio_entre_chegadas k = NaN)
  /\ (forall a b l,
        exists k, _kpis (y0 :: rest) ords (a :: b :: l) SS = Some k
                  /\ intervalo_medio_entre_chegadas k
                     = Fin (IZR (last (b :: l) a - a)
                            / INR (List.length (b :: l)))).
Proof.
  split.
  - intros arrs H. eexists. split; [reflexivity |].
    cbn [intervalo_medio_entre_chegadas].
    destruct (Nat.ltb_spec 1 (List.length arrs)); [lia | reflexivity].
  - intros a b l. eexists. split; [reflexivity |].
    cbn [intervalo_medio_entre_chegadas].
    destruct (np_diff_sum a (b :: l)) as [-> ->]. reflexivity.
Qed.

End KpisProps.

(* ------------------------------------------------------------------ *)
(** ** Recommended action, lines 356-357 and 502-527 *)

Module Acao.

Local Open Scope num_scope.

(** Line 357: the inventory position now. *)
Definition posicao_atual (on_hand_now on_order_now backorders_now : num) : num :=
  on_hand_now + on_order_now - backorders_now.

(** The four messages of lines 502-527. *)
Inductive acao : Type :=
| Sem_ponto_de_pedido
| Pedir_agora (sug_Q : num)
| Aguardar_dias (dias_para_r sug_Q : num)
| Aguardar (sug_Q : num).

(** Line 510: the lot to suggest. *)
Definition sug_Q (Q_opt : option num) (Q_base : num) : num :=
  match Q_opt with
  | Some q => if N.isfinite q then q else Q_base
  | None => Q_base
  end.

(** Lines 502-527. *)
Definition acao_recomendada (r_opt posicao_atual d_dia : num)
    (Q_opt : option num) (Q_base : num) : exc acao :=
  if negb (N.isfinite r_opt) then Val Sem_ponto_de_pedido
  else
    let sug := sug_Q Q_opt Q_base in
    if posicao_atual <=? r_opt then Val (Pedir_agora sug)
    else if N.truthy d_dia && (d_dia >? Fin 0) then
      x <- truediv (posicao_atual - r_opt) d_dia ;;
      Val (Aguardar_dias (N.pymax (Fin 0) x) sug)
    else Val (Aguardar sug).

End Acao.

Module AcaoProps.

Import Acao.
Local Open Scope num_scope.

(** X16.  With a finite reorder point the advice is to order now exactly
    when the position is at or below it; above it, and with a positive
    daily demand, the advice is to wait [(position - r) / d_dia] days, a
    strictly positive number (the floor at zero never applies).  The lot
    suggested is the optimal one when it is finite and the baseline one
    otherwise. *)
Theorem acao_recomendada_spec (r pos d : R) (Q_opt : option num) (Q_base : num) :
  ((pos <= r)%R ->
   acao_recomendada (Fin r) (Fin pos) (Fin d) Q_opt Q_base
   = Val (Pedir_agora (sug_Q Q_opt Q_base)))
  /\ ((r < pos)%R -> (0 < d)%R ->
      acao_recomendada (Fin r) (Fin pos) (Fin d) Q_opt Q_base
      = Val (Aguardar_dias (Fin ((pos - r) / d)) (sug_Q Q_opt Q_base))
      /\ (0 < (pos - r) / d)%R)
  /\ ((r < pos)%R -> (d <= 0)%R ->
      acao_recomendada (Fin r) (Fin pos) (Fin d) Q_opt Q_base
      = Val (Aguardar (sug_Q Q_opt Q_base)))
  /\ (N.isfinite Q_base = true -> N.isfinite (sug_Q Q_opt Q_base) = true).
Proof.
  unfold acao_recomendada, truediv, N.pymax, N.gtb. simpl.
  split; [| split; [| split]].
  - intros H. rewrite (Rleb_true pos r) by lra. reflexivity.
  - intros H Hd.
    assert (Hpos : (0 < (pos - r) / d)%R).
    { apply Rmult_lt_0_compat; [lra | apply Rinv_0_lt_compat; lra]. }
    replace (pos + - r)%R with (pos - r)%R by ring.
    rewrite (Rleb_false pos r) by lra.
    rewrite (Reqb_false d 0%R) by lra.
    rewrite (Rltb_true 0%R d) by lra.
    cbn [negb andb bind].
    rewrite (Rltb_true 0%R ((pos - r) / d)) by exact Hpos. auto.
  - intros H Hd. rewrite (Rleb_false pos r) by lra.
    rewrite (Rltb_false 0%R d) by lra.
    rewrite andb_false_r. reflexivity.
  - intros H. unfold sug_Q. destruct Q_opt as [q|]; [| exact H].
    destruct (N.isfinite q) eqn:E; [exact E | exact H].
Qed.

End AcaoProps.

(* ------------------------------------------------------------------ *)
(** ** Filter and totals under the ranking, lines 1145-1154 *)

Module Totais.

Import Simulador MultiSKU Ranking.

(** Lines 1145-1147.  The mask [df_rank["SKU"].str.contains(...)] holds one
    boolean per row, computed from that row alone; it is [None] here when
    the text box is empty, in which case the ranking is left as it is. *)
Definition filtra (mascara : option (resultado -> bool))
    (df_rank : list resultado) : list resultado :=
  match mascara with
  | Some m => filter m df_rank
  | None => df_rank
  end.

(** The finite entries of a column: what is left for [skipna] after
    [replace([inf, -inf], nan)]. *)
Definition finitos (col : list num) : list R :=
  flat_map (fun a => match a with Fin x => [x] | _ => [] end) col.

(** [.sum(skipna=True)]: zero when no entry is left. *)
Definition soma_skipna (col : list num) : R := py_sum (finitos col).

(** [.mean(skipna=True)]: NaN when no entry is left. *)
Definition media_skipna (col : list num) : num :=
  match finitos col with
  | [] => NaN
  | _ :: _ => Fin (py_sum (finitos col) / INR (List.length (finitos col)))
  end.

(** Lines 1152-1154: the three figures under the table. *)
Definition totais (df_rank : list resultado) : R * R * num :=
  (soma_skipna (map (valor Economia_periodo) df_rank),
   soma_skipna (map (valor Economia_anual) df_rank),
   media_skipna (map (valor Economia_pct) df_rank)).

End Totais.

Module TotaisProps.

Import Simulador Totais Ranking MultiSKU.

Lemma py_sum_permutation (l1 l2 : list R) :
  Permutation l1 l2 -> py_sum l1 = py_sum l2.
Proof.
  induction 1 as [| v l1 l2 _ IH | v w l | l1 l2 l3 _ IH1 _ IH2].
  - reflexivity.
  - rewrite !KpisProps.py_sum_cons, IH. reflexivity.
  - rewrite !KpisProps.py_sum_cons. lra.
  - congruence.
Qed.

Lemma finitos_permutation (c1 c2 : list num) :
  Permutation c1 c2 -> Permutation (finitos c1) (finitos c2).
Proof.
  unfold finitos. induction 1 as [| a l1 l2 _ IH | a b l | l1 l2 l3 _ IH1 _ IH2].
  - constructor.
  - simpl. apply Permutation_app_head. exact IH.
  - simpl. rewrite !app_assoc. apply Permutation_app_tail.
    apply Permutation_app_comm.
  - eapply Permutation_trans; eassumption.
Qed.

Lemma filter_permutation {A : Type} (m : A -> bool) (l1 l2 : list A) :
  Permutation l1 l2 -> Permutation (filter m l1) (filter m l2).
Proof.
  induction 1 as [| a l1 l2 _ IH | a b l | l1 l2 l3 _ IH1 _ IH2].
  - constructor.
  - simpl. destruct (m a); [constructor |]; exact IH.
  - simpl. destruct (m a), (m b); try apply Permutation_refl.
    apply perm_swap.
  - eapply Permutation_trans; eassumption.
Qed.

Lemma filtra_permutation (mascara : option (resultado -> bool))
    (l1 l2 : list resultado) :
  Permutation l1 l2 -> Permutation (filtra mascara l1) (filtra mascara l2).
Proof.
  destruct mascara as [m|]; simpl; [apply filter_permutation | trivial].
Qed.

Lemma soma_skipna_permutation (c1 c2 : list num) :
  Permutation c1 c2 -> soma_skipna c1 = soma_skipna c2.
Proof.
  intros P. apply py_sum_permutation, finitos_permutation, P.
Qed.

Lemma media_skipna_permutation (c1 c2 : list num) :
  Permutation c1 c2 -> media_skipna c1 = media_skipna c2.
Proof.
  intros P. unfold media_skipna.
  pose proof (finitos_permutation _ _ P) as Pf.
  pose proof (py_sum_permutation _ _ Pf) as Es.
  pose proof (Permutation_length Pf) as El.
  rewrite Es, El.
  destruct (finitos c1) as [|a l], (finitos c2) as [|b m];
    try reflexivity; discriminate.
Qed.

Lemma finitos_sem_nan (c : campo) (df : list resultado) :
  finitos (map (valor c) df)
  = finitos (map (valor c)
               (filter (fun x => N.isfinite (valor c x)) df)).
Proof.
  induction df as [|x l IH]; [reflexivity |]. unfold finitos in *. simpl.
  destruct (valor c x) eqn:E; simpl; rewrite ?E; simpl; rewrite IH;
    reflexivity.
Qed.

(** X17.  In exact arithmetic the three figures under the table do not
    depend on the column chosen for the ranking nor on the order the sort
    produced: with any [argsort] that sorts, and with any text filter, the
    totals over the filtered ranking are those over the filtered table of
    results. *)
Theorem totals_independent_of_ranking (argsort : list num -> list nat)
    (ordenar_por : campo) (mascara : option (resultado -> bool))
    (df_out : list resultado) :
  RankingProps.ordena argsort ->
  exists rank : list resultado,
    df_rank_de argsort ordenar_por df_out = Val rank
    /\ totais (filtra mascara rank) = totais (filtra mascara df_out).
Proof.
  intros Hs. unfold df_rank_de.
  destruct (RankingProps.sort_values_descending argsort df_out
              (valor ordenar_por) Hs) as (rank & fin & -> & P & _).
  exists rank. split; [reflexivity |].
  pose proof (filtra_permutation mascara _ _ P) as Pm.
  unfold totais.
  rewrite (soma_skipna_permutation _ _
             (Permutation_map (valor Economia_periodo) Pm)).
  rewrite (soma_skipna_permutation _ _
             (Permutation_map (valor Economia_anual) Pm)).
  rewrite (media_skipna_permutation _ _
             (Permutation_map (valor Economia_pct) Pm)).
  reflexivity.
Qed.

(** Four results, the second one without savings, and the filter that
    keeps the SKUs whose code starts with "A". *)
Definition resultado_exemplo (sku : string) (per ano pct : num) : resultado :=
  {| origem := RankingExemplos.linha_exemplo sku;
     Q_otimo := Fin 2; r_otimo := Fin 1; SS_otimo := Fin 0;
     Q0_baseline := Fin 4; r0_baseline := Fin 1;
     custo_otimo := Fin 4; custo_baseline := Fin 5;
     economia_periodo := per; economia_anual := ano; economia_pct := pct |}.

Definition tabela_exemplo : list resultado :=
  [resultado_exemplo "A1" (Fin 1) (Fin 12) (Fin 20);
   resultado_exemplo "B1" NaN NaN NaN;
   resultado_exemplo "A2" (Fin 3) (Fin 36) (Fin 60);
   resultado_exemplo "B2" (Fin 2) (Fin 24) (Fin 40)].

Definition mascara_exemplo (x : resultado) : bool :=
  String.prefix "A" (SKU (origem x)).

Lemma totals_independent_of_ranking_witness :
  df_rank_de RankingProps.argsort_insercao Economia_anual tabela_exemplo
  = Val [resultado_exemplo "A2" (Fin 3) (Fin 36) (Fin 60);
         resultado_exemplo "B2" (Fin 2) (Fin 24) (Fin 40);
         resultado_exemplo "A1" (Fin 1) (Fin 12) (Fin 20);
         resultado_exemplo "B1" NaN NaN NaN]
  /\ filtra (Some mascara_exemplo) tabela_exemplo
     = [resultado_exemplo "A1" (Fin 1) (Fin 12) (Fin 20);
        resultado_exemplo "A2" (Fin 3) (Fin 36) (Fin 60)]
  /\ exists rank : list resultado,
       df_rank_de RankingProps.argsort_insercao Economia_anual tabela_exemplo
       = Val rank
       /\ totais (filtra (Some mascara_exemplo) rank)
          = totais (filtra (Some mascara_exemplo) tabela_exemplo).
Proof.
  split; [| split].
  - unfold df_rank_de, Pandas.sort_values, Pandas.nargsort,
      RankingProps.argsort_insercao.
    simpl. rdec. simpl. rdec. reflexivity.
  - reflexivity.
  - apply (totals_independent_of_ranking RankingProps.argsort_insercao
             Economia_anual (Some mascara_exemplo) tabela_exemplo).
    exact RankingProps.argsort_insercao_ordena.
Defined.

(** X18.  Rows whose savings are NaN or infinite add nothing to the
    totals: each figure is the one computed on the rows where that column
    is finite; the sums are zero and the mean is NaN when no such row is
    left, and otherwise the mean lies between the smallest and the largest
    finite percentage. *)
Theorem totals_skip_non_finite (df_rank : list resultado) :
  totais df_rank
  = (soma_skipna (map (valor Economia_periodo)
        (filter (fun x => N.isfinite (valor Economia_periodo x)) df_rank)),
     soma_skipna (map (valor Economia_anual)
        (filter (fun x => N.isfinite (valor Economia_anual x)) df_rank)),
     media_skipna (map (valor Economia_pct)
        (filter (fun x => N.isfinite (valor Economia_pct x)) df_rank)))
  /\ (forall c, filter (fun x => N.isfinite (valor c x)) df_rank = [] ->
        soma_skipna (map (valor c) df_rank) = 0%R
        /\ media_skipna (map (valor c) df_rank) = NaN)
  /\ (forall c lo hi m,
        (forall x, In x df_rank -> forall v, valor c x = Fin v ->
                   (lo <= v <= hi)%R) ->
        media_skipna (map (valor c) df_rank) = Fin m -> (lo <= m <= hi)%R).
Proof.
  split; [| split].
  - unfold totais, soma_skipna, media_skipna.
    rewrite <- !finitos_sem_nan. reflexivity.
  - intros c E. unfold soma_skipna, media_skipna.
    rewrite (finitos_sem_nan c df_rank), E. split; reflexivity.
  - intros c lo hi m Hb. unfold media_skipna.
    assert (Hf : Forall (fun v => (lo <= v <= hi)%R)
                   (finitos (map (valor c) df_rank))).
    { clear m. induction df_rank as [|x l IH]; [constructor |].
      unfold finitos in *. simpl.
      assert (Hl : forall y, In y l -> forall v, valor c y = Fin v ->
                             (lo <= v <= hi)%R).
      { intros y Hy. apply Hb. right. exact Hy. }
      destruct (valor c x) eqn:E; simpl; try (apply IH; exact Hl).
      constructor; [apply (Hb x); [left; reflexivity | exact E] |].
      apply IH; exact Hl. }
    destruct (finitos (map (valor c) df_rank)) as [|a l] eqn:E;
      [discriminate |].
    intros [= <-].
    pose proof (KpisProps.py_sum_bounds lo hi (a :: l) Hf) as Hs.
    assert (Hn : (0 < INR (List.length (a :: l)))%R)
      by (apply lt_0_INR; simpl; lia).
    set (n := INR (List.length (a :: l))) in *.
    split.
    + apply Rmult_le_reg_r with n; [exact Hn |].
      unfold Rdiv. rewrite Rmult_assoc, Rinv_l by lra. lra.
    + apply Rmult_le_reg_r with n; [exact Hn |].
      unfold Rdiv. rewrite Rmult_assoc, Rinv_l by lra. lra.
Qed.

End TotaisProps.

(* ------------------------------------------------------------------ *)
(** ** The baseline rule [Q0 = Q* ajustado], lines 1090-1110 *)

Module HeuristicaProps.

Import MultiSKU.
Local Open Scope num_scope.

Definition zero_ou_nan (a : num) : Prop := a = Fin 0 \/ a = NaN.

Lemma Rrint_0 : Rrint 0 = 0%R.
Proof.
  unfold Rrint. change 0%R with (IZR 0) at 1 2.
  rewrite AjustaProps.Int_part_IZR.
  rewrite (Rltb_true (IZR 0 - IZR 0) (1 / 2)) by lra. reflexivity.
Qed.

Lemma np_round2_zero_ou_nan (a : num) :
  zero_ou_nan a -> zero_ou_nan (np_round2 a).
Proof.
  intros [-> | ->]; [left | right; reflexivity].
  simpl. rewrite Rmult_0_l, Rrint_0. f_equal. lra.
Qed.

Lemma economia_same (c : num) (y : R) :
  y <> 0%R ->
  exists per ano pct,
    economia c c (Fin y) = Val (per, ano, pct)
    /\ zero_ou_nan per /\ zero_ou_nan ano /\ zero_ou_nan pct.
Proof.
  intros Hy. unfold economia, truediv, N.gtb, zero_ou_nan.
  destruct c as [| | |b]; simpl;
    try (do 3 eexists; repeat split; right; reflexivity).
  destruct (Rltb 0 b) eqn:E; simpl.
  - apply Rltb_spec in E. rewrite ?(Reqb_false b 0) by lra. simpl.
    rewrite ?(Reqb_false b 0) by lra.
    do 3 eexists. split; [reflexivity |].
    repeat split; left; f_equal; field; lra.
  - do 3 eexists. split; [reflexivity |].
    split; [left; f_equal; lra |].
    split; [left; f_equal; lra | right; reflexivity].
Qed.

Section Avaliador.

Variable norm_ppf : num -> num.
Variable base_key_multi : string.

(** X19.  With the restrictions switched off and the rule
    [Q0 = Q* ajustado], a row that brings neither a lot nor a reorder point
    of its own is compared with itself: the row is evaluated, its baseline
    lot, reorder point and cost are those of the optimum, and each of its
    three savings is zero or NaN. *)
Theorem own_optimum_baseline_saves_nothing (r : linha) :
  negb (N.isnan (Q_base r)) && (Q_base r >? Fin 0) = false ->
  negb (N.isnan (r_base r)) && (r_base r >? Fin 0) = false ->
  exists x : resultado,
    avalia_linha norm_ppf base_key_multi false Q0_otimo_ajustado r = Val x
    /\ Q0_baseline x = Q_otimo x
    /\ r0_baseline x = r_otimo x
    /\ custo_baseline x = custo_otimo x
    /\ zero_ou_nan (economia_periodo x)
    /\ zero_ou_nan (economia_anual x)
    /\ zero_ou_nan (economia_pct x).
Proof.
  intros HQ HR. unfold avalia_linha.
  assert (Hppy : exists y : R, periods_per_year_multi base_key_multi = Fin y
                               /\ y <> 0%R).
  { unfold periods_per_year_multi. destruct (String.eqb base_key_multi "mensal");
      eexists; (split; [reflexivity | lra]). }
  destruct Hppy as (y & -> & Hy).
  rewrite EconomiaProps.truediv_fin by assumption. cbn [bind].
  set (h_per := N.div (i_anual r * v r) (Fin y)).
  destruct (RankingProps.lead_time_stats_returns_m (D_per r) (sigma_per r)
              (L_dias r) base_key_multi)
    as (mu_L & sigma_L & d_dia & sigma_d_dia & ->).
  cbn [bind]. rewrite EconomiaProps.truediv_fin by lra. cbn [bind].
  destruct (RankingProps.eoq_returns_m (D_per r) (K r) h_per) as (e & ->).
  cbn [bind]. cbv iota.
  destruct (RankingProps.ajusta_returns_m e (Fin 0) (Fin 0)) as (q_opt & Eopt).
  rewrite !Eopt. cbn [bind]. rewrite HQ. cbn [bind].
  unfold baseline_r_ss. rewrite HR.
  match goal with
  | |- context [custos_periodicos (Some q_opt) ?D ?Kc ?h ?SS] =>
    destruct (RankingProps.custos_returns_m (Some q_opt) D Kc h SS)
      as (a1 & b1 & co & ->)
  end.
  cbn [bind].
  destruct (economia_same co y Hy) as (per & ano & pct & -> & C1 & C2 & C3).
  cbn [bind float_of].
  eexists. split; [reflexivity |].
  cbn [Q0_baseline Q_otimo r0_baseline r_otimo custo_baseline custo_otimo
       economia_periodo economia_anual economia_pct].
  repeat split; try reflexivity; apply np_round2_zero_ou_nan; assumption.
Qed.

End Avaliador.

Definition linha_sem_baseline : linha :=
  {| SKU := "A"; D_per := Fin 2; sigma_per := Fin 0; v := Fin 1;
     i_anual := Fin 12; K := Fin 1; L_dias := Fin 1; MOQ := Fin 0;
     Multiplo := Fin 0; SL := Fin 95; Q_base := NaN; r_base := NaN |}.

Lemma own_optimum_baseline_saves_nothing_witness :
  exists x : resultado,
    avalia_linha EconomiaProps.z_95 "mensal" false Q0_otimo_ajustado
      linha_sem_baseline = Val x
    /\ Q0_baseline x = Q_otimo x
    /\ r0_baseline x = r_otimo x
    /\ custo_baseline x = custo_otimo x
    /\ zero_ou_nan (economia_periodo x)
    /\ zero_ou_nan (economia_anual x)
    /\ zero_ou_nan (economia_pct x).
Proof.
  apply (own_optimum_baseline_saves_nothing EconomiaProps.z_95 "mensal"
           linha_sem_baseline); reflexivity.
Defined.

End HeuristicaProps.

(* ------------------------------------------------------------------ *)
(** ** The figures that explain the costs, lines 386-398 *)

Module DerivadosProps.

Import Calc Calculadora Comparativo.
Local Open Scope num_scope.

(** X20.  For a positive lot and demand, costs that are not negative and a
    safety stock that is not negative, the figures shown beside the costs
    account for them: the ordering cost is [K] times the orders per period,
    the holding cost is [h] times the average stock, and the orders per
    period times the days covered by one lot give the days of the period
    (7 or 30). *)
Theorem derived_figures_explain_costs (Q D K h SS sigma L : R) (base : string) :
  (0 < Q)%R -> (0 < D)%R -> (0 <= K)%R -> (0 <= h)%R -> (0 <= SS)%R ->
  exists cped cpos ctot n em cob mu_L sigma_L d_dia sigma_d_dia : R,
    custos_periodicos (Some (Fin Q)) (Fin D) (Fin K) (Fin h) (Fin SS)
    = Val (Fin cped, Fin cpos, Fin ctot)
    /\ lead_time_stats_from_base (Fin D) (Fin sigma) (Fin L) base
       = Val (Fin mu_L, Fin sigma_L, Fin d_dia, Fin sigma_d_dia)
    /\ n_ped (Fin D) (Fin Q) = Val (Fin n)
    /\ estoque_medio (Fin Q) (Fin SS) = Val (Fin em)
    /\ cobertura_opt (Fin Q) (Fin d_dia) = Val (Fin cob)
    /\ cobertura_base (Fin Q) (Fin d_dia) = Val (Fin cob)
    /\ cped = (K * n)%R
    /\ cpos = (h * em)%R
    /\ (n * cob)%R = LeadTimeProps.dias_base base.
Proof.
  intros HQ HD HK Hh HSS.
  pose proof (LeadTimeProps.dias_base_pos base) as Hb.
  assert (Hd : (0 < D / LeadTimeProps.dias_base base)%R).
  { apply Rmult_lt_0_compat; [lra | apply Rinv_0_lt_compat; lra]. }
  do 10 eexists.
  split; [apply EoqProps.custos_fin; lra |].
  split; [apply LeadTimeProps.lead_time_stats_fin |].
  unfold n_ped, estoque_medio, cobertura_opt, cobertura_base, truediv, N.gtb.
  simpl.
  rewrite (Rltb_true 0 Q), (Reqb_false Q 0), (Reqb_false 2 0) by lra.
  rewrite (Rltb_true 0 (D / LeadTimeProps.dias_base base)) by lra.
  rewrite (Reqb_false (D / LeadTimeProps.dias_base base) 0) by lra.
  cbn [andb bind N.add].
  repeat (split; [reflexivity |]).
  split; [field; lra |].
  split.
  - destruct (Rltb 0 SS) eqn:E; [reflexivity |].
    apply Rltb_false_inv in E. f_equal. f_equal. lra.
  - field. lra.
Qed.

Lemma derived_figures_explain_costs_witness :
  exists cped cpos ctot n em cob mu_L sigma_L d_dia sigma_d_dia : R,
    custos_periodicos (Some (Fin 600)) (Fin 3000) (Fin 50) (Fin 2) (Fin 40)
    = Val (Fin cped, Fin cpos, Fin ctot)
    /\ lead_time_stats_from_base (Fin 3000) (Fin 300) (Fin 5) "mensal"
       = Val (Fin mu_L, Fin sigma_L, Fin d_dia, Fin sigma_d_dia)
    /\ n_ped (Fin 3000) (Fin 600) = Val (Fin n)
    /\ estoque_medio (Fin 600) (Fin 40) = Val (Fin em)
    /\ cobertura_opt (Fin 600) (Fin d_dia) = Val (Fin cob)
    /\ cobertura_base (Fin 600) (Fin d_dia) = Val (Fin cob)
    /\ cped = (50 * n)%R
    /\ cpos = (2 * em)%R
    /\ (n * cob)%R = LeadTimeProps.dias_base "mensal".
Proof.
  apply (derived_figures_explain_costs 600 3000 50 2 40 300 5 "mensal"); lra.
Defined.

End DerivadosProps.
